(** * Dense recursive polynomials: a model of [sympy/polys/densebasic.py]

    The module manipulates polynomials in [K[x]] (prefix [dup_]) and in
    [K[X]] (prefix [dmp_]) stored as nested Python lists of coefficients,
    highest degree first.  The development below embeds the functions of
    that module as Rocq functions and proves properties of them.

    Conventions of the embedding:
    - Python integers are [Z]; positions in a list are [nat].
    - A Python exception is a value [Raise e] of the type [result].
    - A nested list of uniform depth [u+1] has the type [dmp K u]: the level
      [u] that every function of the module receives next to [f] is the
      index of the type of [f].
    - A [dict] keyed by exponent tuples is a [gmap (list Z) K].
    - The coefficient domain [K] is the type class [Domain]. *)

From Stdlib Require Import ZArith Lia.
From stdpp Require Import base option list numbers fin_maps gmap.

Set Warnings "-register-all".

(** ** Python run-time model *)

Inductive exn : Type := IndexError | ValueError.

Inductive result (A : Type) : Type :=
  | Ok (a : A)
  | Raise (e : exn).
Arguments Ok {A} a.
Arguments Raise {A} e.

#[export] Instance result_ret : MRet result := λ A a, Ok a.
#[export] Instance result_bind : MBind result := λ A B k m,
  match m with Ok a => k a | Raise e => Raise e end.

(** [len(l)] *)
Definition len {A} (l : list A) : Z := Z.of_nat (length l).

(** A slice bound [i] of a sequence of length [n], as Python normalises it:
    a negative bound counts from the end, and the outcome is clamped to
    [0..n]. *)
Definition py_bound (n i : Z) : nat :=
  let j := if (i <? 0)%Z then (i + n)%Z else i in
  Z.to_nat (Z.min (Z.max j 0) n).

(** [l[a:b]] *)
Definition py_slice {A} (l : list A) (a b : Z) : list A :=
  let lo := py_bound (len l) a in
  let hi := py_bound (len l) b in
  take (hi - lo) (drop lo l).

(** [l[i]]: a negative index counts from the end; out of range raises. *)
Definition py_index {A} (l : list A) (i : Z) : result A :=
  let j := if (i <? 0)%Z then (i + len l)%Z else i in
  if (j <? 0)%Z then Raise IndexError
  else match l !! Z.to_nat j with
       | Some x => Ok x
       | None => Raise IndexError
       end.

(** The elements at positions [0], [g], [2g], ... of [l]; [fuel] bounds the
    number of elements taken. *)
Fixpoint every_nth {A} (g : nat) (l : list A) (fuel : nat) : list A :=
  match fuel, l with
  | S fuel', x :: _ => x :: every_nth g (drop g l) fuel'
  | _, _ => []
  end.

(** [l[::g]]: a zero step raises [ValueError], a negative step walks
    backwards from the last element. *)
Definition py_stride {A} (l : list A) (g : Z) : result (list A) :=
  if (g =? 0)%Z then Raise ValueError
  else if (0 <? g)%Z then Ok (every_nth (Z.to_nat g) l (length l))
  else Ok (every_nth (Z.to_nat (- g)) (reverse l) (length l)).

(** Modelled from the spec: [igcd] of [sympy.core], the exact gcd of two
    integers, which is not negative and has [igcd(0, x) = x] for [x >= 0]. *)
Definition igcd (a b : Z) : Z := Z.gcd a b.

(** [xrange(a, b)] and [xrange(n, -1, -1)] *)
Definition xrange (a b : Z) : list Z := seqZ a (b - a).
Definition xrange_down (n : Z) : list Z := reverse (seqZ 0 (n + 1)).

(** [enumerate(l)] *)
Definition enumerate {A} (l : list A) : list (Z * A) :=
  imap (λ i x, (Z.of_nat i, x)) l.

(** [for x in l: s = body(s, x)], where the body may raise. *)
Fixpoint for_each {A S} (l : list A) (body : S → A → result S) (s : S)
    : result S :=
  match l with
  | [] => Ok s
  | x :: l' => s' ← body s x; for_each l' body s'
  end.

(** [for k, v in d.iteritems(): s = body(s, k, v)], where the body may
    raise.  The entries are visited in the order of the map. *)
Definition for_items {I} `{Countable I} {A S} (d : gmap I A)
    (body : S → I → A → result S) (s : S) : result S :=
  map_fold (λ k v acc, s' ← acc; body s' k v) (Ok s) d.

(** [max(d.iterkeys())] for the order [ltb]; [None] when [d] is empty,
    where Python raises [ValueError]. *)
Definition max_key {I} `{Countable I} {A} (ltb : I → I → bool) (d : gmap I A)
    : option I :=
  map_fold (λ k _ acc, match acc with
                       | None => Some k
                       | Some m => if ltb m k then Some k else Some m
                       end) None d.

(** Python's order on tuples of integers: lexicographic, a proper prefix
    being smaller. *)
Fixpoint tuple_ltb (a b : list Z) : bool :=
  match a, b with
  | _, [] => false
  | [], _ :: _ => true
  | x :: a', y :: b' => (x <? y)%Z || ((x =? y)%Z && tuple_ltb a' b')
  end.

(** The source of randomness: the values the generator is going to
    produce, and how many of them have been consumed. *)
Record rng : Type := { rng_raw : nat → Z; rng_pos : nat }.

(** [random.randint(a, b)]: an integer of [[a, b]], [ValueError] on an empty
    range. *)
Definition randint (a b : Z) (s : rng) : result (Z * rng) :=
  if (b <? a)%Z then Raise ValueError
  else Ok ((a + rng_raw s (rng_pos s) `mod` (b - a + 1))%Z,
           {| rng_raw := rng_raw s; rng_pos := S (rng_pos s) |}).

(** [[x]*m] *)
Definition py_repeat {A} (x : A) (m : Z) : list A := replicate (Z.to_nat m) x.

(** ** The coefficient domain *)

(** What the module uses of a domain [K]: its zero, its addition, the
    conversion of a Python integer, and the truth value [bool(c)] of an
    element, which is false exactly for the zero of the domain. *)
Class Domain (K : Type) := {
  K_zero : K;
  K_add : K → K → K;
  K_convert : Z → K;
  K_truth : K → bool;
  K_truth_zero : ∀ c, K_truth c = false ↔ c = K_zero;
  K_eq_dec :: EqDecision K
}.

(** The integers [ZZ]. *)
#[export] Instance ZZ : Domain Z.
Proof.
  refine {| K_zero := 0%Z; K_add := Z.add; K_convert := λ z, z;
            K_truth := λ c, negb (c =? 0)%Z |}.
  intros c. rewrite negb_false_iff. apply Z.eqb_eq.
Defined.

(** ** Values of unknown nesting depth

    [dmp_zero] and [dmp_ground] are also called with the level [-1], where a
    polynomial is a bare element of the domain; their results are described
    on Python values that are either a scalar or a list of values. *)
Module Untyped.
Section Defs.
Context {K : Type} {D : Domain K}.

Inductive value : Type :=
  | Scalar (c : K)
  | Nested (l : list value).

(** One pass of [r = [r]]. *)
Definition wrap (r : value) : value := Nested [r].

(** [for i in xrange(n): r = [r]] *)
Definition wrap_loop (n : Z) (r : value) : value :=
  Nat.iter (Z.to_nat n) wrap r.

Definition dmp_zero (u : Z) : value := wrap_loop u (Nested []).

Definition dmp_ground (c : K) (u : Z) : value :=
  if negb (K_truth c) then dmp_zero u
  else wrap_loop (u + 1) (Scalar c).


(** [c] inside [n] singleton lists. *)
Fixpoint singletons (n : nat) (c : K) : value :=
  match n with
  | 0 => Scalar c
  | S n' => Nested [singletons n' c]
  end.
End Defs.
End Untyped.

(** ** Dense polynomials of a given level *)

Section Dense.
Context {K : Type} {D : Domain K}.

(** A polynomial of level [u] (in [u+1] variables): a list of
    polynomials of level [u-1], and at level [0] a list of coefficients. *)
Fixpoint dmp (u : nat) : Type :=
  match u with
  | 0 => list K
  | S v => list (dmp v)
  end.

Definition dup_degree (f : list K) : Z := (len f - 1)%Z.

Fixpoint dmp_zero_p (u : nat) : dmp u → bool :=
  match u with
  | 0 => λ f, bool_decide (length f = 0)
  | S v => λ f, match f with
                | [c] => dmp_zero_p v c
                | _ => false
                end
  end.

Fixpoint dmp_zero (u : nat) : dmp u :=
  match u with
  | 0 => []
  | S v => [dmp_zero v]
  end.

(** [len(f)] for a polynomial of level [u]. *)
Definition dmp_len (u : nat) : dmp u → Z :=
  match u with
  | 0 => λ f, len f
  | S v => λ f, len f
  end.

Definition dmp_degree (u : nat) (f : dmp u) : Z :=
  if dmp_zero_p u f then (-1)%Z
  else (dmp_len u f - 1)%Z.

(** [i = 0; for c in f: if stop(c): break else: i += 1] *)
Fixpoint count_until {A} (stop : A → bool) (f : list A) : nat :=
  match f with
  | [] => 0
  | c :: f' => if stop c then 0 else S (count_until stop f')
  end.

Definition dup_strip (f : list K) : list K :=
  match f with
  | [] => f
  | c :: _ =>
      if K_truth c then f
      else drop (count_until K_truth f) f
  end.

Definition dmp_strip (u : nat) : dmp u → dmp u :=
  match u with
  | 0 => dup_strip
  | S v => λ f,
      if dmp_zero_p (S v) f then f
      else
        let i := count_until (λ c, negb (dmp_zero_p v c)) f in
        if bool_decide (i = length f) then dmp_zero (S v)
        else drop i f
  end.

(** [_rec_strip]: strip at every level, innermost first. *)
Fixpoint _rec_strip (v : nat) : dmp v → dmp v :=
  match v with
  | 0 => dup_strip
  | S w => λ g, dmp_strip (S w) (_rec_strip w <$> g)
  end.

Definition dup_nth (f : list K) (n : Z) : result K :=
  if (n <? 0)%Z then Raise IndexError
  else if (len f <=? n)%Z then Ok K_zero
  else py_index f (dup_degree f - n).

(** *** Sparse form: a dictionary from exponent tuples to coefficients *)

Definition dup_to_dict (f : list K) (zero : bool) : result (gmap (list Z) K) :=
  if bool_decide (length f = 0) && zero then Ok {[ [0%Z] := K_zero ]}
  else
    let n := dup_degree f in
    for_each (xrange 0 (n + 1))
      (λ result k,
         c ← py_index f (n - k);
         if K_truth c then Ok (<[ [k] := c ]> result) else Ok result)
      ∅.

Fixpoint dmp_to_dict (u : nat) : dmp u → bool → result (gmap (list Z) K) :=
  match u with
  | 0 => dup_to_dict
  | S v => λ f zero,
      if dmp_zero_p (S v) f && zero
      then Ok {[ replicate (S (S v)) 0%Z := K_zero ]}
      else
        let n := dmp_degree (S v) f in
        for_each (xrange 0 (n + 1))
          (λ result k,
             c ← py_index f (n - k);
             h ← dmp_to_dict v c false;
             Ok (map_fold (λ exp coeff result, <[ k :: exp := coeff ]> result)
                          result h))
          ∅
  end.

Definition dup_from_dict (f : gmap (list Z) K) : result (list K) :=
  if bool_decide (f = ∅) then Ok []
  else
    match max_key tuple_ltb f with
    | None => Raise ValueError
    | Some [n] =>
        Ok (dup_strip ((λ k, default K_zero (f !! [k])) <$> xrange_down n))
    | Some _ => Raise ValueError
    end.

(** The first loop of [dmp_from_dict]: the terms grouped by the exponent of
    the leading variable. *)
Definition group_by_head (f : gmap (list Z) K)
    : result (gmap Z (gmap (list Z) K)) :=
  for_items f
    (λ coeffs monom coeff,
       match monom with
       | [] => Raise IndexError
       | head :: tail =>
           match coeffs !! head with
           | Some d => Ok (<[ head := <[ tail := coeff ]> d ]> coeffs)
           | None => Ok (<[ head := {[ tail := coeff ]} ]> coeffs)
           end
       end)
    ∅.

Fixpoint dmp_from_dict (u : nat) : gmap (list Z) K → result (dmp u) :=
  match u with
  | 0 => dup_from_dict
  | S v => λ f,
      if bool_decide (f = ∅) then Ok (dmp_zero (S v))
      else
        coeffs ← group_by_head f;
        match max_key Z.ltb coeffs with
        | None => Raise ValueError
        | Some n =>
            h ← mapM (λ k, match coeffs !! k with
                           | Some coeff => dmp_from_dict v coeff
                           | None => Ok (dmp_zero v)
                           end) (xrange_down n);
            Ok (dmp_strip (S v) h)
        end
  end.

(** *** Slicing *)

Definition dup_slice (f : list K) (m n : Z) : list K :=
  let k := len f in
  let M := (k - m)%Z in
  let N := (k - n)%Z in
  let f := py_slice f N M in
  match f with
  | [] => []
  | _ => f ++ py_repeat K_zero m
  end.

Definition dmp_slice_in (u : nat) (f : dmp u) (m n j : Z) : result (dmp u) :=
  if (j <? 0)%Z || (Z.of_nat u <? j)%Z then Raise IndexError
  else
    match u return dmp u → result (dmp u) with
    | 0 => λ f, Ok (dup_slice f m n)
    | S v => λ f,
        f ← dmp_to_dict (S v) f false;
        g ← for_items f
              (λ g monom coeff,
                 k ← py_index monom j;
                 let monom :=
                   if (k <? m)%Z || (n <=? k)%Z
                   then py_slice monom 0 j ++ [0%Z]
                        ++ py_slice monom (j + 1) (len monom)
                   else monom in
                 match g !! monom with
                 | Some c => Ok (<[ monom := K_add c coeff ]> g)
                 | None => Ok (<[ monom := coeff ]> g)
                 end)
              ∅;
        dmp_from_dict (S v) g
    end f.

Definition dmp_slice (u : nat) (f : dmp u) (m n : Z) : result (dmp u) :=
  dmp_slice_in u f m n 0.

(** *** Deflation and inflation *)

(** The loop over [i] of [dup_deflate] and [dup_multi_deflate]:
    [Ok None] when the loop leaves the function through [g == 1],
    [Ok (Some g)] when it runs to its end. *)
Fixpoint gcd_loop (f : list K) (range : list Z) (g : Z) : result (option Z) :=
  match range with
  | [] => Ok (Some g)
  | i :: range' =>
      c ← py_index f (- i - 1);
      if negb (K_truth c) then gcd_loop f range' g
      else
        let g := igcd g i in
        if (g =? 1)%Z then Ok None else gcd_loop f range' g
  end.

Definition dup_deflate (f : list K) : result (Z * list K) :=
  if (dup_degree f <=? 0)%Z then Ok (1%Z, f)
  else
    r ← gcd_loop f (xrange 0 (len f)) 0;
    match r with
    | None => Ok (1%Z, f)
    | Some g => h ← py_stride f g; Ok (g, h)
    end.

(** The loop over [p] of [dup_multi_deflate], with the same convention. *)
Fixpoint multi_loop (polys : list (list K)) (G : Z) : result (option Z) :=
  match polys with
  | [] => Ok (Some G)
  | p :: polys' =>
      if (dup_degree p <=? 0)%Z then Ok None
      else
        r ← gcd_loop p (xrange 0 (len p)) 0;
        match r with
        | None => Ok None
        | Some g => multi_loop polys' (igcd G g)
        end
  end.

Definition dup_multi_deflate (polys : list (list K))
    : result (Z * list (list K)) :=
  r ← multi_loop polys 0;
  match r with
  | None => Ok (1%Z, polys)
  | Some G => H ← mapM (λ p, py_stride p G) polys; Ok (G, H)
  end.

Definition dup_inflate (f : list K) (m : Z) : result (list K) :=
  if (m <=? 0)%Z then Raise IndexError
  else if (m =? 1)%Z then Ok f
  else
    match f with
    | [] => Ok f
    | c0 :: rest =>
        Ok (foldl (λ result coeff, result ++ py_repeat K_zero (m - 1) ++ [coeff])
                  [c0] rest)
    end.

(** *** Listing the terms *)

Fixpoint _rec_list_terms (v : nat) : dmp v → list Z → list (list Z * K) :=
  match v with
  | 0 => λ g monom,
      let d := dmp_degree 0 g in
      foldl (λ terms '(i, c),
               if negb (K_truth c) then terms
               else terms ++ [(monom ++ [(d - i)%Z], c)])
            [] (enumerate g)
  | S w => λ g monom,
      let d := dmp_degree (S w) g in
      foldl (λ terms '(i, c),
               terms ++ _rec_list_terms w c (monom ++ [(d - i)%Z]))
            [] (enumerate g)
  end.

(** [order] is [None] or the sorting [sdp_sort(_, monomial_key(order))] of
    the module [groebnertools]. *)
Definition dmp_list_terms (u : nat) (f : dmp u)
    (order : option (list (list Z * K) → list (list Z * K)))
    : list (list Z * K) :=
  let terms := _rec_list_terms u f [] in
  match terms with
  | [] => [(replicate (S u) 0%Z, K_zero)]
  | _ => match order with
         | None => terms
         | Some sdp_sort => sdp_sort terms
         end
  end.

(** *** Random polynomials *)

(** [f = [K.convert(random.randint(a, b)) for _ in xrange(0, n+1)]] *)
Definition dup_random_init (n a b : Z) (s : rng) : result (list K * rng) :=
  for_each (xrange 0 (n + 1))
    (λ '(f, s) _, '(x, s') ← randint a b s; Ok (f ++ [K_convert x], s'))
    ([], s).

(** [while not f[0]: f[0] = K.convert(random.randint(a, b))], run for at
    most [fuel] tests of the condition; [None] when the loop is still
    running after them. *)
Fixpoint dup_random_loop (fuel : nat) (a b : Z) (f : list K) (s : rng)
    : option (result (list K * rng)) :=
  match fuel with
  | 0 => None
  | S fuel' =>
      match py_index f 0 with
      | Raise e => Some (Raise e)
      | Ok c =>
          if K_truth c then Some (Ok (f, s))
          else
            match randint a b s with
            | Raise e => Some (Raise e)
            | Ok (x, s') =>
                dup_random_loop fuel' a b (<[ 0 := K_convert x ]> f) s'
            end
      end
  end.

Definition dup_random (fuel : nat) (n a b : Z) (s : rng)
    : option (result (list K * rng)) :=
  match dup_random_init n a b s with
  | Raise e => Some (Raise e)
  | Ok (f, s') => dup_random_loop fuel a b f s'
  end.

End Dense.

Arguments dmp K : clear implicits.

(** ** Notions used to state the properties *)

Section Notions.
Context {K : Type} {D : Domain K}.

(** The typed polynomials as Python values. *)
Fixpoint embed (u : nat) : dmp K u → Untyped.value :=
  match u with
  | 0 => λ f, Untyped.Nested (Untyped.Scalar <$> f)
  | S v => λ f, Untyped.Nested (embed v <$> f)
  end.



(** No leading zero coefficient: the list is empty or starts with a
    coefficient that is not zero. *)
Definition dup_stripped (f : list K) : bool :=
  match f with
  | [] => true
  | c :: _ => K_truth c
  end.

(** No leading zero entry at the top level of a polynomial of level [u]:
    it is the zero of its level, or starts with an entry that is not zero. *)
Definition dmp_stripped (u : nat) : dmp K u → bool :=
  match u with
  | 0 => dup_stripped
  | S v => λ f, dmp_zero_p (S v) f ||
                match f with
                | [] => false
                | c :: _ => negb (dmp_zero_p v c)
                end
  end.

(** The invariant of the data model at every nesting level. *)
Fixpoint dmp_normal_p (u : nat) : dmp K u → bool :=
  match u with
  | 0 => dup_stripped
  | S v => λ f, dmp_stripped (S v) f && forallb (dmp_normal_p v) f
  end.

(** The entries of [f] satisfy the invariant; the top level of [f] may
    still start with zero entries. *)
Definition dmp_coeffs_normal (u : nat) : dmp K u → bool :=
  match u with
  | 0 => λ _, true
  | S v => λ f, forallb (dmp_normal_p v) f
  end.

(** The coefficient stored in [f] for the exponent tuple [monom]: an entry
    at position [i] of a list of length [n] belongs to the exponent
    [n - 1 - i]. *)
Definition at_exponent {A} (f : list A) (e : Z) : option A :=
  if bool_decide (0 ≤ e < len f)%Z then f !! Z.to_nat (len f - 1 - e) else None.

Fixpoint dmp_coeff (u : nat) : dmp K u → list Z → option K :=
  match u with
  | 0 => λ f monom,
      match monom with
      | [e] => at_exponent f e
      | _ => None
      end
  | S v => λ f monom,
      match monom with
      | e :: monom' => c ← at_exponent f e; dmp_coeff v c monom'
      | [] => None
      end
  end.

(** [(monom, c)] is a term of [f]: a stored coefficient that is not zero. *)
Definition dmp_term (u : nat) (f : dmp K u) (monom : list Z) (c : K) : Prop :=
  dmp_coeff u f monom = Some c ∧ K_truth c = true.

(** A sparse form of level [u]: the keys are tuples of [u+1] exponents, none
    of them negative, and no value is zero. *)
Definition sparse_form (u : nat) (d : gmap (list Z) K) : Prop :=
  ∀ monom c, d !! monom = Some c →
    length monom = S u ∧ Forall (λ e, 0 ≤ e)%Z monom ∧ K_truth c = true.

(** The exponents of [f] that carry a coefficient that is not zero, and
    their greatest common divisor. *)
Definition carries (f : list K) (e : Z) : bool :=
  match at_exponent f e with
  | Some c => K_truth c
  | None => false
  end.

Definition support (f : list K) : list Z :=
  filter (λ e, carries f e = true) (xrange 0 (len f)).

Definition gcd_list (l : list Z) : Z := foldr Z.gcd 0%Z l.

Definition exponent_gcd (f : list K) : Z := gcd_list (support f).

(** The same, jointly for the polynomials of a collection. *)
Definition joint_exponent_gcd (polys : list (list K)) : Z :=
  gcd_list (polys ≫= support).

(** [m - 1] zeros in front of every coefficient of [l]: what [dup_inflate]
    puts after the leading coefficient. *)
Definition spread (m : nat) (l : list K) : list K :=
  l ≫= (λ c, replicate (m - 1) K_zero ++ [c]).

(** The integer that the [i]-th call of [random.randint(a, b)] from the
    state [s] returns, and the state after [k] calls. *)
Definition draw (a b : Z) (s : rng) (i : nat) : Z :=
  (a + rng_raw s (rng_pos s + i) `mod` (b - a + 1))%Z.

Definition skip (k : nat) (s : rng) : rng :=
  {| rng_raw := rng_raw s; rng_pos := rng_pos s + k |}.

(** The successive candidates of [dup_random(n, a, b, K)] for the leading
    coefficient: the first of the [n+1] initial draws, then every draw made
    by the loop. *)
Definition leading_draw (n a b : Z) (s : rng) (j : nat) : Z :=
  match j with
  | 0 => draw a b s 0
  | S _ => draw a b s (Z.to_nat n + j)
  end.
End Notions.

(** ** Further functions of the module *)

(** [l[i] = x]: a negative index counts from the end; out of range raises. *)
Definition py_setitem {A} (l : list A) (i : Z) (x : A) : result (list A) :=
  let j := if (i <? 0)%Z then (i + len l)%Z else i in
  if (j <? 0)%Z || (len l <=? j)%Z then Raise IndexError
  else Ok (<[ Z.to_nat j := x ]> l).

Section Further.
Context {K : Type} {D : Domain K}.

(** *** Leading and trailing coefficients *)

(** [poly_LC], also named [dup_LC]. *)
Definition poly_LC (f : list K) : K :=
  match f with
  | [] => K_zero
  | c :: _ => c
  end.

(** [poly_TC], also named [dup_TC]: [f[-1]] is the last element of a list
    that is not empty. *)
Definition poly_TC (f : list K) : K :=
  match f with
  | [] => K_zero
  | _ :: _ => default K_zero (last f)
  end.

(** [dmp_ground_LC]: [dmp_LC] is [poly_LC]; on an empty list above the
    base it yields [K.zero], whose truth value is false, so that every
    further pass of the loop and the final [dup_LC] yield [K.zero]
    again. *)
Fixpoint dmp_ground_LC (u : nat) : dmp K u → K :=
  match u with
  | 0 => poly_LC
  | S v => λ f, match f with
                | [] => K_zero
                | c :: _ => dmp_ground_LC v c
                end
  end.

(** [dmp_ground_TC], in the same way with the last entries. *)
Fixpoint dmp_ground_TC (u : nat) : dmp K u → K :=
  match u with
  | 0 => poly_TC
  | S v => λ f, match last f with
                | None => K_zero
                | Some c => dmp_ground_TC v c
                end
  end.

(** The loop of [dmp_true_LT] from the level [u] down, [monom] holding the
    exponents appended so far; [f[0]] raises on an empty list. *)
Fixpoint true_LT_loop (u : nat) : dmp K u → list Z → result (list Z * K) :=
  match u with
  | 0 => λ f monom,
      Ok (monom ++ [if bool_decide (length f = 0) then 0%Z else (len f - 1)%Z],
          poly_LC f)
  | S v => λ f monom,
      c ← py_index f 0;
      true_LT_loop v c (monom ++ [(len f - 1)%Z])
  end.

Definition dmp_true_LT (u : nat) (f : dmp K u) : result (list Z * K) :=
  true_LT_loop u f [].

(** *** Degrees in every variable *)

(** [_rec_degree_list]: [degs] is the list that the source updates in
    place. *)
Fixpoint _rec_degree_list (v : nat) : dmp K v → Z → list Z → result (list Z) :=
  match v with
  | 0 => λ g i degs,
      d ← py_index degs i;
      py_setitem degs i (Z.max d (dmp_degree 0 g))
  | S w => λ g i degs,
      d ← py_index degs i;
      degs ← py_setitem degs i (Z.max d (dmp_degree (S w) g));
      for_each g (λ degs c, _rec_degree_list w c (i + 1)%Z degs) degs
  end.

Definition dmp_degree_list (u : nat) (f : dmp K u) : result (list Z) :=
  _rec_degree_list u f 0 (py_repeat (-1)%Z (Z.of_nat u + 1)).

(** *** Coefficients and constants *)

(** [dmp_nth] at a level [u = v + 1]. *)
Definition dmp_nth (v : nat) (f : list (dmp K v)) (n : Z) : result (dmp K v) :=
  if (n <? 0)%Z then Raise IndexError
  else if (len f <=? n)%Z then Ok (dmp_zero v)
  else py_index f (dmp_degree (S v) f - n).

(** [for i in xrange(u+1): c = [c]] *)
Fixpoint dmp_singleton (u : nat) (c : K) : dmp K u :=
  match u with
  | 0 => [c]
  | S v => [dmp_singleton v c]
  end.

(** [dmp_ground] at a level [u >= 0]. *)
Definition dmp_ground (c : K) (u : nat) : dmp K u :=
  if negb (K_truth c) then dmp_zero u else dmp_singleton u c.

(** The loop and the final test of [dmp_ground_p]; [c] is [None] or a
    coefficient. *)
Fixpoint ground_p_loop (u : nat) : dmp K u → option K → bool :=
  match u with
  | 0 => λ f c,
      match c with
      | None => bool_decide (length f ≤ 1)
      | Some c => bool_decide (f = [c])
      end
  | S v => λ f c,
      match f with
      | [x] => ground_p_loop v x c
      | _ => false
      end
  end.

Definition dmp_ground_p (u : nat) (f : dmp K u) (c : option K) : bool :=
  match c with
  | Some c' => if negb (K_truth c') then dmp_zero_p u f
               else ground_p_loop u f c
  | None => ground_p_loop u f c
  end.

(** *** Univariate transformations *)

Definition dup_reverse (f : list K) : list K := dup_strip (reverse f).

(** [dup_terms_gcd]: the loop counts the trailing zero coefficients, and
    [f[:-i]] is the slice from the start to the position [-i]. *)

Definition dup_terms_gcd (f : list K) : Z * list K :=
  if K_truth (poly_TC f) || bool_decide (length f = 0) then (0%Z, f)
  else
    let i := Z.of_nat (count_until K_truth (reverse f)) in
    (i, py_slice f 0 (- i)).

(** *** Applying a function to pairs of coefficients

    [h] stands for [lambda a, b: h(a, b, *args)]. *)

Definition dup_apply_pairs (f g : list K) (h : K → K → K) : list K :=
  let n := len f in
  let m := len g in
  let '(f, g) :=
    if bool_decide (n ≠ m)
    then if (m <? n)%Z then (f, py_repeat K_zero (n - m) ++ g)
         else (py_repeat K_zero (m - n) ++ f, g)
    else (f, g) in
  dup_strip (zip_with h f g).

(** [dmp_zeros] at a level [u >= 0]. *)
Definition dmp_zeros (n : Z) (u : nat) : list (dmp K u) :=
  if (n =? 0)%Z then [] else replicate (Z.to_nat n) (dmp_zero u).

Fixpoint dmp_apply_pairs (u : nat) : dmp K u → dmp K u → (K → K → K) → dmp K u :=
  match u with
  | 0 => dup_apply_pairs
  | S v => λ f g h,
      let n := len f in
      let m := len g in
      let '(f, g) :=
        if bool_decide (n ≠ m)
        then if (m <? n)%Z then (f, dmp_zeros (n - m) v ++ g)
             else (dmp_zeros (m - n) v ++ f, g)
        else (f, g) in
      dmp_strip (S v) (zip_with (λ a b, dmp_apply_pairs v a b h) f g)
  end.

(** *** Exchanging two variables *)

Definition dmp_swap (u : nat) (f : dmp K u) (i j : Z) : result (dmp K u) :=
  if (i <? 0)%Z || (j <? 0)%Z || (Z.of_nat u <? i)%Z || (Z.of_nat u <? j)%Z
  then Raise IndexError
  else if (i =? j)%Z then Ok f
  else
    F ← dmp_to_dict u f false;
    H ← for_items F
          (λ H exp coeff,
             ej ← py_index exp j;
             ei ← py_index exp i;
             Ok (<[ py_slice exp 0 i ++ [ej] ++ py_slice exp (i + 1) j
                    ++ [ei] ++ py_slice exp (j + 1) (len exp) := coeff ]> H))
          ∅;
    dmp_from_dict u H.

(** *** Permuting the variables *)

(** [dmp_permute]: [zip] stops at the shorter of [exp] and [P]. *)
Definition dmp_permute (u : nat) (f : dmp K u) (P : list Z) : result (dmp K u) :=
  F ← dmp_to_dict u f false;
  H ← for_items F
        (λ H exp coeff,
           new_exp ← for_each (zip exp P)
                        (λ new_exp '(e, p), py_setitem new_exp p e)
                        (py_repeat 0%Z (len exp));
           Ok (<[ new_exp := coeff ]> H))
        ∅;
  dmp_from_dict u H.

(** *** Deflation and inflation in several variables *)

(** [dmp_deflate]: [B] is the list that the source updates in place and
    turns into a tuple. After the second loop no entry of [B] is zero, so
    that the floor division [a // b], which is [Z.div] for such a [b],
    does not raise. *)
Definition dmp_deflate (u : nat) (f : dmp K u) : result (list Z * dmp K u) :=
  if dmp_zero_p u f then Ok (py_repeat 1%Z (Z.of_nat u + 1), f)
  else
    F ← dmp_to_dict u f false;
    B ← for_items F
          (λ B M _,
             for_each (enumerate M)
               (λ B '(i, m), b ← py_index B i; py_setitem B i (igcd b m)) B)
          (py_repeat 0%Z (Z.of_nat u + 1));
    B ← for_each (enumerate B)
          (λ B '(i, b), if (b =? 0)%Z then py_setitem B i 1%Z else Ok B) B;
    if forallb (λ b, (b =? 1)%Z) B then Ok (B, f)
    else
      H ← for_items F
            (λ H A coeff, Ok (<[ zip_with Z.div A B := coeff ]> H)) ∅;
      g ← dmp_from_dict u H;
      Ok (B, g).

(** [dmp_multi_deflate]: [F] is the list of the dictionaries and [B] the
    list of the gcds, both updated in place by the first loop. *)
Definition dmp_multi_deflate (u : nat) (polys : list (dmp K u))
    : result (list Z * list (dmp K u)) :=
  match u return list (dmp K u) → result (list Z * list (dmp K u)) with
  | 0 => λ polys, '(M, H) ← dup_multi_deflate polys; Ok ([M], H)
  | S v => λ polys,
      '(F, B) ← for_each polys
        (λ '(F, B) p,
           f ← dmp_to_dict (S v) p false;
           B ← (if negb (dmp_zero_p (S v) p)
                then for_items f
                       (λ B M _,
                          for_each (enumerate M)
                            (λ B '(i, m),
                               b ← py_index B i; py_setitem B i (igcd b m))
                            B)
                       B
                else Ok B);
           Ok (F ++ [f], B))
        ([], py_repeat 0%Z (Z.of_nat (S v) + 1));
      B ← for_each (enumerate B)
            (λ B '(i, b), if (b =? 0)%Z then py_setitem B i 1%Z else Ok B) B;
      if forallb (λ b, (b =? 1)%Z) B then Ok (B, polys)
      else
        H ← for_each F
              (λ H f,
                 h ← for_items f
                       (λ h A coeff, Ok (<[ zip_with Z.div A B := coeff ]> h))
                       ∅;
                 g ← dmp_from_dict (S v) h;
                 Ok (H ++ [g]))
              [];
        Ok (B, H)
  end polys.

(** [_rec_inflate]: the entries are inflated first, all of them; [g[0]]
    raises on an empty list, and [xrange(1, M[i])] makes [M[i] - 1]
    passes. *)
Fixpoint _rec_inflate (v : nat) : dmp K v → list Z → Z → result (dmp K v) :=
  match v with
  | 0 => λ g M i, m ← py_index M i; dup_inflate g m
  | S w => λ g M i,
      m ← py_index M i;
      if (m <=? 0)%Z then Raise IndexError
      else
        g ← mapM (λ c, _rec_inflate w c M (i + 1)%Z) g;
        g0 ← py_index g 0;
        Ok (foldl (λ result coeff,
                     result ++ py_repeat (dmp_zero w) (m - 1) ++ [coeff])
                  [g0] (py_slice g 1 (len g)))
  end.

Definition dmp_inflate (u : nat) (f : dmp K u) (M : list Z) : result (dmp K u) :=
  match u return dmp K u → result (dmp K u) with
  | 0 => λ f, m ← py_index M 0; dup_inflate f m
  | S v => λ f,
      if forallb (λ m, (m =? 1)%Z) M then Ok f
      else _rec_inflate (S v) f M 0
  end f.

(** *** Raw dictionaries: the exponents themselves are the keys *)

(** [max] raises a [ValueError] on an empty sequence, which the test
    above excludes. *)
Definition dup_from_raw_dict (f : gmap Z K) : result (list K) :=
  if bool_decide (f = ∅) then Ok []
  else
    match max_key Z.ltb f with
    | None => Raise ValueError
    | Some n =>
        Ok (dup_strip ((λ k, default K_zero (f !! k)) <$> xrange_down n))
    end.

Definition dup_to_raw_dict (f : list K) (zero : bool) : result (gmap Z K) :=
  if bool_decide (length f = 0) && zero then Ok {[ 0%Z := K_zero ]}
  else
    let n := dup_degree f in
    for_each (xrange 0 (n + 1))
      (λ result k,
         c ← py_index f (n - k);
         if K_truth c then Ok (<[ k := c ]> result) else Ok result)
      ∅.
End Further.

(** *** Normalising the coefficients

    [K_normal] stands for [K.normal], which takes a raw coefficient to an
    element of the domain. *)
Section Normalising.
Context {R K : Type} {D : Domain K} (K_normal : R → K).

Definition dup_normal (f : list R) : list K := dup_strip (K_normal <$> f).

Fixpoint dmp_normal (u : nat) : dmp R u → dmp K u :=
  match u with
  | 0 => dup_normal
  | S v => λ f, dmp_strip (S v) (dmp_normal v <$> f)
  end.
End Normalising.

(** ** Further notions used to state the properties *)

Section FurtherNotions.
Context {K : Type} {D : Domain K}.

(** The coefficient of the monomial [monom] in [f]: the stored one, and
    zero where nothing is stored. *)
Definition dmp_coeff_or_zero (u : nat) (f : dmp K u) (monom : list Z) : K :=
  default K_zero (dmp_coeff u f monom).

(** The greatest degree, in their main variable, of the polynomials found
    [t] levels below the top of [g]; [-1] when there is none. *)
Fixpoint degree_at_depth (v : nat) : dmp K v → nat → Z :=
  match v with
  | 0 => λ g t,
      match t with
      | 0 => dmp_degree 0 g
      | S _ => (-1)%Z
      end
  | S w => λ g t,
      match t with
      | 0 => dmp_degree (S w) g
      | S t' => foldr Z.max (-1)%Z ((λ x, degree_at_depth w x t') <$> g)
      end
  end.

(** The exponent tuple [m] with the entries at the positions [i] and [j]
    exchanged. *)
Definition exchange (i j : nat) (m : list Z) : list Z :=
  <[ i := default 0%Z (m !! j) ]> (<[ j := default 0%Z (m !! i) ]> m).
End FurtherNotions.

(** * Properties *)

Section Basics.
Context {K : Type} {D : Domain K}.
Implicit Types (f g h : list K) (c : K) (m n i j k : Z).

(** *** Python sequences *)

Lemma len_nonneg {A} (l : list A) : (0 ≤ len l)%Z.
Proof. unfold len. lia. Qed.

Lemma py_index_nonneg {A} (l : list A) (i : Z) :
  (0 ≤ i)%Z → py_index l i = match l !! Z.to_nat i with
                            | Some x => Ok x
                            | None => Raise IndexError
                            end.
Proof.
  intros Hi. unfold py_index.
  destruct (Z.ltb_spec i 0); [lia|].
  destruct (Z.ltb_spec i 0); [lia|]. done.
Qed.

Lemma py_index_in_range {A} (l : list A) (i : Z) :
  (0 ≤ i < len l)%Z → ∃ x, l !! Z.to_nat i = Some x ∧ py_index l i = Ok x.
Proof.
  intros Hi. rewrite py_index_nonneg by lia.
  destruct (lookup_lt_is_Some_2 l (Z.to_nat i)) as [x Hx].
  { unfold len in Hi. lia. }
  exists x. by rewrite Hx.
Qed.

Lemma truth_false c : K_truth c = false ↔ c = K_zero.
Proof. apply K_truth_zero. Qed.

Lemma truth_true c : K_truth c = true ↔ c ≠ K_zero.
Proof.
  rewrite <- truth_false. destruct (K_truth c); split; congruence.
Qed.

(** *** [dup_nth] *)

(** C7: [dup_nth(f, n, K)] raises an index error exactly when [n < 0];
    it returns the zero of the domain when [n] exceeds the degree of [f];
    otherwise it returns the coefficient [f[degree(f) - n]] of [x^n]. *)
Theorem dup_nth_spec f n :
  (dup_nth f n = Raise IndexError ↔ (n < 0)%Z) ∧
  ((dup_degree f < n)%Z → dup_nth f n = Ok K_zero) ∧
  ((0 ≤ n ≤ dup_degree f)%Z →
     ∃ c, f !! Z.to_nat (dup_degree f - n) = Some c ∧
          at_exponent f n = Some c ∧
          dup_nth f n = Ok c).
Proof.
  unfold dup_nth, dup_degree, at_exponent.
  destruct (Z.ltb_spec n 0) as [Hn|Hn].
  { split; [done|]. split; [|lia].
    pose proof (len_nonneg f). lia. }
  destruct (Z.leb_spec (len f) n) as [Hl|Hl].
  { split; [split; [done|lia]|]. split; [done|lia]. }
  destruct (py_index_in_range f (len f - 1 - n)) as (c & Hc & Hi); [lia|].
  rewrite Hi. split; [split; [done|lia]|]. split; [lia|].
  intros _. exists c. rewrite bool_decide_eq_true_2 by lia. done.
Qed.
End Basics.

(** C7 over the integers, for [f = [1, 2, 3]]: the index [4] is beyond the
    degree, the index [0] selects the trailing coefficient. *)
Lemma dup_nth_spec_witness :
  ((dup_degree [1; 2; 3] < 4)%Z ∧ dup_nth [1; 2; 3]%Z 4 = Ok 0%Z) ∧
  ((0 ≤ 0 ≤ dup_degree [1; 2; 3])%Z ∧
     ∃ c, [1; 2; 3]%Z !! Z.to_nat (dup_degree [1; 2; 3]%Z - 0) = Some c ∧
          at_exponent [1; 2; 3]%Z 0 = Some c ∧
          dup_nth [1; 2; 3]%Z 0 = Ok c).
Proof.
  split; split.
  - vm_compute. reflexivity.
  - refine (proj1 (proj2 (dup_nth_spec [1; 2; 3]%Z 4)) _). vm_compute. reflexivity.
  - vm_compute. split; discriminate.
  - apply (proj2 (proj2 (dup_nth_spec [1; 2; 3]%Z 0))).
    vm_compute. split; discriminate.
Defined.

Section Ground.
Context {K : Type} {D : Domain K}.

Lemma wrap_loop_scalar (n : Z) (c : K) :
  Untyped.wrap_loop n (Untyped.Scalar c) = Untyped.singletons (Z.to_nat n) c.
Proof.
  unfold Untyped.wrap_loop. induction (Z.to_nat n) as [|k IH]; simpl; [done|].
  by rewrite IH.
Qed.


Lemma embed_dmp_zero (u : nat) :
  embed (K:=K) u (dmp_zero u) = Untyped.dmp_zero (Z.of_nat u).
Proof.
  unfold Untyped.dmp_zero, Untyped.wrap_loop. rewrite Nat2Z.id.
  induction u as [|v IH]; simpl; [done|]. by rewrite IH.
Qed.



End Ground.


Section Stripping.
Context {K : Type} {D : Domain K}.
Implicit Types (f g h : list K) (c : K).

Lemma count_until_le {A} (stop : A → bool) (l : list A) :
  count_until stop l ≤ length l.
Proof. induction l as [|x l IH]; simpl; [lia|]. destruct (stop x); simpl; lia. Qed.

Lemma count_until_drop {A} (stop : A → bool) (l : list A) :
  drop (count_until stop l) l = [] ∧ count_until stop l = length l ∨
  ∃ x t, drop (count_until stop l) l = x :: t ∧ stop x = true.
Proof.
  induction l as [|x l IH]; simpl; [by left|].
  destruct (stop x) eqn:Hx; simpl.
  - right. by exists x, l.
  - destruct IH as [[-> ->]|IH]; [by left|by right].
Qed.

Lemma count_until_take {A} (stop : A → bool) (l : list A) :
  Forall (λ x, stop x = false) (take (count_until stop l) l).
Proof.
  induction l as [|x l IH]; simpl; [constructor|].
  destruct (stop x) eqn:Hx; simpl; [constructor|]. by constructor.
Qed.

(** *** [dup_strip] *)

Lemma dup_strip_drop f : dup_strip f = drop (count_until K_truth f) f.
Proof. destruct f as [|c f]; simpl; [done|]. by destruct (K_truth c). Qed.

Lemma dup_strip_stripped f : dup_stripped (dup_strip f) = true.
Proof.
  rewrite dup_strip_drop.
  destruct (count_until_drop K_truth f) as [[-> _]|(x & t & -> & Hx)]; done.
Qed.

Lemma dup_strip_id f : dup_stripped f = true → dup_strip f = f.
Proof. destruct f as [|c f]; simpl; [done|]. by intros ->. Qed.

Lemma dup_strip_idemp f : dup_strip (dup_strip f) = dup_strip f.
Proof. apply dup_strip_id, dup_strip_stripped. Qed.

Lemma dup_strip_degree f :
  dup_degree (dup_strip f) = (dup_degree f - Z.of_nat (count_until K_truth f))%Z.
Proof.
  rewrite dup_strip_drop. unfold dup_degree, len. rewrite length_drop.
  pose proof (count_until_le K_truth f). lia.
Qed.

(** *** [dmp_zero_p], [dmp_zero] and [dmp_strip] *)

Lemma dmp_zero_p_zero (u : nat) : dmp_zero_p (K:=K) u (dmp_zero u) = true.
Proof. induction u as [|v IH]; simpl; done. Qed.

Lemma dmp_zero_p_eq (u : nat) (f : dmp K u) :
  dmp_zero_p u f = true → f = dmp_zero u.
Proof.
  induction u as [|v IH]; simpl in *.
  - destruct f; [done|]. intros Hf%bool_decide_eq_true. done.
  - destruct f as [|c [|? ?]]; try done. intros Hc. by rewrite (IH c Hc).
Qed.

(** The functions at a level [S v], with the types folded. *)
Lemma dmp_strip_S (v : nat) (f : list (dmp K v)) :
  dmp_strip (S v) f =
    if dmp_zero_p (S v) f then f
    else if bool_decide (count_until (λ x, negb (dmp_zero_p v x)) f = length f)
         then dmp_zero (S v)
         else drop (count_until (λ x, negb (dmp_zero_p v x)) f) f.
Proof. reflexivity. Qed.

Lemma dmp_stripped_S (v : nat) (f : list (dmp K v)) :
  dmp_stripped (S v) f =
    dmp_zero_p (S v) f || match f with
                          | [] => false
                          | x :: _ => negb (dmp_zero_p v x)
                          end.
Proof. reflexivity. Qed.

Lemma dmp_strip_stripped (u : nat) (f : dmp K u) :
  dmp_stripped u (dmp_strip u f) = true.
Proof.
  destruct u as [|v]; [apply dup_strip_stripped|].
  rewrite dmp_strip_S. destruct (dmp_zero_p (S v) f) eqn:Hz.
  { rewrite dmp_stripped_S. by rewrite Hz. }
  case_bool_decide as Hi.
  { rewrite dmp_stripped_S. by rewrite dmp_zero_p_zero. }
  destruct (count_until_drop (λ x, negb (dmp_zero_p v x)) f)
    as [[_ ?]|(x & t & -> & Hx)]; [done|].
  apply negb_true_iff in Hx. rewrite dmp_stripped_S.
  rewrite Hx. apply orb_true_r.
Qed.

Lemma dmp_strip_id (u : nat) (f : dmp K u) :
  dmp_stripped u f = true → dmp_strip u f = f.
Proof.
  destruct u as [|v]; [apply dup_strip_id|].
  rewrite dmp_strip_S, dmp_stripped_S.
  destruct (dmp_zero_p (S v) f) eqn:Hz; [done|].
  destruct f as [|x t]; [done|]. simpl. intros Hc. rewrite Hc. simpl. done.
Qed.

Lemma dmp_strip_idemp (u : nat) (f : dmp K u) :
  dmp_strip u (dmp_strip u f) = dmp_strip u f.
Proof. apply dmp_strip_id, dmp_strip_stripped. Qed.

(** C6, as the code has it: stripping is idempotent on every input at
    every level; [dup_strip] lowers [dup_degree] by the number of leading
    zero coefficients it removes, so that it keeps the degree of every [f]
    without a leading zero coefficient, and [dmp_strip] keeps [dmp_degree]
    of every [f] without a leading zero entry. *)
Theorem strip_idempotent_degree :
  (∀ f, dup_strip (dup_strip f) = dup_strip f) ∧
  (∀ u (f : dmp K u), dmp_strip u (dmp_strip u f) = dmp_strip u f) ∧
  (∀ f, dup_degree (dup_strip f)
        = (dup_degree f - Z.of_nat (count_until K_truth f))%Z) ∧
  (∀ f, dup_stripped f = true → dup_degree (dup_strip f) = dup_degree f) ∧
  (∀ u (f : dmp K u), dmp_stripped u f = true →
        dmp_degree u (dmp_strip u f) = dmp_degree u f).
Proof.
  split; [apply dup_strip_idemp|]. split; [apply dmp_strip_idemp|].
  split; [apply dup_strip_degree|]. split.
  - intros f Hf. by rewrite dup_strip_id.
  - intros u f Hf. by rewrite dmp_strip_id.
Qed.
End Stripping.

(** C6 as stated fails on [f = [0, 1]]: the polynomial is not zero, and
    stripping lowers [dup_degree] from [1] to [0]. *)
Lemma strip_degree_counterexample :
  ¬ (∀ f : list Z, (∃ c, c ∈ f ∧ c ≠ K_zero) →
       dup_degree (dup_strip f) = dup_degree f).
Proof.
  intros H.
  assert (dup_degree (dup_strip [0; 1]%Z) = dup_degree [0; 1]%Z) as Hdeg.
  { apply H. exists 1%Z. split; [|discriminate].
    apply list_elem_of_In. simpl. tauto. }
  vm_compute in Hdeg. discriminate Hdeg.
Qed.

Lemma strip_idempotent_degree_witness :
  dup_stripped [1; 0; 3]%Z = true ∧
  dup_degree (dup_strip [1; 0; 3]%Z) = dup_degree [1; 0; 3]%Z ∧
  dmp_stripped 1 [[1]; []; [0; 2]]%Z = true ∧
  dmp_degree 1 (dmp_strip 1 [[1]; []; [0; 2]]%Z) = dmp_degree 1 [[1]; []; [0; 2]]%Z.
Proof.
  split; [reflexivity|]. split.
  - apply (proj1 (proj2 (proj2 (proj2 (strip_idempotent_degree (K:=Z)))))).
    reflexivity.
  - split; [reflexivity|].
    apply (proj2 (proj2 (proj2 (proj2 (strip_idempotent_degree (K:=Z))))) 1).
    reflexivity.
Defined.

(** C2 fails on [dup_slice([1, 0, 3], 0, 2, ZZ)]: the argument has no leading
    zero coefficient, the result [[0, 3]] has one. *)
Theorem dup_slice_leading_zero :
  dup_stripped [1; 0; 3]%Z = true ∧
  dup_slice [1; 0; 3]%Z 0 2 = [0; 3]%Z ∧
  dup_stripped (dup_slice [1; 0; 3]%Z 0 2) = false ∧
  dup_strip (dup_slice [1; 0; 3]%Z 0 2) = [3%Z].
Proof. repeat split. Qed.

Section Deflation.
Context {K : Type} {D : Domain K}.
Implicit Types (f h : list K) (c : K) (polys : list (list K)).

(** *** Greatest common divisors of lists of exponents *)

Lemma gcd_list_nonneg (l : list Z) : (0 ≤ gcd_list l)%Z.
Proof. destruct l; simpl; [lia|apply Z.gcd_nonneg]. Qed.

Lemma gcd_list_divide (l : list Z) (x : Z) : x ∈ l → (gcd_list l | x)%Z.
Proof.
  induction l as [|y l IH]; [by intros ?%elem_of_nil|].
  intros [->|Hx]%elem_of_cons; simpl.
  - apply Z.gcd_divide_l.
  - etrans; [apply Z.gcd_divide_r|by apply IH].
Qed.

Lemma gcd_list_app (l1 l2 : list Z) :
  gcd_list (l1 ++ l2) = Z.gcd (gcd_list l1) (gcd_list l2).
Proof.
  induction l1 as [|x l1 IH]; simpl.
  - rewrite Z.gcd_0_l, Z.abs_eq; [done|apply gcd_list_nonneg].
  - by rewrite IH, Z.gcd_assoc.
Qed.

Lemma gcd_list_cons_acc (g x : Z) (l : list Z) :
  Z.gcd g (gcd_list (x :: l)) = Z.gcd (Z.gcd g x) (gcd_list l).
Proof. simpl. by rewrite Z.gcd_assoc. Qed.

(** *** Reading a list from its end *)

Lemma py_index_from_end {A} (l : list A) (i : Z) :
  (0 ≤ i < len l)%Z →
  ∃ x, at_exponent l i = Some x ∧ py_index l (- i - 1) = Ok x.
Proof.
  intros Hi. unfold at_exponent, py_index.
  rewrite bool_decide_eq_true_2 by done.
  destruct (Z.ltb_spec (- i - 1) 0); [|lia].
  destruct (Z.ltb_spec (- i - 1 + len l) 0); [lia|].
  replace (- i - 1 + len l)%Z with (len l - 1 - i)%Z by lia.
  destruct (lookup_lt_is_Some_2 l (Z.to_nat (len l - 1 - i))) as [x Hx].
  { unfold len in *. lia. }
  exists x. by rewrite Hx.
Qed.

Lemma carries_true f (e : Z) :
  carries f e = true ↔ ∃ c, at_exponent f e = Some c ∧ K_truth c = true.
Proof.
  unfold carries. destruct (at_exponent f e) as [c|].
  - split; [eauto|]. by intros (? & [= <-] & ?).
  - split; [done|]. by intros (? & ? & ?).
Qed.

(** *** The loop computing the stride *)

Lemma gcd_loop_spec f (range : list Z) (g : Z) :
  (0 ≤ g)%Z →
  Forall (λ i, 0 ≤ i < len f)%Z range →
  ∃ r, gcd_loop f range g = Ok r ∧
       match r with
       | None => Z.gcd g (gcd_list (filter (λ e, carries f e = true) range)) = 1%Z
       | Some g' =>
           g' = Z.gcd g (gcd_list (filter (λ e, carries f e = true) range))
           ∧ (g ≠ 1%Z → g' ≠ 1%Z)
       end.
Proof.
  intros Hg Hrange. revert g Hg.
  induction Hrange as [|i range Hi _ IH]; intros g Hg.
  { exists (Some g). split; [done|]. simpl.
    rewrite Z.gcd_0_r, Z.abs_eq by done. done. }
  destruct (py_index_from_end f i Hi) as (c & Hat & Hidx).
  assert (carries f i = K_truth c) as Hcar.
  { unfold carries. by rewrite Hat. }
  cbn [gcd_loop]. rewrite Hidx. cbn [mbind result_bind]. unfold igcd.
  destruct (K_truth c) eqn:Hc; cbn [negb].
  - rewrite filter_cons_True by done.
    rewrite gcd_list_cons_acc.
    destruct (Z.eqb_spec (Z.gcd g i) 1) as [H1|H1].
    + exists None. split; [done|]. rewrite H1. apply Z.gcd_1_l.
    + destruct (IH (Z.gcd g i)) as (r & Hr & Hspec); [apply Z.gcd_nonneg|].
      exists r. split; [done|]. destruct r as [g'|]; [|done].
      destruct Hspec as [-> Hne]. split; [done|]. intros _. by apply Hne.
  - rewrite filter_cons_False by (rewrite Hcar; done).
    apply IH, Hg.
Qed.

Lemma xrange_in_range (n : Z) : Forall (λ i, 0 ≤ i < n)%Z (xrange 0 n).
Proof. unfold xrange. apply Forall_seqZ. intros. lia. Qed.

(** The loop of [dup_deflate] never raises; it leaves through [g == 1]
    only if the exponent gcd is one, and otherwise ends with the exponent
    gcd, which is then not one. *)
Lemma gcd_loop_support f :
  ∃ r, gcd_loop f (xrange 0 (len f)) 0 = Ok r ∧
       match r with
       | None => exponent_gcd f = 1%Z
       | Some g => g = exponent_gcd f ∧ g ≠ 1%Z
       end.
Proof.
  destruct (gcd_loop_spec f (xrange 0 (len f)) 0) as (r & Hr & Hspec);
    [done|apply xrange_in_range|].
  exists r. split; [done|]. unfold exponent_gcd, support.
  rewrite Z.gcd_0_l, Z.abs_eq in Hspec by apply gcd_list_nonneg.
  destruct r as [g|]; [|done]. destruct Hspec as [-> Hne]. split; [done|].
  by apply Hne.
Qed.

(** *** Strides *)

Lemma every_nth_fuel {A} (q : nat) (l : list A) (fuel1 fuel2 : nat) :
  1 ≤ q → length l ≤ fuel1 → length l ≤ fuel2 →
  every_nth q l fuel1 = every_nth q l fuel2.
Proof.
  intros Hq. revert l fuel2. induction fuel1 as [|fuel1 IH]; intros l fuel2 H1 H2.
  { destruct l; simpl in *; [|lia]. by destruct fuel2. }
  destruct l as [|x l]; [by destruct fuel2|].
  destruct fuel2 as [|fuel2]; simpl in *; [lia|].
  f_equal. destruct q as [|q]; [lia|]. simpl.
  apply IH; rewrite length_drop; lia.
Qed.

Lemma foldl_inflate (m : nat) (acc rest : list K) :
  foldl (λ result coeff, result ++ replicate (m - 1) K_zero ++ [coeff]) acc rest
  = acc ++ spread m rest.
Proof.
  revert acc. induction rest as [|c rest IH]; intros acc; simpl.
  - by rewrite app_nil_r.
  - rewrite IH. unfold spread. simpl. by rewrite <- !app_assoc.
Qed.

Lemma spread_cons (m : nat) c (l : list K) :
  spread m (c :: l) = replicate (m - 1) K_zero ++ c :: spread m l.
Proof. unfold spread. simpl. by rewrite <- app_assoc. Qed.

(** A list whose coefficients away from the multiples of [q] are zero is
    recovered from its stride-[q] selection. *)
Lemma every_nth_spread (q t : nat) f :
  1 ≤ q →
  length f = q * t + 1 →
  (∀ j c, f !! j = Some c → j `mod` q ≠ 0 → c = K_zero) →
  ∃ c0 rest, every_nth q f (length f) = c0 :: rest ∧ f = c0 :: spread q rest.
Proof.
  intros Hq. revert f. induction t as [|t IH]; intros f Hlen Hzero.
  { destruct f as [|c0 [|? ?]]; simpl in Hlen; try lia.
    exists c0, []. simpl. split; [|done].
    by destruct q. }
  destruct f as [|c0 f']; [simpl in Hlen; lia|].
  destruct (IH (drop q (c0 :: f'))) as (c1 & rest & Hev & Hf1).
  { rewrite length_drop. simpl in *. lia. }
  { intros j c Hj Hmod. rewrite lookup_drop in Hj. apply (Hzero _ _ Hj).
    replace (q + j) with (j + 1 * q) by lia.
    by rewrite Nat.Div0.mod_add. }
  exists c0, (c1 :: rest). split.
  - cbn [every_nth length]. f_equal.
    rewrite <- Hev. apply every_nth_fuel; [done| |done].
    rewrite length_drop. simpl. lia.
  - rewrite spread_cons, <- Hf1.
    rewrite <- (take_drop q (c0 :: f')) at 1.
    destruct q as [|q]; [lia|]. cbn [take].
    rewrite <- app_comm_cons. f_equal. f_equal.
    replace (S q - 1) with q by lia.
    apply list_eq. intros j.
    destruct (decide (j < q)) as [Hjq|Hjq].
    + rewrite lookup_replicate_2 by done.
      rewrite lookup_take_lt by done.
      destruct (lookup_lt_is_Some_2 f' j) as [c Hc]; [simpl in Hlen; lia|].
      rewrite Hc. f_equal. apply (Hzero (S j)); [done|].
      rewrite Nat.mod_small by lia. lia.
    + rewrite (proj1 (lookup_replicate_None _ _ _)) by lia.
      apply lookup_ge_None. rewrite length_take. lia.
Qed.

Lemma spread_1 (l : list K) : spread 1 l = l.
Proof. induction l as [|c l IH]; [done|]. rewrite spread_cons, IH. done. Qed.

Lemma gcd_list_greatest (l : list Z) (d : Z) :
  (∀ x, x ∈ l → (d | x)%Z) → (d | gcd_list l)%Z.
Proof.
  induction l as [|y l IH]; intros Hd; simpl.
  - apply Z.divide_0_r.
  - apply Z.gcd_greatest; [apply Hd; left|].
    apply IH. intros x Hx. apply Hd. by right.
Qed.

Lemma elem_of_support f (e : Z) :
  e ∈ support f ↔ ∃ c, at_exponent f e = Some c ∧ K_truth c = true.
Proof.
  unfold support. rewrite list_elem_of_filter, carries_true.
  split; [by intros [? _]|]. intros (c & Hat & Hc). split; [eauto|].
  unfold xrange. apply elem_of_seqZ. unfold at_exponent in Hat.
  case_bool_decide; [lia|done].
Qed.

Lemma at_exponent_lookup {A} (l : list A) (j : nat) (x : A) :
  l !! j = Some x → at_exponent l (len l - 1 - Z.of_nat j) = Some x.
Proof.
  intros Hj. pose proof (lookup_lt_Some _ _ _ Hj) as Hlt.
  unfold at_exponent, len. rewrite bool_decide_eq_true_2 by lia.
  rewrite <- Hj. f_equal. lia.
Qed.

(** A stride that divides every exponent of the support of a stripped
    polynomial is undone by [dup_inflate]. *)
Lemma stride_inflate f (G : Z) :
  (1 ≤ G)%Z → f ≠ [] → dup_stripped f = true → (G | exponent_gcd f)%Z →
  ∃ h, py_stride f G = Ok h ∧ dup_inflate h G = Ok f.
Proof.
  intros HG Hne Hstr Hdiv.
  assert (∀ e, e ∈ support f → (G | e)%Z) as Hsupp.
  { intros e He. etrans; [apply Hdiv|]. by apply gcd_list_divide. }
  destruct f as [|c0' f'] eqn:Hf; [done|]. rewrite <- Hf in *.
  assert ((G | len f - 1)%Z) as [t Ht].
  { apply Hsupp, elem_of_support. exists c0'. split.
    - replace (len f - 1)%Z with (len f - 1 - Z.of_nat 0)%Z by lia.
      apply at_exponent_lookup. by rewrite Hf.
    - rewrite Hf in Hstr. done. }
  assert (0 ≤ t)%Z as Ht0.
  { pose proof (len_nonneg f'). rewrite Hf in Ht. unfold len in *.
    simpl in Ht. nia. }
  destruct (every_nth_spread (Z.to_nat G) (Z.to_nat t) f)
    as (c0 & rest & Hev & Hspread).
  { lia. }
  { unfold len in Ht. nia. }
  { intros j c Hj Hmod. apply truth_false.
    destruct (K_truth c) eqn:Hc; [|done]. exfalso. apply Hmod.
    assert ((G | len f - 1 - Z.of_nat j)%Z) as [s Hs].
    { apply Hsupp, elem_of_support. exists c. split; [|done].
      by apply at_exponent_lookup. }
    assert (Z.of_nat j = (t - s) * G)%Z as Hj' by lia.
    pose proof (lookup_lt_Some _ _ _ Hj) as Hlt.
    assert (0 ≤ t - s)%Z by nia.
    replace j with (Z.to_nat (t - s) * Z.to_nat G) by nia.
    apply Nat.Div0.mod_mul. }
  exists (c0 :: rest). split.
  - unfold py_stride. destruct (Z.eqb_spec G 0); [lia|].
    destruct (Z.ltb_spec 0 G); [|lia]. by rewrite Hev.
  - unfold dup_inflate. destruct (Z.leb_spec G 0); [lia|].
    destruct (Z.eqb_spec G 1) as [->|HG1].
    + rewrite Hspread. by rewrite spread_1.
    + f_equal. unfold py_repeat.
      replace (Z.to_nat (G - 1)) with (Z.to_nat G - 1) by lia.
      rewrite foldl_inflate. by rewrite Hspread.
Qed.

Lemma exponent_gcd_pos f :
  dup_stripped f = true → (0 < dup_degree f)%Z → (1 ≤ exponent_gcd f)%Z.
Proof.
  intros Hstr Hdeg. unfold dup_degree in Hdeg.
  destruct f as [|c0 f'] eqn:Hf; [unfold len in Hdeg; simpl in Hdeg; lia|].
  rewrite <- Hf in *.
  assert ((exponent_gcd f | len f - 1)%Z) as [t Ht].
  { apply gcd_list_divide, elem_of_support. exists c0. split.
    - replace (len f - 1)%Z with (len f - 1 - Z.of_nat 0)%Z by lia.
      apply at_exponent_lookup. by rewrite Hf.
    - rewrite Hf in Hstr. done. }
  pose proof (gcd_list_nonneg (support f)) as Hnn. unfold exponent_gcd in *.
  destruct (decide (gcd_list (support f) = 0%Z)) as [E|E]; [|lia].
  rewrite E in Ht. lia.
Qed.

(** C4: for every polynomial [f] of degree greater than zero (a list
    without a leading zero coefficient), [dup_deflate(f, K) = (g, h)] with
    [dup_inflate(h, g, K) == f], where [g] is the gcd of the exponents that
    carry a coefficient; and [dup_deflate] returns [(1, f)] whenever the
    degree of [f] is at most zero or that gcd is one. *)
Theorem deflate_inflate f :
  (dup_stripped f = true → (0 < dup_degree f)%Z →
     ∃ g h, dup_deflate f = Ok (g, h) ∧ g = exponent_gcd f ∧
            dup_inflate h g = Ok f) ∧
  ((dup_degree f ≤ 0)%Z → dup_deflate f = Ok (1%Z, f)) ∧
  ((0 < dup_degree f)%Z → exponent_gcd f = 1%Z → dup_deflate f = Ok (1%Z, f)).
Proof.
  unfold dup_deflate.
  destruct (gcd_loop_support f) as (r & Hr & Hspec). rewrite Hr.
  cbn [mbind result_bind].
  destruct (Z.leb_spec (dup_degree f) 0) as [Hdeg|Hdeg].
  { split; [lia|]. split; [done|lia]. }
  split; [|split; [lia|]].
  - intros Hstr _. destruct r as [g|].
    + destruct Hspec as [-> Hne1].
      destruct (stride_inflate f (exponent_gcd f)) as (h & Hh & Hinf);
        [by apply exponent_gcd_pos| |done|done|].
      { intros ->. unfold dup_degree, len in Hdeg. simpl in Hdeg. lia. }
      exists (exponent_gcd f), h. rewrite Hh. done.
    + exists 1%Z, f. rewrite Hspec. split; [done|]. split; [done|].
      unfold dup_inflate. simpl. done.
  - intros _ Hone. destruct r as [g|]; [|done].
    destruct Hspec as [-> Hne1]. done.
Qed.
(** *** Several polynomials at once *)

Lemma joint_exponent_gcd_cons (p : list K) polys :
  joint_exponent_gcd (p :: polys)
  = Z.gcd (exponent_gcd p) (joint_exponent_gcd polys).
Proof. unfold joint_exponent_gcd. cbn [mbind list_bind]. apply gcd_list_app. Qed.

Lemma joint_exponent_gcd_divide (p : list K) polys :
  p ∈ polys → (joint_exponent_gcd polys | exponent_gcd p)%Z.
Proof.
  intros Hp. apply gcd_list_greatest. intros x Hx.
  apply gcd_list_divide. apply list_elem_of_bind. eauto.
Qed.

Lemma multi_loop_spec polys (G0 : Z) :
  (0 ≤ G0)%Z →
  ∃ r, multi_loop polys G0 = Ok r ∧
       match r with
       | None => (∃ p, p ∈ polys ∧ (dup_degree p ≤ 0)%Z)
                 ∨ Z.gcd G0 (joint_exponent_gcd polys) = 1%Z
       | Some G => G = Z.gcd G0 (joint_exponent_gcd polys)
                   ∧ Forall (λ p, 0 < dup_degree p)%Z polys
       end.
Proof.
  revert G0. induction polys as [|p polys IH]; intros G0 HG0.
  { exists (Some G0). split; [done|]. split; [|done].
    unfold joint_exponent_gcd. simpl. rewrite Z.gcd_0_r, Z.abs_eq; done. }
  cbn [multi_loop]. destruct (Z.leb_spec (dup_degree p) 0) as [Hdeg|Hdeg].
  { exists None. split; [done|]. left. exists p. split; [left|done]. }
  destruct (gcd_loop_support p) as (r & Hr & Hspec). rewrite Hr.
  cbn [mbind result_bind]. unfold igcd. rewrite joint_exponent_gcd_cons.
  destruct r as [g|].
  - destruct Hspec as [-> _].
    destruct (IH (Z.gcd G0 (exponent_gcd p))) as (r & Hr' & Hspec');
      [apply Z.gcd_nonneg|].
    exists r. split; [done|]. rewrite Z.gcd_assoc. destruct r as [G|].
    + destruct Hspec' as [-> Hall]. split; [done|]. by constructor.
    + destruct Hspec' as [(q & Hq & Hdq)|Hone]; [|by right].
      left. exists q. split; [by right|done].
  - exists None. split; [done|]. right.
    rewrite Hspec, Z.gcd_1_l. apply Z.gcd_1_r.
Qed.

Lemma mapM_result_Forall2 {A B} (F : A → result B) (R : A → B → Prop)
    (l : list A) :
  Forall (λ x, ∃ y, F x = Ok y ∧ R x y) l →
  ∃ k, mapM F l = Ok k ∧ Forall2 R l k.
Proof.
  induction 1 as [|x l (y & Hy & HR) _ (k & Hk & IH)].
  - exists []. split; [done|constructor].
  - exists (y :: k). split; [|by constructor].
    cbn [mapM]. rewrite Hy. cbn [mbind result_bind]. rewrite Hk. done.
Qed.

(** C5, as the code has it: [dup_multi_deflate] returns [(1, polys)] as
    soon as one polynomial of the collection has degree at most zero;
    for a non-empty collection of polynomials of degree greater than zero
    it returns [(G, H)] where [G >= 1] is the gcd of the exponents that
    carry a coefficient in any of the polynomials, and [H] holds
    [p[::G]] for every [p], which [dup_inflate(_, G, K)] turns back into
    [p]. *)
Theorem dup_multi_deflate_spec polys :
  ((∃ p, p ∈ polys ∧ (dup_degree p ≤ 0)%Z) →
     dup_multi_deflate polys = Ok (1%Z, polys)) ∧
  (polys ≠ [] →
   Forall (λ p, dup_stripped p = true ∧ (0 < dup_degree p)%Z) polys →
     ∃ H, dup_multi_deflate polys = Ok (joint_exponent_gcd polys, H) ∧
          (1 ≤ joint_exponent_gcd polys)%Z ∧
          mapM (λ p, py_stride p (joint_exponent_gcd polys)) polys = Ok H ∧
          Forall2 (λ p h, dup_inflate h (joint_exponent_gcd polys) = Ok p)
                  polys H).
Proof.
  unfold dup_multi_deflate.
  destruct (multi_loop_spec polys 0) as (r & Hr & Hspec); [done|].
  rewrite Hr. cbn [mbind result_bind].
  rewrite Z.gcd_0_l, Z.abs_eq in Hspec by apply gcd_list_nonneg.
  split.
  - intros (p & Hp & Hdeg). destruct r as [G|]; [|done].
    destruct Hspec as [_ Hall]. rewrite Forall_forall in Hall.
    specialize (Hall p Hp). lia.
  - intros Hne Hall.
    assert (1 ≤ joint_exponent_gcd polys)%Z as Hpos.
    { destruct polys as [|p polys]; [done|].
      apply Forall_cons in Hall as [[Hstr Hdeg] _].
      pose proof (exponent_gcd_pos p Hstr Hdeg) as Hp.
      destruct (joint_exponent_gcd_divide p (p :: polys)) as [t Ht]; [left|].
      pose proof (gcd_list_nonneg ((p :: polys) ≫= support)) as Hnn.
      unfold joint_exponent_gcd in *.
      destruct (decide (gcd_list ((p :: polys) ≫= support) = 0%Z)) as [E|E];
        [|lia].
      rewrite E in Ht. lia. }
    destruct (mapM_result_Forall2
                (λ p, py_stride p (joint_exponent_gcd polys))
                (λ p h, dup_inflate h (joint_exponent_gcd polys) = Ok p)
                polys) as (H & HH & Hinf).
    { rewrite Forall_forall in Hall |- *. intros p Hp.
      destruct (Hall p Hp) as [Hstr Hdeg].
      apply stride_inflate; [done| |done|by apply joint_exponent_gcd_divide].
      intros ->. unfold dup_degree, len in Hdeg. simpl in Hdeg. lia. }
    exists H. split; [|done].
    destruct r as [G|].
    + destruct Hspec as [-> _]. by rewrite HH.
    + destruct Hspec as [(p & Hp & Hdeg)|Hone].
      { rewrite Forall_forall in Hall. destruct (Hall p Hp). lia. }
      rewrite Hone in *. do 2 f_equal.
      clear -Hinf. induction Hinf as [|p h polys H Hph _ IH]; [done|].
      f_equal; [|done]. unfold dup_inflate in Hph. simpl in Hph. congruence.
Qed.
End Deflation.


(** C4 over the integers, on [x^6 + x^3 + 1]. *)
Lemma deflate_inflate_witness :
  (dup_stripped [1; 0; 0; 1; 0; 0; 1]%Z = true ∧
   (0 < dup_degree [1; 0; 0; 1; 0; 0; 1]%Z)%Z ∧
   ∃ g h, dup_deflate [1; 0; 0; 1; 0; 0; 1]%Z = Ok (g, h) ∧
          g = exponent_gcd [1; 0; 0; 1; 0; 0; 1]%Z ∧
          dup_inflate h g = Ok [1; 0; 0; 1; 0; 0; 1]%Z) ∧
  ((dup_degree [5%Z] ≤ 0)%Z ∧ dup_deflate [5%Z] = Ok (1%Z, [5%Z])) ∧
  ((0 < dup_degree [1; 2; 0]%Z)%Z ∧ exponent_gcd [1; 2; 0]%Z = 1%Z ∧
   dup_deflate [1; 2; 0]%Z = Ok (1%Z, [1; 2; 0]%Z)).
Proof.
  split; [|split].
  - split; [reflexivity|]. split; [reflexivity|].
    apply (proj1 (deflate_inflate [1; 0; 0; 1; 0; 0; 1]%Z)); reflexivity.
  - split; [discriminate|].
    apply (proj1 (proj2 (deflate_inflate [5%Z]))). discriminate.
  - split; [reflexivity|]. split; [reflexivity|].
    apply (proj2 (proj2 (deflate_inflate [1; 2; 0]%Z))); reflexivity.
Defined.

(** C5 as stated fails on the collection [x^2 + 1], [5]: the exponents that
    carry a coefficient are [0] and [2], with gcd [2], and the code returns
    the stride [1]. *)
Lemma dup_multi_deflate_counterexample :
  ¬ (∀ polys : list (list Z),
       polys ≠ [] → Forall (λ p, dup_stripped p = true) polys →
       ∃ G H, dup_multi_deflate polys = Ok (G, H) ∧
              G = (if (joint_exponent_gcd polys =? 0)%Z then 1%Z
                   else joint_exponent_gcd polys)).
Proof.
  intros Hclaim.
  destruct (Hclaim [[1; 0; 1]; [5]]%Z) as (G & H & Hrun & HG);
    [discriminate|repeat constructor|].
  vm_compute in Hrun, HG. congruence.
Qed.

(** C5 over the integers, on the collections [x^2 + 1], [5] and
    [x^4 + 2 x^2 + 3], [4 x^2]. *)
Lemma dup_multi_deflate_spec_witness :
  ((∃ p, p ∈ [[1; 0; 1]; [5]]%Z ∧ (dup_degree p ≤ 0)%Z) ∧
   dup_multi_deflate [[1; 0; 1]; [5]]%Z = Ok (1%Z, [[1; 0; 1]; [5]]%Z)) ∧
  ([[1; 0; 2; 0; 3]; [4; 0; 0]]%Z ≠ [] ∧
   Forall (λ p, dup_stripped p = true ∧ (0 < dup_degree p)%Z)
          [[1; 0; 2; 0; 3]; [4; 0; 0]]%Z ∧
   ∃ H, dup_multi_deflate [[1; 0; 2; 0; 3]; [4; 0; 0]]%Z
        = Ok (joint_exponent_gcd [[1; 0; 2; 0; 3]; [4; 0; 0]]%Z, H) ∧
        (1 ≤ joint_exponent_gcd [[1; 0; 2; 0; 3]; [4; 0; 0]]%Z)%Z ∧
        mapM (λ p, py_stride p (joint_exponent_gcd [[1; 0; 2; 0; 3]; [4; 0; 0]]%Z))
             [[1; 0; 2; 0; 3]; [4; 0; 0]]%Z = Ok H ∧
        Forall2 (λ p h, dup_inflate h
                   (joint_exponent_gcd [[1; 0; 2; 0; 3]; [4; 0; 0]]%Z) = Ok p)
                [[1; 0; 2; 0; 3]; [4; 0; 0]]%Z H).
Proof.
  assert (∃ p, p ∈ [[1; 0; 1]; [5]]%Z ∧ (dup_degree p ≤ 0)%Z) as Hex.
  { exists [5%Z]. split; [right; left|discriminate]. }
  assert (Forall (λ p, dup_stripped p = true ∧ (0 < dup_degree p)%Z)
                 [[1; 0; 2; 0; 3]; [4; 0; 0]]%Z) as Hall.
  { repeat constructor. }
  split; [split; [exact Hex|]|split; [discriminate|split; [exact Hall|]]].
  - exact (proj1 (dup_multi_deflate_spec [[1; 0; 1]; [5]]%Z) Hex).
  - apply (proj2 (dup_multi_deflate_spec [[1; 0; 2; 0; 3]; [4; 0; 0]]%Z));
      [discriminate|exact Hall].
Defined.

Section Terms.
Context {K : Type} {D : Domain K}.
Implicit Types (c : K) (monom es : list Z).

Lemma foldl_app_bind {A B} (step : list B → A → list B) (F : A → list B)
    (acc : list B) (l : list A) :
  (∀ acc x, step acc x = acc ++ F x) →
  foldl step acc l = acc ++ (l ≫= F).
Proof.
  intros Hstep. revert acc. induction l as [|x l IH]; intros acc; simpl.
  - by rewrite app_nil_r.
  - rewrite IH, Hstep. by rewrite <- app_assoc.
Qed.

Lemma _rec_list_terms_0 (g : list K) monom :
  _rec_list_terms 0 g monom =
    enumerate g ≫= (λ '(i, c),
      if K_truth c then [(monom ++ [(dmp_degree 0 g - i)%Z], c)] else []).
Proof.
  cbn [_rec_list_terms].
  rewrite (foldl_app_bind _ (λ '(i, c),
    if K_truth c then [(monom ++ [(dmp_degree 0 g - i)%Z], c)] else [])); [done|].
  intros acc [i c]. destruct (K_truth c); simpl; [done|by rewrite app_nil_r].
Qed.

Lemma _rec_list_terms_S (w : nat) (g : list (dmp K w)) monom :
  _rec_list_terms (S w) g monom =
    enumerate g ≫= (λ '(i, x),
      _rec_list_terms w x (monom ++ [(dmp_degree (S w) g - i)%Z])).
Proof.
  cbn [_rec_list_terms].
  rewrite (foldl_app_bind _ (λ '(i, x),
    _rec_list_terms w x (monom ++ [(dmp_degree (S w) g - i)%Z]))); [done|].
  by intros acc [i x].
Qed.

Lemma elem_of_enumerate {A} (l : list A) (i : Z) (x : A) :
  (i, x) ∈ enumerate l ↔ (0 ≤ i)%Z ∧ l !! Z.to_nat i = Some x.
Proof.
  unfold enumerate. split.
  - intros (j & y & [= -> ->] & Hj)%elem_of_lookup_imap_1.
    rewrite Nat2Z.id. split; [lia|done].
  - intros [Hi Hx]. replace i with (Z.of_nat (Z.to_nat i)) by lia.
    by apply (elem_of_lookup_imap_2 (λ i x, (Z.of_nat i, x))).
Qed.

Lemma NoDup_enumerate {A} (l : list A) : NoDup (enumerate l).
Proof.
  apply NoDup_alt. intros i j [k x] Hi Hj. unfold enumerate in *.
  apply list_lookup_imap_Some in Hi as (y & _ & [= Hk _]).
  apply list_lookup_imap_Some in Hj as (z & _ & [= Hk' _]). lia.
Qed.

(** *** The stored coefficients *)

Lemma at_exponent_Some {A} (l : list A) (e : Z) (x : A) :
  at_exponent l e = Some x ↔
  ∃ i : nat, l !! i = Some x ∧ e = (len l - 1 - Z.of_nat i)%Z.
Proof.
  split.
  - unfold at_exponent. case_bool_decide as He; [|done]. intros Hx.
    exists (Z.to_nat (len l - 1 - e)). split; [done|lia].
  - intros (i & Hi & ->). by apply at_exponent_lookup.
Qed.

Lemma dmp_coeff_0 (f : list K) monom :
  dmp_coeff 0 f monom = match monom with
                        | [e] => at_exponent f e
                        | _ => None
                        end.
Proof. reflexivity. Qed.

Lemma dmp_coeff_S (v : nat) (f : list (dmp K v)) monom :
  dmp_coeff (S v) f monom =
    match monom with
    | e :: monom' => x ← at_exponent f e; dmp_coeff v x monom'
    | [] => None
    end.
Proof. reflexivity. Qed.

Lemma dmp_zero_S (v : nat) : dmp_zero (K:=K) (S v) = [dmp_zero v].
Proof. reflexivity. Qed.

Lemma dmp_coeff_zero (u : nat) monom : dmp_coeff (K:=K) u (dmp_zero u) monom = None.
Proof.
  revert monom. induction u as [|v IH]; intros monom.
  - rewrite dmp_coeff_0. destruct monom as [|e [|? ?]]; try done.
    unfold at_exponent. case_bool_decide; [|done]. apply lookup_nil.
  - rewrite dmp_coeff_S, dmp_zero_S. destruct monom as [|e monom]; [done|].
    destruct (at_exponent [dmp_zero v] e) as [x|] eqn:He; [|done].
    apply at_exponent_Some in He as (i & Hi & _).
    apply list_lookup_singleton_Some in Hi as [_ <-]. simpl. apply IH.
Qed.

Lemma dmp_degree_S (v : nat) (f : list (dmp K v)) :
  dmp_degree (S v) f = if dmp_zero_p (S v) f then (-1)%Z else (len f - 1)%Z.
Proof. reflexivity. Qed.

Lemma dmp_degree_0 (f : list K) :
  dmp_degree 0 f = if bool_decide (length f = 0) then (-1)%Z else (len f - 1)%Z.
Proof. reflexivity. Qed.

(** *** [_rec_list_terms] lists the terms, each of them once *)

Lemma elem_of_rec_list_terms (u : nat) (f : dmp K u) monom (m : list Z) c :
  (m, c) ∈ _rec_list_terms u f monom ↔
  ∃ es, m = monom ++ es ∧ dmp_term u f es c.
Proof.
  revert f monom. induction u as [|v IH]; intros f monom; cbn in f.
  - rewrite _rec_list_terms_0, list_elem_of_bind. unfold dmp_term. split.
    + intros ([i x] & Hin & [Hi Hx]%elem_of_enumerate).
      destruct (K_truth x) eqn:Htruth; [|by apply elem_of_nil in Hin].
      apply list_elem_of_singleton in Hin as [= -> ->].
      eexists [_]. split; [done|]. split; [|done].
      rewrite dmp_coeff_0, dmp_degree_0.
      pose proof (lookup_lt_Some _ _ _ Hx) as Hlt.
      rewrite bool_decide_eq_false_2 by lia.
      rewrite <- (Z2Nat.id i) at 1 by done. by apply at_exponent_lookup.
    + intros (es & -> & Hco & Htruth). rewrite dmp_coeff_0 in Hco.
      destruct es as [|e [|? ?]]; try done.
      apply at_exponent_Some in Hco as (i & Hi & ->).
      exists (Z.of_nat i, c). split.
      * rewrite Htruth, dmp_degree_0.
        pose proof (lookup_lt_Some _ _ _ Hi) as Hlt.
        rewrite bool_decide_eq_false_2 by lia. apply list_elem_of_singleton.
        do 3 f_equal.
      * apply elem_of_enumerate. rewrite Nat2Z.id. split; [lia|done].
  - rewrite _rec_list_terms_S, list_elem_of_bind. unfold dmp_term. split.
    + intros ([i x] & Hin & [Hi Hx]%elem_of_enumerate).
      apply IH in Hin as (es & -> & Hco & Htruth).
      exists ((dmp_degree (S v) f - i)%Z :: es).
      split; [by rewrite <- app_assoc|]. split; [|done].
      rewrite dmp_coeff_S, dmp_degree_S.
      destruct (dmp_zero_p (S v) f) eqn:Hz.
      { apply dmp_zero_p_eq in Hz. rewrite Hz, dmp_zero_S in Hx.
        apply list_lookup_singleton_Some in Hx as [_ <-].
        by rewrite dmp_coeff_zero in Hco. }
      rewrite <- (Z2Nat.id i) at 1 by done.
      rewrite (at_exponent_lookup _ _ _ Hx). done.
    + intros (es & -> & Hco & Htruth). rewrite dmp_coeff_S in Hco.
      destruct es as [|e es]; [done|].
      destruct (at_exponent f e) as [x|] eqn:He; cbn in Hco; [|done].
      apply at_exponent_Some in He as (i & Hi & ->).
      exists (Z.of_nat i, x). split.
      * apply IH. exists es. rewrite <- app_assoc. split; [|by split].
        rewrite dmp_degree_S. destruct (dmp_zero_p (S v) f) eqn:Hz; [|done].
        apply dmp_zero_p_eq in Hz. rewrite Hz, dmp_zero_S in Hi.
        apply list_lookup_singleton_Some in Hi as [_ <-].
        by rewrite dmp_coeff_zero in Hco.
      * apply elem_of_enumerate. rewrite Nat2Z.id. split; [lia|done].
Qed.

Lemma rec_list_terms_prefix (u : nat) (f : dmp K u) monom (t : list Z * K) :
  t ∈ _rec_list_terms u f monom → ∃ es, t.1 = monom ++ es.
Proof.
  destruct t as [m c]. intros (es & -> & _)%elem_of_rec_list_terms. eauto.
Qed.

Lemma NoDup_rec_list_terms (u : nat) (f : dmp K u) monom :
  NoDup (_rec_list_terms u f monom).
Proof.
  revert f monom. induction u as [|v IH]; intros f monom.
  - rewrite _rec_list_terms_0. apply NoDup_bind; [| |apply NoDup_enumerate].
    + intros [i x] [j y] t _ _ Hi Hj.
      destruct (K_truth x); [|by apply elem_of_nil in Hi].
      destruct (K_truth y); [|by apply elem_of_nil in Hj].
      apply list_elem_of_singleton in Hi as ->.
      apply list_elem_of_singleton in Hj as [= Hm ->].
      apply app_inv_head in Hm. f_equal. injection Hm. lia.
    + intros [i x] _. destruct (K_truth x); [apply NoDup_singleton|constructor].
  - rewrite _rec_list_terms_S. apply NoDup_bind; [| |apply NoDup_enumerate].
    + intros [i x] [j y] t [_ Hx]%elem_of_enumerate [_ Hy]%elem_of_enumerate Hi Hj.
      apply rec_list_terms_prefix in Hi as (es1 & H1).
      apply rec_list_terms_prefix in Hj as (es2 & H2).
      rewrite H1, <- !app_assoc in H2. apply app_inv_head in H2.
      injection H2 as Hij _. assert (i = j) as -> by lia.
      rewrite Hx in Hy. by injection Hy as ->.
    + intros [i x] _. apply IH.
Qed.

(** C9: on the zero polynomial of level [u], [dmp_list_terms] returns the
    single term with [u+1] zero exponents and the zero coefficient; its
    result is never empty; and for an [f] with a coefficient that is not
    zero, it lists exactly the terms of [f], each once.  With an [order],
    the sorting of [groebnertools] is taken to permute its argument. *)
Theorem dmp_list_terms_spec (u : nat) (f : dmp K u)
    (order : option (list (list Z * K) → list (list Z * K))) :
  (∀ sdp_sort, order = Some sdp_sort → ∀ l, sdp_sort l ≡ₚ l) →
  dmp_list_terms u (dmp_zero u) order = [(replicate (S u) 0%Z, K_zero)] ∧
  dmp_list_terms u f order ≠ [] ∧
  ((∃ monom c, dmp_term u f monom c) →
     NoDup (dmp_list_terms u f order) ∧
     ∀ monom c, (monom, c) ∈ dmp_list_terms u f order ↔ dmp_term u f monom c).
Proof.
  intros Hsort. split; [|split].
  - unfold dmp_list_terms.
    destruct (_rec_list_terms u (dmp_zero u) []) as [|[m c] l] eqn:Ht; [done|].
    assert ((m, c) ∈ _rec_list_terms u (dmp_zero u) []) as Hin.
    { rewrite Ht. left. }
    apply elem_of_rec_list_terms in Hin as (es & _ & Hco & _).
    by rewrite dmp_coeff_zero in Hco.
  - unfold dmp_list_terms.
    destruct (_rec_list_terms u f []) as [|t l] eqn:Ht; [done|].
    destruct order as [sdp_sort|]; [|done].
    intros Hnil. specialize (Hsort sdp_sort eq_refl (t :: l)).
    rewrite Hnil in Hsort. by apply Permutation_nil_cons in Hsort.
  - intros (monom0 & c0 & Hterm0).
    assert (dmp_list_terms u f order ≡ₚ _rec_list_terms u f []) as Hperm.
    { unfold dmp_list_terms.
      destruct (_rec_list_terms u f []) as [|t l] eqn:Ht.
      - assert ((monom0, c0) ∈ _rec_list_terms u f []) as Hin.
        { apply elem_of_rec_list_terms. by exists monom0. }
        rewrite Ht in Hin. by apply elem_of_nil in Hin.
      - destruct order as [sdp_sort|]; [|done]. by apply Hsort. }
    split.
    + rewrite Hperm. apply NoDup_rec_list_terms.
    + intros monom c. rewrite Hperm, elem_of_rec_list_terms.
      split; [by intros (es & -> & ?)|]. intros Hterm. by exists monom.
Qed.
End Terms.

(** C9 over the integers, on [x*y + x + 2*y + 3] at level [1]. *)
Lemma dmp_list_terms_spec_witness :
  (∀ sdp_sort, None = Some sdp_sort → ∀ l : list (list Z * Z), sdp_sort l ≡ₚ l) ∧
  dmp_list_terms 1 (dmp_zero 1) None = [(replicate 2 0%Z, 0%Z)] ∧
  dmp_list_terms 1 [[1; 1]; [2; 3]]%Z None ≠ [] ∧
  (∃ monom c, dmp_term 1 [[1; 1]; [2; 3]]%Z monom c) ∧
  NoDup (dmp_list_terms 1 [[1; 1]; [2; 3]]%Z None) ∧
  ∀ monom c, (monom, c) ∈ dmp_list_terms 1 [[1; 1]; [2; 3]]%Z None
             ↔ dmp_term 1 [[1; 1]; [2; 3]]%Z monom c.
Proof.
  assert (∀ sdp_sort, None = Some sdp_sort →
            ∀ l : list (list Z * Z), sdp_sort l ≡ₚ l) as Hsort by discriminate.
  assert (∃ monom c, dmp_term 1 [[1; 1]; [2; 3]]%Z monom c) as Hterm.
  { exists [0; 0]%Z, 3%Z. split; reflexivity. }
  destruct (dmp_list_terms_spec 1 [[1; 1]; [2; 3]]%Z None Hsort)
    as (Hzero & Hne & Hterms).
  destruct (Hterms Hterm) as [Hnodup Hiff].
  split; [exact Hsort|]. split; [exact Hzero|]. split; [exact Hne|].
  split; [exact Hterm|]. split; [exact Hnodup|exact Hiff].
Defined.

Section Random.
Context {K : Type} {D : Domain K}.
Implicit Types (f t : list K) (c : K) (s : rng) (a b n : Z).

Lemma skip_0 s : skip 0 s = s.
Proof. destruct s as [raw pos]. unfold skip. simpl. by rewrite Nat.add_0_r. Qed.

Lemma skip_skip (j k : nat) s : skip j (skip k s) = skip (k + j) s.
Proof. unfold skip. simpl. by rewrite Nat.add_assoc. Qed.

Lemma draw_skip a b (k i : nat) s : draw a b (skip k s) i = draw a b s (k + i).
Proof. unfold draw, skip. simpl. by rewrite Nat.add_assoc. Qed.

Lemma draw_range a b s (i : nat) : (a ≤ b → a ≤ draw a b s i ≤ b)%Z.
Proof.
  intros Hab. unfold draw.
  pose proof (Z.mod_pos_bound (rng_raw s (rng_pos s + i)) (b - a + 1)). lia.
Qed.

Lemma randint_ok a b s :
  (a ≤ b)%Z → randint a b s = Ok (draw a b s 0, skip 1 s).
Proof.
  intros Hab. unfold randint, draw, skip.
  destruct (Z.ltb_spec b a); [lia|].
  by rewrite Nat.add_0_r, Nat.add_1_r.
Qed.

(** The initial list: one draw for each of the [n+1] positions. *)
Lemma dup_random_init_run a b (range : list Z) f s :
  (a ≤ b)%Z →
  for_each range
    (λ '(f, s) _, '(x, s') ← randint a b s; Ok (f ++ [K_convert x], s'))
    (f, s)
  = Ok (f ++ ((λ i, K_convert (draw a b s i)) <$> seq 0 (length range)),
        skip (length range) s).
Proof.
  intros Hab. revert f s. induction range as [|k range IH]; intros f s.
  { simpl. by rewrite app_nil_r, skip_0. }
  cbn [for_each]. rewrite randint_ok by done. cbn [mbind result_bind].
  rewrite IH. cbn [length seq fmap list_fmap]. rewrite <- app_assoc.
  cbn [app]. rewrite skip_skip. do 4 f_equal.
  rewrite <- fmap_S_seq, <- list_fmap_compose.
  apply list_fmap_ext. intros _ i _. simpl. by rewrite draw_skip.
Qed.

Lemma dup_random_init_ok n a b s :
  (0 ≤ n)%Z → (a ≤ b)%Z →
  dup_random_init n a b s
  = Ok (K_convert (draw a b s 0)
          :: ((λ i, K_convert (draw a b s i)) <$> seq 1 (Z.to_nat n)),
        skip (S (Z.to_nat n)) s).
Proof.
  intros Hn Hab. unfold dup_random_init. rewrite dup_random_init_run by done.
  unfold xrange. rewrite length_seqZ.
  replace (Z.to_nat (n + 1 - 0)) with (S (Z.to_nat n)) by lia. done.
Qed.

(** The loop: the candidate [0] for the leading coefficient is the one in
    the list, the candidate [j+1] is the [j]-th draw of the loop.  The
    loop is still running after [fuel] tests exactly when the first [fuel]
    candidates are zero, and otherwise stops at the first candidate that
    is not zero. *)
Lemma dup_random_loop_run (fuel : nat) a b c t s :
  (a ≤ b)%Z →
  match dup_random_loop fuel a b (c :: t) s with
  | None =>
      ∀ j, j < fuel →
           K_truth (match j with
                    | 0 => c
                    | S j' => K_convert (draw a b s j')
                    end) = false
  | Some r =>
      ∃ j, j < fuel ∧
           K_truth (match j with
                    | 0 => c
                    | S j' => K_convert (draw a b s j')
                    end) = true ∧
           r = Ok (match j with
                   | 0 => c
                   | S j' => K_convert (draw a b s j')
                   end :: t, skip j s)
  end.
Proof.
  intros Hab. revert c s. induction fuel as [|fuel IH]; intros c s.
  { simpl. intros j Hj. lia. }
  cbn [dup_random_loop]. change (py_index (c :: t) 0) with (Ok c).
  cbv beta iota. destruct (K_truth c) eqn:Hc.
  { exists 0. rewrite skip_0. split; [lia|done]. }
  rewrite randint_ok by done. cbn [insert list_insert].
  specialize (IH (K_convert (draw a b s 0)) (skip 1 s)).
  destruct (dup_random_loop fuel a b (K_convert (draw a b s 0) :: t) (skip 1 s))
    as [r|].
  - destruct IH as (j & Hj & Htruth & ->). exists (S j). split; [lia|].
    rewrite skip_skip. destruct j as [|j]; [done|].
    by rewrite draw_skip in *.
  - intros [|j] Hj; [done|]. specialize (IH j ltac:(lia)).
    destruct j as [|j]; [done|]. by rewrite draw_skip in IH.
Qed.

Lemma dup_random_run (fuel : nat) n a b s :
  (0 ≤ n)%Z → (a ≤ b)%Z →
  match dup_random fuel n a b s with
  | None =>
      ∀ j, j < fuel → K_truth (K_convert (leading_draw n a b s j)) = false
  | Some r =>
      ∃ j, j < fuel ∧
           K_truth (K_convert (leading_draw n a b s j)) = true ∧
           r = Ok (K_convert (leading_draw n a b s j)
                     :: ((λ i, K_convert (draw a b s i)) <$> seq 1 (Z.to_nat n)),
                   skip (S (Z.to_nat n) + j) s)
  end.
Proof.
  intros Hn Hab. unfold dup_random. rewrite dup_random_init_ok by done.
  pose proof (dup_random_loop_run fuel a b (K_convert (draw a b s 0))
    ((λ i, K_convert (draw a b s i)) <$> seq 1 (Z.to_nat n))
    (skip (S (Z.to_nat n)) s) Hab) as Hrun.
  assert (∀ j, match j with
               | 0 => K_convert (draw a b s 0)
               | S j' => K_convert (draw a b (skip (S (Z.to_nat n)) s) j')
               end = K_convert (leading_draw n a b s j)) as Hcand.
  { intros [|j]; [done|]. unfold leading_draw. rewrite draw_skip.
    do 2 f_equal. lia. }
  destruct (dup_random_loop fuel a b _ _) as [r|].
  - destruct Hrun as (j & Hj & Htruth & ->). exists j.
    rewrite Hcand in *. by rewrite skip_skip.
  - intros j Hj. rewrite <- Hcand. by apply Hrun.
Qed.

(** A sequence of truth values has a first true one before [k], or none
    before [k]. *)
Lemma first_true_or_none (P : nat → bool) (k : nat) :
  (∃ j, j < k ∧ (∀ j', j' < j → P j' = false) ∧ P j = true) ∨
  (∀ j', j' < k → P j' = false).
Proof.
  induction k as [|k [(j & Hlt & Hfirst & Htrue)|Hnone]].
  - right. intros j' Hj'. lia.
  - left. exists j. split; [lia|done].
  - destruct (P k) eqn:Hk.
    + left. exists k. split; [lia|done].
    + right. intros j' Hj'. destruct (decide (j' = k)) as [->|Hne]; [done|].
      apply Hnone. lia.
Qed.

(** Every call of [random.randint(a, b)] returns the next draw. *)
Lemma randint_draw a b s (i : nat) :
  (a ≤ b)%Z → randint a b (skip i s) = Ok (draw a b s i, skip (S i) s).
Proof.
  intros Hab. rewrite randint_ok by done. rewrite draw_skip, skip_skip.
  by rewrite Nat.add_0_r, Nat.add_1_r.
Qed.

(** With the first candidate that is not zero at position [j], the loop
    stops there as soon as it is given more than [j] tests. *)
Lemma dup_random_loop_first (fuel : nat) a b c t s (j : nat) :
  (a ≤ b)%Z → j < fuel →
  (∀ j', j' < j →
     K_truth (match j' with
              | 0 => c
              | S i => K_convert (draw a b s i)
              end) = false) →
  K_truth (match j with
           | 0 => c
           | S i => K_convert (draw a b s i)
           end) = true →
  dup_random_loop fuel a b (c :: t) s
  = Some (Ok (match j with
              | 0 => c
              | S i => K_convert (draw a b s i)
              end :: t, skip j s)).
Proof.
  intros Hab. revert c s j.
  induction fuel as [|fuel IH]; intros c s j Hj Hfirst Htrue; [lia|].
  cbn [dup_random_loop]. change (py_index (c :: t) 0) with (Ok c).
  cbv beta iota. destruct j as [|j].
  { rewrite Htrue. by rewrite skip_0. }
  rewrite (Hfirst 0) by lia. rewrite randint_ok by done.
  cbn [insert list_insert].
  rewrite (IH (K_convert (draw a b s 0)) (skip 1 s) j).
  - rewrite skip_skip. destruct j as [|j]; [done|]. by rewrite draw_skip.
  - lia.
  - intros j' Hj'. specialize (Hfirst (S j') ltac:(lia)).
    destruct j' as [|j']; [done|]. by rewrite draw_skip.
  - destruct j as [|j]; [done|]. by rewrite draw_skip.
Qed.

Lemma dup_random_first (fuel : nat) n a b s (j : nat) :
  (0 ≤ n)%Z → (a ≤ b)%Z → j < fuel →
  (∀ j', j' < j → K_truth (K_convert (leading_draw n a b s j')) = false) →
  K_truth (K_convert (leading_draw n a b s j)) = true →
  dup_random fuel n a b s
  = Some (Ok (K_convert (leading_draw n a b s j)
                :: ((λ i, K_convert (draw a b s i)) <$> seq 1 (Z.to_nat n)),
              skip (S (Z.to_nat n) + j) s)).
Proof.
  intros Hn Hab Hj Hfirst Htrue. unfold dup_random.
  rewrite dup_random_init_ok by done.
  assert (∀ j, match j with
               | 0 => K_convert (draw a b s 0)
               | S j' => K_convert (draw a b (skip (S (Z.to_nat n)) s) j')
               end = K_convert (leading_draw n a b s j)) as Hcand.
  { intros [|i]; [done|]. unfold leading_draw. rewrite draw_skip.
    do 2 f_equal. lia. }
  rewrite (dup_random_loop_first fuel a b _ _ _ j Hab Hj).
  - by rewrite Hcand, skip_skip.
  - intros j' Hj'. rewrite Hcand. by apply Hfirst.
  - by rewrite Hcand.
Qed.

(** C8, as the code has it, for [n >= 0] and [a <= b].  The [i]-th call of
    [random.randint(a, b)] returns the draw [i], an integer of [[a, b]].
    [dup_random] never raises; after [fuel] tests its loop is still running
    exactly when the first [fuel] candidates drawn for the leading
    coefficient all convert to zero.  Whenever it returns, some candidate
    [j] is the first one that does not convert to zero, and the result is
    exactly the conversion of that candidate followed by the conversions
    of the draws [1, ..., n], in this order, with the generator advanced by
    [n + 1 + j] draws: [n+1] coefficients, each the conversion of an integer
    of [[a, b]], and degree [n] with a leading coefficient that is not
    zero.  Conversely, as soon as the candidate [j] is the first one that
    does not convert to zero, every run with more than [j] tests returns
    that result. *)
Theorem dup_random_spec n a b s :
  (0 ≤ n)%Z → (a ≤ b)%Z →
  (∀ i : nat, randint a b (skip i s) = Ok (draw a b s i, skip (S i) s) ∧
              (a ≤ draw a b s i ≤ b)%Z) ∧
  (∀ fuel, dup_random fuel n a b s = None ↔
           ∀ j, j < fuel → K_truth (K_convert (leading_draw n a b s j)) = false) ∧
  (∀ fuel r, dup_random fuel n a b s = Some r →
     ∃ j f s',
       j < fuel ∧
       (∀ j', j' < j → K_truth (K_convert (leading_draw n a b s j')) = false) ∧
       K_truth (K_convert (leading_draw n a b s j)) = true ∧
       r = Ok (f, s') ∧
       f = K_convert (leading_draw n a b s j)
             :: ((λ i, K_convert (draw a b s i)) <$> seq 1 (Z.to_nat n)) ∧
       s' = skip (S (Z.to_nat n) + j) s ∧
       len f = (n + 1)%Z ∧ dup_degree f = n ∧
       (∃ c t, f = c :: t ∧ K_truth c = true) ∧
       Forall (λ c, ∃ x, (a ≤ x ≤ b)%Z ∧ c = K_convert x) f) ∧
  (∀ fuel j, j < fuel →
     (∀ j', j' < j → K_truth (K_convert (leading_draw n a b s j')) = false) →
     K_truth (K_convert (leading_draw n a b s j)) = true →
     dup_random fuel n a b s
     = Some (Ok (K_convert (leading_draw n a b s j)
                   :: ((λ i, K_convert (draw a b s i)) <$> seq 1 (Z.to_nat n)),
                 skip (S (Z.to_nat n) + j) s))).
Proof.
  intros Hn Hab. split; [|split; [|split]].
  - intros i. split; [by apply randint_draw|by apply draw_range].
  - intros fuel. pose proof (dup_random_run fuel n a b s Hn Hab) as Hrun.
    destruct (dup_random fuel n a b s) as [r|].
    + split; [done|]. intros Hall.
      destruct Hrun as (j & Hj & Htruth & _). rewrite Hall in Htruth; done.
    + done.
  - intros fuel r Hr.
    destruct (first_true_or_none
                (λ j, K_truth (K_convert (leading_draw n a b s j))) fuel)
      as [(j & Hj & Hfirst & Htrue)|Hnone]; cbv beta in *.
    2: { pose proof (dup_random_run fuel n a b s Hn Hab) as Hrun.
         rewrite Hr in Hrun. destruct Hrun as (j & Hj & Htruth & _).
         rewrite Hnone in Htruth; done. }
    rewrite (dup_random_first fuel n a b s j Hn Hab Hj Hfirst Htrue) in Hr.
    injection Hr as <-.
    exists j. eexists _, _. split; [done|]. split; [done|]. split; [done|].
    split; [done|]. split; [done|]. split; [done|].
    assert (len (K_convert (leading_draw n a b s j)
              :: ((λ i, K_convert (draw a b s i)) <$> seq 1 (Z.to_nat n)))
            = (n + 1)%Z) as Hlen.
    { unfold len. cbn [length]. rewrite length_fmap, length_seq. lia. }
    split; [done|]. split; [unfold dup_degree; lia|]. split; [eauto|].
    constructor.
    + exists (leading_draw n a b s j). split; [|done].
      destruct j; apply draw_range, Hab.
    + apply Forall_fmap, Forall_forall. intros i _. simpl.
      exists (draw a b s i). split; [by apply draw_range|done].
  - intros fuel j Hj Hfirst Htrue. by apply dup_random_first.
Qed.
End Random.

(** C8 as stated fails for [a = b = 0] over the integers: every draw is
    [0], and the loop never stops. *)
Lemma dup_random_counterexample :
  ¬ (∀ (n a b : Z) (s : rng), (0 ≤ n)%Z → (a ≤ b)%Z →
       ∃ fuel r, dup_random (K:=Z) fuel n a b s = Some r).
Proof.
  intros Hclaim.
  destruct (Hclaim 0%Z 0%Z 0%Z {| rng_raw := λ _, 0%Z; rng_pos := 0 |})
    as (fuel & r & Hr); [done|done|].
  pose proof (dup_random_run (K:=Z) fuel 0 0 0
                {| rng_raw := λ _, 0%Z; rng_pos := 0 |}) as Hrun.
  rewrite Hr in Hrun. destruct Hrun as (j & _ & Htruth & _); [done|done|].
  destruct j; vm_compute in Htruth; discriminate Htruth.
Qed.

(** C8 over the integers: three coefficients drawn from [[-1, 1]] out of the
    raw values [3, 4, 5, ...]; the first candidate [-1 + 3 mod 3 = -1] for the
    leading coefficient is kept, and the result is [[-1, 0, 1]] after three
    draws. *)
Lemma dup_random_spec_witness :
  (0 ≤ 2)%Z ∧ (-1 ≤ 1)%Z ∧
  (∀ i : nat,
     randint (-1) 1
       (skip i {| rng_raw := λ i, Z.of_nat i + 3; rng_pos := 0 |}%Z)
     = Ok (draw (-1) 1 {| rng_raw := λ i, Z.of_nat i + 3; rng_pos := 0 |}%Z i,
           skip (S i) {| rng_raw := λ i, Z.of_nat i + 3; rng_pos := 0 |}%Z) ∧
     (-1 ≤ draw (-1) 1
             {| rng_raw := λ i, Z.of_nat i + 3; rng_pos := 0 |}%Z i ≤ 1)%Z) ∧
  (∀ fuel, dup_random (K:=Z) fuel 2 (-1) 1
             {| rng_raw := λ i, Z.of_nat i + 3; rng_pos := 0 |}%Z = None ↔
           ∀ j, j < fuel →
             K_truth (K_convert (K:=Z) (leading_draw 2 (-1) 1
               {| rng_raw := λ i, Z.of_nat i + 3; rng_pos := 0 |}%Z j)) = false) ∧
  (∀ fuel r, dup_random (K:=Z) fuel 2 (-1) 1
               {| rng_raw := λ i, Z.of_nat i + 3; rng_pos := 0 |}%Z = Some r →
     ∃ j f s',
       j < fuel ∧
       (∀ j', j' < j →
          K_truth (K_convert (K:=Z) (leading_draw 2 (-1) 1
            {| rng_raw := λ i, Z.of_nat i + 3; rng_pos := 0 |}%Z j')) = false) ∧
       K_truth (K_convert (K:=Z) (leading_draw 2 (-1) 1
         {| rng_raw := λ i, Z.of_nat i + 3; rng_pos := 0 |}%Z j)) = true ∧
       r = Ok (f, s') ∧
       f = K_convert (leading_draw 2 (-1) 1
             {| rng_raw := λ i, Z.of_nat i + 3; rng_pos := 0 |}%Z j)
             :: ((λ i, K_convert (draw (-1) 1
                    {| rng_raw := λ i, Z.of_nat i + 3; rng_pos := 0 |}%Z i))
                   <$> seq 1 (Z.to_nat 2)) ∧
       s' = skip (S (Z.to_nat 2) + j)
              {| rng_raw := λ i, Z.of_nat i + 3; rng_pos := 0 |}%Z ∧
       len f = (2 + 1)%Z ∧ dup_degree f = 2%Z ∧
       (∃ c t, f = c :: t ∧ K_truth c = true) ∧
       Forall (λ c, ∃ x, (-1 ≤ x ≤ 1)%Z ∧ c = K_convert x) f) ∧
  (∀ fuel j, j < fuel →
     (∀ j', j' < j →
        K_truth (K_convert (K:=Z) (leading_draw 2 (-1) 1
          {| rng_raw := λ i, Z.of_nat i + 3; rng_pos := 0 |}%Z j')) = false) →
     K_truth (K_convert (K:=Z) (leading_draw 2 (-1) 1
       {| rng_raw := λ i, Z.of_nat i + 3; rng_pos := 0 |}%Z j)) = true →
     dup_random (K:=Z) fuel 2 (-1) 1
       {| rng_raw := λ i, Z.of_nat i + 3; rng_pos := 0 |}%Z
     = Some (Ok (K_convert (leading_draw 2 (-1) 1
                   {| rng_raw := λ i, Z.of_nat i + 3; rng_pos := 0 |}%Z j)
                   :: ((λ i, K_convert (draw (-1) 1
                          {| rng_raw := λ i, Z.of_nat i + 3; rng_pos := 0 |}%Z i))
                         <$> seq 1 (Z.to_nat 2)),
                 skip (S (Z.to_nat 2) + j)
                   {| rng_raw := λ i, Z.of_nat i + 3; rng_pos := 0 |}%Z))) ∧
  dup_random (K:=Z) 1 2 (-1) 1
    {| rng_raw := λ i, Z.of_nat i + 3; rng_pos := 0 |}%Z
  = Some (Ok ([-1; 0; 1]%Z,
              {| rng_raw := λ i, Z.of_nat i + 3; rng_pos := 3 |}%Z)).
Proof.
  assert (0 ≤ 2)%Z as Hn by lia. assert (-1 ≤ 1)%Z as Hab by lia.
  split; [exact Hn|]. split; [exact Hab|].
  pose proof (dup_random_spec (K:=Z) 2 (-1) 1
                {| rng_raw := λ i, (Z.of_nat i + 3)%Z; rng_pos := 0 |} Hn Hab)
    as (Hdraw & Hnone & Hsome & Hfirst).
  split; [exact Hdraw|]. split; [exact Hnone|]. split; [exact Hsome|].
  split; [exact Hfirst|].
  apply (Hfirst 1 0).
  - lia.
  - intros j' Hj'. lia.
  - reflexivity.
Defined.

Section ToDict.
Context {K : Type} {D : Domain K}.
Implicit Types (c : K) (monom es : list Z) (d h : gmap (list Z) K).

Lemma for_each_app {A S} (l1 l2 : list A) (body : S → A → result S) (s : S) :
  for_each (l1 ++ l2) body s = s' ← for_each l1 body s; for_each l2 body s'.
Proof.
  revert s. induction l1 as [|x l1 IH]; intros s; [done|].
  cbn [app for_each]. destruct (body s x) as [s'|e]; [apply IH|done].
Qed.

Lemma xrange_S (m : nat) :
  xrange 0 (Z.of_nat (S m)) = xrange 0 (Z.of_nat m) ++ [Z.of_nat m].
Proof.
  unfold xrange. rewrite !Z.sub_0_r. rewrite seqZ_S. by rewrite Z.add_0_l.
Qed.

Lemma py_index_at_exponent {A} (l : list A) (k : Z) :
  (0 ≤ k < len l)%Z →
  ∃ x, at_exponent l k = Some x ∧ py_index l (len l - 1 - k) = Ok x.
Proof.
  intros Hk. destruct (py_index_in_range l (len l - 1 - k)) as (x & Hx & Hi);
    [lia|].
  exists x. split; [|done]. unfold at_exponent.
  by rewrite bool_decide_eq_true_2.
Qed.

Lemma at_exponent_range {A} (l : list A) (e : Z) (x : A) :
  at_exponent l e = Some x → (0 ≤ e < len l)%Z.
Proof. unfold at_exponent. by case_bool_decide. Qed.

(** *** [dup_to_dict] *)

Lemma dmp_term_0 (f : list K) monom c :
  dmp_term 0 f monom c ↔
  ∃ k, monom = [k] ∧ at_exponent f k = Some c ∧ K_truth c = true.
Proof.
  unfold dmp_term. rewrite dmp_coeff_0. split.
  - intros [Hco Hc]. destruct monom as [|k [|? ?]]; try done. by exists k.
  - by intros (k & -> & Hco & Hc).
Qed.

Lemma dmp_term_S (v : nat) (f : list (dmp K v)) monom c :
  dmp_term (S v) f monom c ↔
  ∃ k es x, monom = k :: es ∧ at_exponent f k = Some x ∧ dmp_term v x es c.
Proof.
  unfold dmp_term. rewrite dmp_coeff_S. split.
  - intros [Hco Hc]. destruct monom as [|k es]; [done|].
    destruct (at_exponent f k) as [x|] eqn:Hk; [|done].
    by exists k, es, x.
  - intros (k & es & x & -> & Hk & Hco & Hc). by rewrite Hk.
Qed.

Lemma dup_to_dict_loop (f : list K) (m : nat) :
  m ≤ length f →
  ∃ d,
    for_each (xrange 0 (Z.of_nat m))
      (λ result k,
         c ← py_index f (dup_degree f - k);
         if K_truth c then Ok (<[ [k] := c ]> result) else Ok result)
      ∅ = Ok d ∧
    ∀ monom c, d !! monom = Some c ↔
               dmp_term 0 f monom c ∧ ∃ k, monom = [k] ∧ (k < Z.of_nat m)%Z.
Proof.
  induction m as [|m IH]; intros Hm.
  { exists ∅. split; [done|]. intros monom c. rewrite lookup_empty.
    split; [done|]. intros [Hterm (k & -> & Hk)].
    apply dmp_term_0 in Hterm as (k' & [= <-] & Hat & _).
    apply at_exponent_range in Hat. lia. }
  destruct IH as (d & Hd & Hspec); [lia|].
  rewrite xrange_S, for_each_app, Hd. cbn [mbind result_bind for_each].
  destruct (py_index_at_exponent f (Z.of_nat m)) as (x & Hat & Hidx).
  { unfold len. lia. }
  unfold dup_degree. rewrite Hidx. cbn [mbind result_bind].
  destruct (K_truth x) eqn:Hx.
  - eexists. split; [done|]. intros monom c.
    destruct (decide (monom = [Z.of_nat m])) as [->|Hne].
    + rewrite lookup_insert_eq. split.
      * intros [= <-]. split; [|exists (Z.of_nat m); split; [done|lia]].
        apply dmp_term_0. by exists (Z.of_nat m).
      * intros [(k & [= <-] & Hat' & _)%dmp_term_0 _]. congruence.
    + rewrite lookup_insert_ne by done. rewrite Hspec.
      split; intros [Hterm (k & -> & Hk)]; (split; [done|]);
        exists k; (split; [done|]); [lia|].
      assert (k ≠ Z.of_nat m) by congruence. lia.
  - exists d. split; [done|]. intros monom c. rewrite Hspec.
    split; intros [Hterm (k & -> & Hk)]; (split; [done|]);
      exists k; (split; [done|]); [lia|].
    assert (k ≠ Z.of_nat m); [|lia]. intros ->.
    apply dmp_term_0 in Hterm as (k' & [= <-] & Hat' & Hc). congruence.
Qed.

(** [dup_to_dict(f)] never raises, and its entries are the terms of [f]. *)
Lemma dup_to_dict_spec (f : list K) :
  ∃ d, dup_to_dict f false = Ok d ∧
       ∀ monom c, d !! monom = Some c ↔ dmp_term 0 f monom c.
Proof.
  unfold dup_to_dict. rewrite andb_false_r.
  destruct (dup_to_dict_loop f (length f)) as (d & Hd & Hspec); [done|].
  exists d. split.
  - rewrite <- Hd. f_equal. unfold dup_degree, len. f_equal. lia.
  - intros monom c. rewrite Hspec. split; [by intros [? _]|].
    intros Hterm. split; [done|].
    apply dmp_term_0 in Hterm as (k & -> & Hat & _).
    apply at_exponent_range in Hat. exists k. split; [done|]. unfold len in Hat. lia.
Qed.

(** *** [dmp_to_dict] *)

Lemma dmp_to_dict_S (v : nat) (f : list (dmp K v)) (zero : bool) :
  dmp_to_dict (S v) f zero =
    if dmp_zero_p (S v) f && zero
    then Ok {[ replicate (S (S v)) 0%Z := K_zero ]}
    else
      for_each (xrange 0 (dmp_degree (S v) f + 1))
        (λ result k,
           x ← py_index f (dmp_degree (S v) f - k);
           h ← dmp_to_dict v x false;
           Ok (map_fold (λ exp coeff result, <[ k :: exp := coeff ]> result)
                        result h))
        ∅.
Proof. reflexivity. Qed.

(** The inner loop [for exp, coeff in h.iteritems(): result[(k,)+exp] = coeff]. *)
Lemma lookup_prefixed (k : Z) d h monom :
  map_fold (λ exp coeff result, <[ k :: exp := coeff ]> result) d h !! monom =
    match monom with
    | k' :: es => if decide (k' = k)
                  then match h !! es with
                       | Some c => Some c
                       | None => d !! monom
                       end
                  else d !! monom
    | [] => d !! monom
    end.
Proof.
  apply (map_fold_weak_ind (λ r h, r !! monom =
    match monom with
    | k' :: es => if decide (k' = k)
                  then match h !! es with
                       | Some c => Some c
                       | None => d !! monom
                       end
                  else d !! monom
    | [] => d !! monom
    end)).
  { destruct monom as [|k' es]; [done|]. rewrite lookup_empty. by case_decide. }
  clear h. intros exp coeff h r Hexp IH.
  destruct monom as [|k' es].
  { by rewrite lookup_insert_ne. }
  destruct (decide (k' = k)) as [->|Hk].
  - destruct (decide (es = exp)) as [->|Hes].
    + by rewrite !lookup_insert_eq.
    + rewrite !lookup_insert_ne by congruence. done.
  - rewrite lookup_insert_ne by congruence. done.
Qed.

Lemma dmp_to_dict_loop (v : nat) (f : list (dmp K v)) (m : nat) :
  (∀ x : dmp K v, ∃ h, dmp_to_dict v x false = Ok h ∧
                       ∀ monom c, h !! monom = Some c ↔ dmp_term v x monom c) →
  m ≤ length f →
  ∃ d,
    for_each (xrange 0 (Z.of_nat m))
      (λ result k,
         x ← py_index f (len f - 1 - k);
         h ← dmp_to_dict v x false;
         Ok (map_fold (λ exp coeff result, <[ k :: exp := coeff ]> result)
                      result h))
      ∅ = Ok d ∧
    ∀ monom c, d !! monom = Some c ↔
               dmp_term (S v) f monom c ∧
               ∃ k es, monom = k :: es ∧ (k < Z.of_nat m)%Z.
Proof.
  intros IHv. induction m as [|m IH]; intros Hm.
  { exists ∅. split; [done|]. intros monom c. rewrite lookup_empty.
    split; [done|]. intros [Hterm (k & es & -> & Hk)].
    apply dmp_term_S in Hterm as (k' & es' & x & [= <- <-] & Hat & _).
    apply at_exponent_range in Hat. lia. }
  destruct IH as (d & Hd & Hspec); [lia|].
  rewrite xrange_S, for_each_app, Hd. cbn [mbind result_bind for_each].
  destruct (py_index_at_exponent f (Z.of_nat m)) as (x & Hat & Hidx).
  { unfold len. lia. }
  rewrite Hidx. cbn [mbind result_bind].
  destruct (IHv x) as (h & Hh & Hhspec). rewrite Hh. cbn [mbind result_bind].
  eexists. split; [done|]. intros monom c. rewrite lookup_prefixed.
  destruct monom as [|k es].
  { rewrite Hspec. split; intros [Hterm (k & es & ? & _)]; done. }
  destruct (decide (k = Z.of_nat m)) as [->|Hk].
  - destruct (h !! es) as [c'|] eqn:Hes.
    + apply Hhspec in Hes. split.
      * intros [= <-]. split; [|exists (Z.of_nat m), es; split; [done|lia]].
        apply dmp_term_S. by exists (Z.of_nat m), es, x.
      * intros [(k' & es' & x' & [= <- <-] & Hat' & Hterm)%dmp_term_S _].
        assert (x' = x) as -> by congruence.
        apply Hhspec in Hterm. apply Hhspec in Hes. congruence.
    + rewrite Hspec. split.
      * intros [_ (k' & es' & [= <- <-] & Hlt)]. lia.
      * intros [(k' & es' & x' & [= <- <-] & Hat' & Hterm)%dmp_term_S _].
        assert (x' = x) as -> by congruence.
        apply Hhspec in Hterm. congruence.
  - rewrite Hspec.
    split; intros [Hterm (k' & es' & [= <- <-] & Hlt)]; (split; [done|]);
      exists k, es; (split; [done|]); lia.
Qed.

(** [dmp_to_dict(f, u)] never raises, and its entries are the terms of
    [f]. *)
Lemma dmp_to_dict_spec (u : nat) (f : dmp K u) :
  ∃ d, dmp_to_dict u f false = Ok d ∧
       ∀ monom c, d !! monom = Some c ↔ dmp_term u f monom c.
Proof.
  revert f. induction u as [|v IHv]; intros f; cbn in f.
  { apply dup_to_dict_spec. }
  rewrite dmp_to_dict_S, andb_false_r, dmp_degree_S.
  destruct (dmp_zero_p (S v) f) eqn:Hz.
  - exists ∅. split; [done|]. intros monom c. rewrite lookup_empty.
    split; [done|]. intros [Hco _]. apply dmp_zero_p_eq in Hz.
    by rewrite Hz, dmp_coeff_zero in Hco.
  - destruct (dmp_to_dict_loop v f (length f) IHv) as (d & Hd & Hspec); [done|].
    exists d. split.
    + rewrite <- Hd. f_equal. unfold len. f_equal. lia.
    + intros monom c. rewrite Hspec. split; [by intros [? _]|].
      intros Hterm. split; [done|].
      apply dmp_term_S in Hterm as (k & es & x & -> & Hat & _).
      apply at_exponent_range in Hat. exists k, es. split; [done|].
      unfold len in Hat. lia.
Qed.
End ToDict.

Section Normal.
Context {K : Type} {D : Domain K}.
Implicit Types (c : K) (monom es : list Z).

(** *** Exponents and positions *)

Lemma at_exponent_fmap {A B} (F : A → B) (l : list A) (e : Z) :
  at_exponent (F <$> l) e = F <$> at_exponent l e.
Proof.
  unfold at_exponent, len. rewrite length_fmap.
  case_bool_decide; [|done]. apply list_lookup_fmap.
Qed.

Lemma at_exponent_drop {A} (l : list A) (i : nat) (e : Z) :
  i ≤ length l →
  at_exponent (drop i l) e =
    if bool_decide (e < len l - Z.of_nat i)%Z then at_exponent l e else None.
Proof.
  intros Hi. unfold at_exponent, len. rewrite length_drop.
  destruct (decide (0 ≤ e < Z.of_nat (length l) - Z.of_nat i)%Z) as [He|He].
  - rewrite !bool_decide_eq_true_2 by lia. rewrite lookup_drop. f_equal. lia.
  - rewrite (bool_decide_eq_false_2 (0 ≤ e < Z.of_nat (length l - i))%Z) by lia.
    case_bool_decide; [|done]. rewrite bool_decide_eq_false_2 by lia. done.
Qed.

Lemma at_exponent_ext {A} (l1 l2 : list A) :
  length l1 = length l2 →
  (∀ e, at_exponent l1 e = at_exponent l2 e) → l1 = l2.
Proof.
  intros Hlen Hat. apply list_eq. intros i.
  destruct (decide (i < length l1)) as [Hi|Hi].
  - specialize (Hat (len l1 - 1 - Z.of_nat i)%Z). unfold at_exponent, len in Hat.
    rewrite <- Hlen in Hat. rewrite bool_decide_eq_true_2 in Hat by lia.
    replace (Z.to_nat _) with i in Hat by lia. done.
  - rewrite !(proj2 (lookup_ge_None _ _)) by lia. done.
Qed.

Lemma at_exponent_head {A} (x : A) (t : list A) :
  at_exponent (x :: t) (len (x :: t) - 1) = Some x.
Proof.
  replace (len (x :: t) - 1)%Z with (len (x :: t) - 1 - Z.of_nat 0)%Z by lia.
  by apply at_exponent_lookup.
Qed.

(** Dropping the entries counted by the stripping loops keeps every entry
    on which the loop would have stopped. *)
Lemma at_exponent_drop_count {A} (stop : A → bool) (l : list A) (e : Z) (x : A) :
  stop x = true →
  at_exponent (drop (count_until stop l) l) e = Some x ↔ at_exponent l e = Some x.
Proof.
  intros Hx. rewrite at_exponent_drop by apply count_until_le.
  case_bool_decide as He; [done|]. split; [done|]. intros Hat. exfalso.
  apply at_exponent_Some in Hat as (j & Hj & ->).
  pose proof (lookup_lt_Some _ _ _ Hj) as Hlt.
  pose proof (count_until_take stop l) as Htake.
  rewrite Forall_lookup in Htake. specialize (Htake j x).
  rewrite lookup_take_lt in Htake by (unfold len in He; lia).
  specialize (Htake Hj). congruence.
Qed.

Lemma forallb_Forall {A} (p : A → bool) (l : list A) :
  forallb p l = true ↔ Forall (λ x, p x = true) l.
Proof.
  induction l as [|x l IH]; simpl; [by split; [constructor|]|].
  rewrite andb_true_iff, IH, Forall_cons. done.
Qed.

(** *** Zero polynomials have no terms *)

Lemma zero_no_term (u : nat) (f : dmp K u) monom c :
  dmp_zero_p u f = true → ¬ dmp_term u f monom c.
Proof.
  intros Hz%dmp_zero_p_eq [Hco _]. by rewrite Hz, dmp_coeff_zero in Hco.
Qed.

(** *** Stripping keeps the terms *)

Lemma dup_strip_terms (f : list K) monom c :
  dmp_term 0 (dup_strip f) monom c ↔ dmp_term 0 f monom c.
Proof.
  rewrite !dmp_term_0, dup_strip_drop.
  split; intros (k & -> & Hat & Hc); exists k; (split; [done|]);
    (split; [|done]); by apply (at_exponent_drop_count K_truth f k c Hc).
Qed.

Lemma dmp_strip_terms (u : nat) (f : dmp K u) monom c :
  dmp_term u (dmp_strip u f) monom c ↔ dmp_term u f monom c.
Proof.
  destruct u as [|v]; cbn in f; [apply dup_strip_terms|].
  rewrite dmp_strip_S. destruct (dmp_zero_p (S v) f) eqn:Hz; [done|].
  case_bool_decide as Hall.
  - split.
    + intros Hterm. exfalso. revert Hterm. apply zero_no_term, dmp_zero_p_zero.
    + intros (k & es & x & -> & Hat & Hterm)%dmp_term_S. exfalso.
      pose proof (count_until_take (λ x, negb (dmp_zero_p v x)) f) as Htake.
      rewrite Hall, firstn_all in Htake.
      apply at_exponent_Some in Hat as (j & Hj & _).
      rewrite Forall_lookup in Htake. specialize (Htake j x Hj).
      apply negb_false_iff in Htake. by apply zero_no_term in Hterm.
  - rewrite !dmp_term_S.
    split; intros (k & es & x & -> & Hat & Hterm); exists k, es, x;
      (split; [done|]); (split; [|done]);
      apply (at_exponent_drop_count (λ x, negb (dmp_zero_p v x)) f k x);
      try done; apply negb_true_iff;
      destruct (dmp_zero_p v x) eqn:Hx; try done;
      by apply zero_no_term in Hterm.
Qed.

Lemma _rec_strip_S (w : nat) (g : list (dmp K w)) :
  _rec_strip (S w) g = dmp_strip (S w) (_rec_strip w <$> g).
Proof. reflexivity. Qed.

Lemma rec_strip_terms (u : nat) (f : dmp K u) monom c :
  dmp_term u (_rec_strip u f) monom c ↔ dmp_term u f monom c.
Proof.
  revert f monom. induction u as [|w IH]; intros f monom; cbn in f.
  { apply dup_strip_terms. }
  rewrite _rec_strip_S, dmp_strip_terms, !dmp_term_S. split.
  - intros (k & es & x & -> & Hat & Hterm).
    rewrite at_exponent_fmap in Hat.
    destruct (at_exponent f k) as [y|] eqn:Hy; [|done].
    injection Hat as <-. apply (proj1 (IH _ _)) in Hterm. by exists k, es, y.
  - intros (k & es & x & -> & Hat & Hterm).
    exists k, es, (_rec_strip w x). split; [done|].
    rewrite at_exponent_fmap, Hat. split; [done|]. by apply IH.
Qed.

(** *** The invariant of the data model *)

Lemma dmp_normal_p_S (v : nat) (f : list (dmp K v)) :
  dmp_normal_p (S v) f = dmp_stripped (S v) f && forallb (dmp_normal_p v) f.
Proof. reflexivity. Qed.

Lemma dmp_normal_zero (u : nat) : dmp_normal_p (K:=K) u (dmp_zero u) = true.
Proof.
  induction u as [|v IH]; [done|].
  rewrite dmp_normal_p_S, dmp_stripped_S, dmp_zero_p_zero. simpl.
  by rewrite IH.
Qed.

Lemma rec_strip_normal (u : nat) (f : dmp K u) :
  dmp_normal_p u (_rec_strip u f) = true.
Proof.
  revert f. induction u as [|w IH]; intros f; cbn in f.
  { apply dup_strip_stripped. }
  rewrite _rec_strip_S, dmp_normal_p_S, dmp_strip_stripped, andb_true_l.
  assert (Forall (λ x, dmp_normal_p w x = true) (_rec_strip w <$> f)) as Hall.
  { apply Forall_fmap, Forall_forall. intros x _. apply IH. }
  apply forallb_Forall. rewrite dmp_strip_S.
  destruct (dmp_zero_p (S w) _); [done|]. case_bool_decide.
  - rewrite dmp_zero_S. constructor; [apply dmp_normal_zero|constructor].
  - by apply Forall_drop.
Qed.

Lemma normal_has_term (u : nat) (f : dmp K u) :
  dmp_normal_p u f = true → dmp_zero_p u f = false →
  ∃ monom c, dmp_term u f monom c.
Proof.
  revert f. induction u as [|v IH]; intros f Hn Hz; cbn in f.
  - destruct f as [|c t]; [done|]. simpl in Hn.
    exists [(len (c :: t) - 1)%Z], c. apply dmp_term_0. eexists. split; [done|].
    split; [apply at_exponent_head|done].
  - rewrite dmp_normal_p_S, dmp_stripped_S, Hz in Hn.
    apply andb_true_iff in Hn as [Hhead Hall].
    destruct f as [|x t]; [done|]. simpl in Hhead, Hall.
    apply negb_true_iff in Hhead. apply andb_true_iff in Hall as [Hx _].
    destruct (IH x Hx Hhead) as (es & c & Hterm).
    exists ((len (x :: t) - 1)%Z :: es), c. apply dmp_term_S.
    eexists _, _, x. split; [done|]. split; [apply at_exponent_head|done].
Qed.

(** Two lists are equal when they start with an entry that is not zero,
    have such entries at the same exponents, and agree wherever both have
    an entry. *)
Lemma top_level_ext {A} (nz : A → Prop) (l1 l2 : list A) :
  (∀ x t, l1 = x :: t → nz x) →
  (∀ x t, l2 = x :: t → nz x) →
  (∀ e x, at_exponent l1 e = Some x → nz x → is_Some (at_exponent l2 e)) →
  (∀ e x, at_exponent l2 e = Some x → nz x → is_Some (at_exponent l1 e)) →
  (∀ e x y, at_exponent l1 e = Some x → at_exponent l2 e = Some y → x = y) →
  l1 = l2.
Proof.
  intros Hh1 Hh2 H12 H21 Heq.
  assert (∀ l l' : list A,
            (∀ x t, l = x :: t → nz x) →
            (∀ e x, at_exponent l e = Some x → nz x → is_Some (at_exponent l' e)) →
            length l ≤ length l') as Hle.
  { intros l l' Hh Hll'. destruct l as [|x t]; [simpl; lia|].
    destruct (Hll' _ _ (at_exponent_head x t)) as [y Hy]; [by eapply Hh|].
    apply at_exponent_range in Hy. unfold len in *. lia. }
  assert (length l1 = length l2) as Hlen.
  { apply Nat.le_antisymm; by apply Hle. }
  apply at_exponent_ext; [done|]. intros e.
  destruct (at_exponent l1 e) as [x|] eqn:H1, (at_exponent l2 e) as [y|] eqn:H2.
  - f_equal. by eapply Heq.
  - apply at_exponent_range in H1. unfold at_exponent, len in H2.
    rewrite <- Hlen in H2. rewrite bool_decide_eq_true_2 in H2 by done.
    apply lookup_ge_None in H2. unfold len in H1. lia.
  - apply at_exponent_range in H2. unfold at_exponent, len in H1.
    rewrite Hlen in H1. rewrite bool_decide_eq_true_2 in H1 by done.
    apply lookup_ge_None in H1. unfold len in H2. lia.
  - done.
Qed.

(** A polynomial that satisfies the invariant is determined by its
    terms. *)
Lemma normal_ext (u : nat) (f g : dmp K u) :
  dmp_normal_p u f = true → dmp_normal_p u g = true →
  (∀ monom c, dmp_term u f monom c ↔ dmp_term u g monom c) →
  f = g.
Proof.
  revert f g. induction u as [|v IH]; intros f g Hf Hg Hterms; cbn in f, g.
  - apply (top_level_ext (λ c, K_truth c = true)).
    + intros x t ->. done.
    + intros x t ->. done.
    + intros e x Hat Hx. exists x.
      assert (dmp_term 0 g [e] x) as (? & [= <-] & ? & _)%dmp_term_0; [|done].
      apply Hterms, dmp_term_0. by exists e.
    + intros e x Hat Hx. exists x.
      assert (dmp_term 0 f [e] x) as (? & [= <-] & ? & _)%dmp_term_0; [|done].
      apply Hterms, dmp_term_0. by exists e.
    + intros e x y Hx Hy. destruct (K_truth x) eqn:Htx.
      { assert (dmp_term 0 g [e] x) as (? & [= <-] & ? & _)%dmp_term_0;
          [|congruence].
        apply Hterms, dmp_term_0. by exists e. }
      destruct (K_truth y) eqn:Hty.
      { assert (dmp_term 0 f [e] y) as (? & [= <-] & ? & _)%dmp_term_0;
          [|congruence].
        apply Hterms, dmp_term_0. by exists e. }
      apply truth_false in Htx, Hty. congruence.
  - pose proof Hf as Hf'. pose proof Hg as Hg'.
    rewrite dmp_normal_p_S in Hf', Hg'.
    apply andb_true_iff in Hf' as [Hsf Haf], Hg' as [Hsg Hag].
    apply forallb_Forall in Haf, Hag. rewrite dmp_stripped_S in Hsf, Hsg.
    destruct (dmp_zero_p (S v) f) eqn:Hzf.
    { destruct (dmp_zero_p (S v) g) eqn:Hzg.
      - apply dmp_zero_p_eq in Hzf, Hzg. congruence.
      - destruct (normal_has_term (S v) g Hg Hzg) as (monom & c & Hterm).
        apply Hterms in Hterm. by apply zero_no_term in Hterm. }
    destruct (dmp_zero_p (S v) g) eqn:Hzg.
    { destruct (normal_has_term (S v) f Hf Hzf) as (monom & c & Hterm).
      apply Hterms in Hterm. by apply zero_no_term in Hterm. }
    simpl in Hsf, Hsg.
    assert (∀ (l l' : list (dmp K v)) e x,
              Forall (λ x, dmp_normal_p v x = true) l →
              (∀ monom c, dmp_term (S v) l monom c → dmp_term (S v) l' monom c) →
              at_exponent l e = Some x → dmp_zero_p v x = false →
              is_Some (at_exponent l' e)) as Hsome.
    { intros l l' e x Hal Hll' Hat Hx.
      assert (dmp_normal_p v x = true) as Hnx.
      { apply at_exponent_Some in Hat as (j & Hj & _).
        rewrite Forall_lookup in Hal. by eapply Hal. }
      destruct (normal_has_term v x Hnx Hx) as (es & c & Hterm).
      assert (dmp_term (S v) l' (e :: es) c) as Ht.
      { apply Hll', dmp_term_S. by exists e, es, x. }
      apply dmp_term_S in Ht as (? & ? & y & [= <- <-] & Hy & _). by exists y. }
    apply (top_level_ext (λ x, dmp_zero_p v x = false)).
    + intros x t ->. by apply negb_true_iff.
    + intros x t ->. by apply negb_true_iff.
    + intros e x. apply Hsome; [done|]. intros ??. apply Hterms.
    + intros e x. apply Hsome; [done|]. intros ??. apply Hterms.
    + intros e x y Hx Hy. apply IH.
      * apply at_exponent_Some in Hx as (j & Hj & _).
        rewrite Forall_lookup in Haf. by eapply Haf.
      * apply at_exponent_Some in Hy as (j & Hj & _).
        rewrite Forall_lookup in Hag. by eapply Hag.
      * intros es c. split; intros Hterm.
        -- assert (dmp_term (S v) g (e :: es) c) as Ht.
           { apply Hterms, dmp_term_S. by exists e, es, x. }
           apply dmp_term_S in Ht as (? & ? & y' & [= <- <-] & Hy' & ?).
           congruence.
        -- assert (dmp_term (S v) f (e :: es) c) as Ht.
           { apply Hterms, dmp_term_S. by exists e, es, y. }
           apply dmp_term_S in Ht as (? & ? & x' & [= <- <-] & Hx' & ?).
           congruence.
Qed.

Lemma rec_strip_id (u : nat) (f : dmp K u) :
  dmp_normal_p u f = true → _rec_strip u f = f.
Proof.
  intros Hf. apply normal_ext; [apply rec_strip_normal|done|].
  intros monom c. apply rec_strip_terms.
Qed.

(** When the entries of [f] satisfy the invariant, stripping at every
    level is stripping at the top level. *)
Lemma rec_strip_top (u : nat) (f : dmp K u) :
  dmp_coeffs_normal u f = true → _rec_strip u f = dmp_strip u f.
Proof.
  destruct u as [|w]; cbn in f; [done|]. intros Hall%forallb_Forall.
  rewrite _rec_strip_S. f_equal.
  rewrite <- (list_fmap_id f) at 2. apply Forall_fmap_ext_1.
  eapply Forall_impl; [exact Hall|]. intros x Hx. by apply rec_strip_id.
Qed.
End Normal.

Section FromDict.
Context {K : Type} {D : Domain K}.
Implicit Types (c : K) (monom es : list Z) (d h : gmap (list Z) K).

(** *** The greatest key of a dictionary *)

Lemma max_key_spec {I} `{Countable I} {A} (ltb : I → I → bool) (d : gmap I A) :
  (∀ x, ltb x x = false) →
  (∀ x y z, ltb x y = true → ltb y z = true → ltb x z = true) →
  d ≠ ∅ →
  ∃ n, max_key ltb d = Some n ∧ is_Some (d !! n) ∧
       ∀ k, is_Some (d !! k) → ltb n k = false.
Proof.
  intros Hirr Htrans Hne.
  assert (d = ∅ ∧ max_key ltb d = None ∨
          ∃ n, max_key ltb d = Some n ∧ is_Some (d !! n) ∧
               ∀ k, is_Some (d !! k) → ltb n k = false) as [[? _]|?]; [|done..].
  clear Hne. unfold max_key.
  apply (map_fold_weak_ind (λ r (m : gmap I A),
    m = ∅ ∧ r = None ∨
    ∃ n, r = Some n ∧ is_Some (m !! n) ∧
         ∀ k, is_Some (m !! k) → ltb n k = false)); [by left|].
  clear d. intros i x m r Hi IH. right.
  destruct IH as [[-> ->]|(n & -> & Hn & Hmax)].
  { exists i. split; [done|]. rewrite lookup_insert_eq. split; [done|].
    intros k [y Hk]. apply lookup_insert_Some in Hk as [[<- _]|[_ Hk]]; [done|].
    by rewrite lookup_empty in Hk. }
  destruct (ltb n i) eqn:Hni.
  - exists i. split; [done|]. rewrite lookup_insert_eq. split; [done|].
    intros k [y Hk]. apply lookup_insert_Some in Hk as [[<- _]|[_ Hk]]; [done|].
    destruct (ltb i k) eqn:Hik; [|done].
    assert (ltb n k = false) as Hnk by (apply Hmax; eauto).
    rewrite (Htrans _ _ _ Hni Hik) in Hnk. discriminate Hnk.
  - exists n. split; [done|]. split.
    + rewrite lookup_insert_ne; [done|]. intros ->. rewrite Hi in Hn.
      by destruct Hn.
    + intros k [y Hk]. apply lookup_insert_Some in Hk as [[<- _]|[_ Hk]]; [done|].
      by apply Hmax.
Qed.

Lemma tuple_ltb_irrefl (a : list Z) : tuple_ltb a a = false.
Proof.
  induction a as [|x a IH]; [done|]. simpl.
  by rewrite Z.ltb_irrefl, Z.eqb_refl, IH.
Qed.

Lemma tuple_ltb_trans (a b c' : list Z) :
  tuple_ltb a b = true → tuple_ltb b c' = true → tuple_ltb a c' = true.
Proof.
  revert b c'. induction a as [|x a IH]; intros [|y b] [|z c']; simpl; try done.
  rewrite !orb_true_iff, !andb_true_iff, !Z.ltb_lt, !Z.eqb_eq.
  intros [Hxy|[-> Hab]] [Hyz|[-> Hbc]]; [left; lia|by left|by left|].
  right. split; [done|]. by eapply IH.
Qed.

Lemma tuple_ltb_singleton (x y : Z) : tuple_ltb [x] [y] = (x <? y)%Z.
Proof. simpl. by rewrite andb_false_r, orb_false_r. Qed.

(** *** Lists built from [xrange(n, -1, -1)] *)

Lemma at_exponent_xrange_down (n k : Z) :
  (0 ≤ n + 1)%Z →
  at_exponent (xrange_down n) k = if bool_decide (0 ≤ k ≤ n)%Z then Some k else None.
Proof.
  intros Hn. unfold at_exponent, xrange_down, len.
  rewrite length_reverse, length_seqZ.
  destruct (decide (0 ≤ k ≤ n)%Z) as [Hk|Hk].
  - rewrite !bool_decide_eq_true_2 by lia.
    rewrite reverse_lookup by (rewrite length_seqZ; lia).
    rewrite length_seqZ. apply lookup_seqZ. lia.
  - rewrite !bool_decide_eq_false_2 by lia. done.
Qed.

Lemma Forall2_at_exponent {A B} (R : A → B → Prop) (l : list A) (k : list B)
    (e : Z) (y : B) :
  Forall2 R l k → at_exponent k e = Some y →
  ∃ x, at_exponent l e = Some x ∧ R x y.
Proof.
  intros HR Hy. pose proof (Forall2_length _ _ _ HR) as Hlen.
  unfold at_exponent, len in *. rewrite Hlen.
  case_bool_decide; [|done].
  destruct (Forall2_lookup_r _ _ _ _ _ HR Hy) as (x & Hx & HRxy). eauto.
Qed.

Lemma at_exponent_is_Some {A} (l : list A) (e : Z) :
  (0 ≤ e < len l)%Z → is_Some (at_exponent l e).
Proof.
  intros He. unfold at_exponent. rewrite bool_decide_eq_true_2 by done.
  apply lookup_lt_is_Some. unfold len in *. lia.
Qed.

(** *** Grouping by the leading exponent *)

Lemma group_by_head_spec d :
  (∀ monom c, d !! monom = Some c → monom ≠ []) →
  ∃ coeffs, group_by_head d = Ok coeffs ∧
            (∀ k es, coeffs !! k ≫= (.!! es) = d !! (k :: es)) ∧
            (∀ k dk, coeffs !! k = Some dk → dk ≠ ∅).
Proof.
  unfold group_by_head, for_items.
  apply (map_fold_weak_ind (λ r (m : gmap (list Z) K),
    (∀ monom c, m !! monom = Some c → monom ≠ []) →
    ∃ coeffs, r = Ok coeffs ∧
              (∀ k es, coeffs !! k ≫= (.!! es) = m !! (k :: es)) ∧
              (∀ k dk, coeffs !! k = Some dk → dk ≠ ∅))).
  { intros _. exists ∅. split; [done|]. split; [|done].
    intros k es. by rewrite !lookup_empty. }
  clear d. intros monom c m r Hmonom IH Hkeys.
  destruct IH as (coeffs & -> & Hlook & Hnonempty).
  { intros monom' c' Hm. apply (Hkeys monom' c').
    rewrite lookup_insert_ne; [done|]. intros <-. congruence. }
  cbn [mbind result_bind].
  destruct monom as [|head tail].
  { by destruct (Hkeys [] c (lookup_insert_eq _ _ _)). }
  destruct (coeffs !! head) as [dh|] eqn:Hhead.
  - eexists. split; [done|]. split.
    + intros k es. destruct (decide (k = head)) as [->|Hk].
      * rewrite lookup_insert_eq. cbn [mbind option_bind].
        destruct (decide (es = tail)) as [->|Hes].
        -- by rewrite !lookup_insert_eq.
        -- rewrite !lookup_insert_ne by congruence.
           rewrite <- Hlook, Hhead. done.
      * rewrite !lookup_insert_ne by congruence. apply Hlook.
    + intros k dk. destruct (decide (k = head)) as [->|Hk].
      * rewrite lookup_insert_eq. intros [= <-]. apply insert_non_empty.
      * rewrite lookup_insert_ne by congruence. apply Hnonempty.
  - eexists. split; [done|]. split.
    + intros k es. destruct (decide (k = head)) as [->|Hk].
      * rewrite lookup_insert_eq. cbn [mbind option_bind].
        destruct (decide (es = tail)) as [->|Hes].
        -- by rewrite lookup_singleton_eq, lookup_insert_eq.
        -- rewrite lookup_singleton_ne, lookup_insert_ne by congruence.
           rewrite <- Hlook, Hhead. done.
      * rewrite !lookup_insert_ne by congruence. apply Hlook.
    + intros k dk. destruct (decide (k = head)) as [->|Hk].
      * rewrite lookup_insert_eq. intros [= <-]. apply insert_non_empty.
      * rewrite lookup_insert_ne by congruence. apply Hnonempty.
Qed.

(** *** [dup_from_dict] *)

Lemma dup_from_dict_spec d :
  sparse_form 0 d →
  ∃ g, dup_from_dict d = Ok g ∧ dup_stripped g = true ∧
       ∀ monom c, dmp_term 0 g monom c ↔ d !! monom = Some c.
Proof.
  intros Hwf. unfold dup_from_dict. case_bool_decide as Hd.
  { exists []. split; [done|]. split; [done|]. intros monom c.
    rewrite Hd, lookup_empty. split; [|done].
    intros (k & _ & Hat & _)%dmp_term_0. apply at_exponent_range in Hat.
    unfold len in Hat. simpl in Hat. lia. }
  destruct (max_key_spec tuple_ltb d tuple_ltb_irrefl tuple_ltb_trans Hd)
    as (key & -> & [cn Hkey] & Hmax).
  destruct (Hwf _ _ Hkey) as (Hlen & Hnn & Hcn).
  destruct key as [|n [|? ?]]; try done.
  rewrite Forall_singleton in Hnn.
  remember ((λ k, default K_zero (d !! [k])) <$> xrange_down n) as h eqn:Hh.
  assert (∀ k, at_exponent h k =
               if bool_decide (0 ≤ k ≤ n)%Z
               then Some (default K_zero (d !! [k])) else None) as Hat.
  { intros k. rewrite Hh, at_exponent_fmap.
    rewrite at_exponent_xrange_down by lia. by case_bool_decide. }
  assert (len h = n + 1)%Z as Hlenh.
  { rewrite Hh. unfold len, xrange_down.
    rewrite length_fmap, length_reverse, length_seqZ. lia. }
  assert (dup_stripped h = true) as Hstr.
  { clear Hh. destruct h as [|c0 t]; [done|]. simpl.
    pose proof (at_exponent_head c0 t) as Hhead.
    rewrite Hat, Hlenh in Hhead. rewrite bool_decide_eq_true_2 in Hhead by lia.
    replace (n + 1 - 1)%Z with n in Hhead by lia. rewrite Hkey in Hhead.
    simpl in Hhead. congruence. }
  exists h. split; [by rewrite dup_strip_id|]. split; [done|].
  intros monom c. rewrite dmp_term_0. split.
  - intros (k & -> & Hk & Hc). rewrite Hat in Hk.
    case_bool_decide; [|done]. destruct (d !! [k]) as [c'|]; simpl in Hk.
    + congruence.
    + injection Hk as <-. apply truth_true in Hc. done.
  - intros Hm. destruct (Hwf _ _ Hm) as (Hlenm & Hnnm & Hc).
    destruct monom as [|k [|? ?]]; try done. rewrite Forall_singleton in Hnnm.
    exists k. split; [done|]. split; [|done]. rewrite Hat.
    assert (tuple_ltb [n] [k] = false) as Hnk by (apply Hmax; eauto).
    rewrite tuple_ltb_singleton in Hnk. apply Z.ltb_ge in Hnk.
    rewrite bool_decide_eq_true_2 by lia. by rewrite Hm.
Qed.

(** *** [dmp_from_dict] *)

Lemma dmp_from_dict_S (v : nat) d :
  dmp_from_dict (S v) d =
    if bool_decide (d = ∅) then Ok (dmp_zero (S v))
    else
      coeffs ← group_by_head d;
      match max_key Z.ltb coeffs with
      | None => Raise ValueError
      | Some n =>
          h ← mapM (λ k, match coeffs !! k return result (dmp K v) with
                         | Some coeff => dmp_from_dict v coeff
                         | None => Ok (dmp_zero v)
                         end) (xrange_down n);
          Ok (dmp_strip (S v) h)
      end.
Proof. reflexivity. Qed.

(** On a sparse form, [dmp_from_dict] never raises; its result satisfies
    the invariant of the data model, and its terms are the entries of the
    dictionary. *)
Lemma dmp_from_dict_spec (u : nat) d :
  sparse_form u d →
  ∃ g, dmp_from_dict u d = Ok g ∧ dmp_normal_p u g = true ∧
       ∀ monom c, dmp_term u g monom c ↔ d !! monom = Some c.
Proof.
  revert d. induction u as [|v IH]; intros d Hwf.
  { apply dup_from_dict_spec, Hwf. }
  rewrite dmp_from_dict_S. case_bool_decide as Hd.
  { exists (dmp_zero (S v)). split; [done|]. split; [apply dmp_normal_zero|].
    intros monom c. rewrite Hd, lookup_empty. split; [|done].
    intros Hterm. by apply zero_no_term in Hterm; [|apply dmp_zero_p_zero]. }
  destruct (group_by_head_spec d) as (coeffs & -> & Hlook & Hnonempty).
  { intros monom c Hm ->. by destruct (Hwf _ _ Hm) as [? _]. }
  cbn [mbind result_bind].
  assert (coeffs ≠ ∅) as Hcoeffs.
  { apply map_choose in Hd as (monom & c & Hm). intros ->.
    destruct (Hwf _ _ Hm) as (Hlen & _). destruct monom as [|k es]; [done|].
    rewrite <- Hlook, lookup_empty in Hm. done. }
  destruct (max_key_spec Z.ltb coeffs Z.ltb_irrefl) as (n & -> & [dn Hn] & Hmax);
    [|done|].
  { intros x y z. rewrite !Z.ltb_lt. lia. }
  cbv beta iota.
  assert (∀ k dk, coeffs !! k = Some dk → (0 ≤ k ≤ n)%Z ∧ sparse_form v dk)
    as Hsub.
  { intros k dk Hk. split.
    - destruct (map_choose _ (Hnonempty _ _ Hk)) as (es & c & Hes).
      assert (d !! (k :: es) = Some c) as Hm by (by rewrite <- Hlook, Hk).
      destruct (Hwf _ _ Hm) as (_ & Hnn & _). apply Forall_cons in Hnn as [? _].
      assert ((n <? k)%Z = false) as Hnk by (apply Hmax; eauto).
      apply Z.ltb_ge in Hnk. lia.
    - intros es c Hes.
      assert (d !! (k :: es) = Some c) as Hm by (by rewrite <- Hlook, Hk).
      destruct (Hwf _ _ Hm) as (Hlen & Hnn & Hc).
      apply Forall_cons in Hnn as [_ Hnn]. simpl in Hlen. split; [lia|done]. }
  pose (R := λ (k : Z) (y : dmp K v),
    dmp_normal_p v y = true ∧
    (∀ es c, dmp_term v y es c ↔ coeffs !! k ≫= (.!! es) = Some c) ∧
    (is_Some (coeffs !! k) → dmp_zero_p v y = false)).
  match goal with
  | |- context [@mapM _ _ _ _ ?B ?F ?l] =>
      destruct (mapM_result_Forall2 (B:=B) F R l) as (h & -> & Hh)
  end.
  { apply Forall_forall. intros k _. unfold R.
    destruct (coeffs !! k) as [dk|] eqn:Hk.
    - destruct (Hsub _ _ Hk) as [_ Hwfk].
      destruct (IH dk Hwfk) as (y & Hy & Hny & Hterms).
      exists y. split; [done|]. split; [done|]. split; [done|]. intros _.
      destruct (map_choose _ (Hnonempty _ _ Hk)) as (es & c & Hes).
      apply Hterms in Hes. destruct (dmp_zero_p v y) eqn:Hz; [|done].
      by apply zero_no_term in Hes.
    - exists (dmp_zero v). split; [done|]. split; [apply dmp_normal_zero|].
      split; [|by intros []]. intros es c. split; [|done].
      intros Hterm. by apply zero_no_term in Hterm; [|apply dmp_zero_p_zero]. }
  cbn [mbind result_bind].
  assert (0 ≤ n)%Z as Hn0 by (by destruct (Hsub _ _ Hn) as [[? _] _]).
  assert (len h = n + 1)%Z as Hlenh.
  { apply Forall2_length in Hh. unfold len. rewrite <- Hh.
    unfold xrange_down. rewrite length_reverse, length_seqZ. lia. }
  assert (∀ k y, at_exponent h k = Some y →
            (0 ≤ k ≤ n)%Z ∧ dmp_normal_p v y = true ∧
            (∀ es c, dmp_term v y es c ↔ d !! (k :: es) = Some c) ∧
            (is_Some (coeffs !! k) → dmp_zero_p v y = false)) as Hat.
  { intros k y Hy.
    destruct (Forall2_at_exponent _ _ _ _ _ Hh Hy) as (k' & Hk' & HR).
    rewrite at_exponent_xrange_down in Hk' by lia.
    case_bool_decide; [|done]. injection Hk' as <-.
    destruct HR as (Hny & Hterms & Hnz). split; [lia|]. split; [done|].
    split; [|done]. intros es c. by rewrite Hterms, Hlook. }
  assert (dmp_stripped (S v) h = true) as Hstr.
  { rewrite dmp_stripped_S. destruct h as [|y0 t] eqn:Hheq.
    { unfold len in Hlenh. simpl in Hlenh. lia. }
    pose proof (at_exponent_head y0 t) as Hhead. rewrite Hlenh in Hhead.
    replace (n + 1 - 1)%Z with n in Hhead by lia.
    destruct (Hat _ _ Hhead) as (_ & _ & _ & Hnz).
    rewrite Hnz by eauto. apply orb_true_r. }
  exists h. split; [by rewrite dmp_strip_id|]. split.
  - rewrite dmp_normal_p_S, Hstr. apply forallb_Forall, Forall_lookup.
    intros j y Hj. apply at_exponent_lookup in Hj. by apply Hat in Hj as (_ & ? & _).
  - intros monom c. rewrite dmp_term_S. split.
    + intros (k & es & y & -> & Hy & Hterm).
      apply Hat in Hy as (_ & _ & Hterms & _). by apply Hterms.
    + intros Hm. destruct (Hwf _ _ Hm) as (Hlen & _).
      destruct monom as [|k es]; [done|].
      destruct (coeffs !! k) as [dk|] eqn:Hk;
        [|by rewrite <- Hlook, Hk in Hm].
      destruct (Hsub _ _ Hk) as [Hkn _].
      destruct (at_exponent_is_Some h k) as [y Hy]; [lia|].
      exists k, es, y. split; [done|]. split; [done|].
      apply Hat in Hy as (_ & _ & Hterms & _). by apply Hterms.
Qed.

Lemma to_dict_sparse_form (u : nat) (f : dmp K u) d :
  (∀ monom c, d !! monom = Some c ↔ dmp_term u f monom c) → sparse_form u d.
Proof.
  intros Hd monom c Hm. apply Hd in Hm. clear Hd.
  revert f monom Hm. induction u as [|v IH]; intros f monom Hm; cbn in f.
  - apply dmp_term_0 in Hm as (k & -> & Hat & Hc).
    apply at_exponent_range in Hat. split; [done|]. split; [|done].
    apply Forall_singleton. lia.
  - apply dmp_term_S in Hm as (k & es & x & -> & Hat & Hterm).
    apply at_exponent_range in Hat.
    destruct (IH _ _ Hterm) as (Hlen & Hnn & Hc). simpl. split; [lia|].
    split; [|done]. constructor; [lia|done].
Qed.

(** The round trip through the sparse form strips at every level. *)
Lemma to_dict_from_dict_rec_strip (u : nat) (f : dmp K u) :
  ∃ d, dmp_to_dict u f false = Ok d ∧ dmp_from_dict u d = Ok (_rec_strip u f).
Proof.
  destruct (dmp_to_dict_spec u f) as (d & Hd & Hentries).
  exists d. split; [done|].
  destruct (dmp_from_dict_spec u d) as (g & Hg & Hnormal & Hterms).
  { by eapply to_dict_sparse_form. }
  rewrite Hg. f_equal. apply normal_ext; [done|apply rec_strip_normal|].
  intros monom c. by rewrite Hterms, Hentries, rec_strip_terms.
Qed.

(** C3: for every polynomial [f] of level [u] whose entries satisfy the
    invariant of the data model (leading zero entries are allowed at the
    top level only), [dmp_to_dict(f, u)] succeeds with a dictionary [d] and
    [dmp_from_dict(d, u, K) == dmp_strip(f, u)]. *)
Theorem to_dict_from_dict (u : nat) (f : dmp K u) :
  dmp_coeffs_normal u f = true →
  ∃ d, dmp_to_dict u f false = Ok d ∧ dmp_from_dict u d = Ok (dmp_strip u f).
Proof.
  intros Hf. rewrite <- rec_strip_top by done.
  apply to_dict_from_dict_rec_strip.
Qed.
End FromDict.

(** C3 over the integers: [[[], [], [1, 0], [], [2, 3]]] at level [1]
    has two leading zero entries. *)
Lemma to_dict_from_dict_witness :
  dmp_coeffs_normal 1 [[]; []; [1; 0]; []; [2; 3]]%Z = true ∧
  ∃ d, dmp_to_dict 1 [[]; []; [1; 0]; []; [2; 3]]%Z false = Ok d ∧
       dmp_from_dict 1 d = Ok (dmp_strip 1 [[]; []; [1; 0]; []; [2; 3]]%Z).
Proof.
  split; [reflexivity|].
  apply (to_dict_from_dict 1 [[]; []; [1; 0]; []; [2; 3]]%Z). reflexivity.
Defined.

Section Slicing.
Context {K : Type} {D : Domain K}.

(** A variable index outside [[0, u]] is refused. *)
Lemma dmp_slice_in_index_error (u : nat) (f : dmp K u) (m n j : Z) :
  (j < 0 ∨ Z.of_nat u < j)%Z → dmp_slice_in u f m n j = Raise IndexError.
Proof.
  intros Hj. unfold dmp_slice_in.
  destruct (Z.ltb_spec j 0), (Z.ltb_spec (Z.of_nat u) j); simpl; try done; lia.
Qed.

(** At level [0] the slice is [dup_slice]. *)
Lemma dmp_slice_in_0 (f : list K) (m n : Z) :
  dmp_slice_in 0 f m n 0 = Ok (dup_slice f m n).
Proof. reflexivity. Qed.
End Slicing.

(** C1 fails on [x + 1] in two variables, given as [[[1], [1]]] at level [1]:
    slicing the exponents of the leading variable to [[1, 2)] keeps the
    constant term, and slicing to the empty range [[0, 0)] returns the
    constant [2] of degree [0], where the claim asks for [x] and for the zero
    polynomial of degree [-1]; the same slices at level [0] give [x] and
    zero. *)
Theorem dmp_slice_in_keeps_outside_terms :
  dmp_slice_in 1 [[1]; [1]]%Z 1 2 0 = Ok [[1]; [1]]%Z ∧
  dmp_slice_in 1 [[1]; [1]]%Z 0 0 0 = Ok [[2]]%Z ∧
  dmp_degree 1 [[2]]%Z = 0%Z ∧
  dmp_slice_in 0 [1; 1]%Z 1 2 0 = Ok [1; 0]%Z ∧
  dmp_slice_in 0 [1; 1]%Z 0 0 0 = Ok [].
Proof. repeat split; vm_compute; reflexivity. Qed.

(** * Further properties *)

Section Univariate.
Context {K : Type} {D : Domain K}.
Implicit Types (f g h : list K) (c : K).

(** *** [dup_reverse] *)

Lemma poly_TC_last f c : last f = Some c → poly_TC f = c.
Proof. destruct f; [done|]. unfold poly_TC. by intros ->. Qed.

Lemma poly_TC_truth f :
  K_truth (poly_TC f) = true → ∃ c, last f = Some c ∧ K_truth c = true.
Proof.
  destruct f as [|x t]; unfold poly_TC.
  - intros H. apply truth_true in H. done.
  - destruct (last (x :: t)) as [c|] eqn:Hl.
    + simpl. intros. by exists c.
    + simpl. intros H. apply truth_true in H. done.
Qed.

(** X1: [dup_reverse(f)] never has a leading zero coefficient, and
    reversing twice gives back every [f] that has neither a leading nor a
    trailing zero coefficient. *)
Theorem dup_reverse_involutive f :
  dup_stripped (dup_reverse f) = true ∧
  (dup_stripped f = true → K_truth (poly_TC f) = true →
     dup_reverse (dup_reverse f) = f).
Proof.
  unfold dup_reverse. split; [apply dup_strip_stripped|].
  intros Hs Ht. destruct (poly_TC_truth f Ht) as (c & Hl & Hc).
  assert (Hr : dup_strip (reverse f) = reverse f).
  { apply dup_strip_id.
    destruct (reverse f) as [|y r] eqn:Hr.
    - done.
    - simpl. apply (f_equal reverse) in Hr. rewrite reverse_involutive in Hr.
      subst f. rewrite reverse_cons, last_snoc in Hl. congruence. }
  rewrite Hr, reverse_involutive. by apply dup_strip_id.
Qed.

(** *** [dup_terms_gcd] *)

Lemma py_slice_to_end_minus {A} (l : list A) (i : nat) :
  1 ≤ i ≤ length l →
  py_slice l 0 (- Z.of_nat i) = take (length l - i) l.
Proof.
  intros Hi. unfold py_slice.
  assert (py_bound (len l) 0 = 0) as ->.
  { unfold py_bound, len. simpl. lia. }
  assert (py_bound (len l) (- Z.of_nat i) = length l - i) as ->.
  { unfold py_bound, len. destruct (Z.ltb_spec (- Z.of_nat i) 0); lia. }
  rewrite drop_0. f_equal. lia.
Qed.

(** X2: [dup_terms_gcd(f, K)] returns [(i, g)] with [f = g * x^i]: [f] is
    [g] followed by [i] zero coefficients, and [g] is empty or has a
    trailing coefficient that is not zero, so that [i] is the greatest
    such power. *)
Theorem dup_terms_gcd_spec f :
  (0 ≤ (dup_terms_gcd f).1)%Z ∧
  f = (dup_terms_gcd f).2 ++ py_repeat K_zero (dup_terms_gcd f).1 ∧
  ((dup_terms_gcd f).2 = [] ∨ K_truth (poly_TC (dup_terms_gcd f).2) = true) ∧
  (dup_stripped f = true → dup_stripped (dup_terms_gcd f).2 = true).
Proof.
  unfold dup_terms_gcd.
  destruct (K_truth (poly_TC f)) eqn:Ht; simpl.
  { rewrite app_nil_r. repeat split; [done|by right|done]. }
  case_bool_decide as Hf; simpl.
  { rewrite app_nil_r. repeat split; [done| |done].
    left. by apply length_zero_iff_nil. }
  set (i := count_until K_truth (reverse f)).
  assert (Hle : i ≤ length f).
  { pose proof (count_until_le K_truth (reverse f)) as H.
    by rewrite length_reverse in H. }
  assert (Hi : 1 ≤ i).
  { subst i. destruct (reverse f) as [|y r] eqn:Hr.
    - apply (f_equal length) in Hr. rewrite length_reverse in Hr. simpl in Hr. lia.
    - simpl. destruct (K_truth y) eqn:Hy; [|lia]. exfalso.
      assert (last f = Some y) as Hl.
      { rewrite <- head_reverse, Hr. done. }
      rewrite (poly_TC_last f y Hl) in Ht. congruence. }
  rewrite py_slice_to_end_minus by lia.
  assert (Hz : drop (length f - i) f = replicate i K_zero).
  { symmetry. apply replicate_as_Forall_2.
    - rewrite length_drop. lia.
    - pose proof (count_until_take K_truth (reverse f)) as H. fold i in H.
      rewrite take_reverse in H. apply Forall_reverse in H.
      rewrite reverse_involutive in H.
      eapply Forall_impl; [exact H|]. simpl. intros x Hx.
      symmetry. by apply truth_false. }
  assert (Hg : reverse (take (length f - i) f) = drop i (reverse f)).
  { by rewrite drop_reverse. }
  split; [lia|]. split; [|split].
  - unfold py_repeat. rewrite Nat2Z.id, <- Hz. by rewrite take_drop.
  - destruct (count_until_drop K_truth (reverse f)) as [[Hd _]|(x & t & Hd & Hx)];
      fold i in Hd; rewrite <- Hg in Hd.
    + left. apply (f_equal reverse) in Hd. by rewrite reverse_involutive in Hd.
    + right. rewrite (poly_TC_last _ x); [done|].
      rewrite <- head_reverse, Hd. done.
  - intros Hs. destruct f as [|c f']; [done|]. simpl in Hs.
    destruct (length (c :: f') - i) as [|k] eqn:Hk; [done|]. done.
Qed.

(** *** Errors of [dup_deflate] and [dup_multi_deflate] *)

Lemma gcd_list_0 (l : list Z) : gcd_list l = 0%Z ↔ Forall (λ x, x = 0%Z) l.
Proof.
  induction l as [|x l IH]; simpl.
  - split; [constructor|done].
  - rewrite Forall_cons, <- IH. apply Z.gcd_eq_0.
Qed.

Lemma exponent_gcd_0 f :
  exponent_gcd f = 0%Z ↔
  ∀ k c, (0 < k)%Z → at_exponent f k = Some c → c = K_zero.
Proof.
  unfold exponent_gcd. rewrite gcd_list_0, Forall_forall. split.
  - intros H k c Hk Hc. apply truth_false.
    destruct (K_truth c) eqn:Ht; [|done].
    assert (k ∈ support f) as Hin by (apply elem_of_support; eauto).
    apply H in Hin. lia.
  - intros H k Hin. apply elem_of_support in Hin as (c & Hc & Ht).
    apply at_exponent_range in Hc as Hr.
    destruct (decide (k = 0%Z)) as [|Hne]; [done|].
    apply truth_true in Ht. destruct Ht. apply (H k); [lia|done].
Qed.

Lemma py_stride_error {A} (l : list A) (g : Z) (e : exn) :
  py_stride l g = Raise e ↔ e = ValueError ∧ g = 0%Z.
Proof.
  unfold py_stride. destruct (Z.eqb_spec g 0) as [->|Hg].
  - split; [intros [= <-]; done|intros [-> _]; done].
  - destruct (0 <? g)%Z; split; try done; intros [_ ?]; done.
Qed.

(** X3: [dup_deflate(f, K)] raises nothing but a [ValueError], and it
    raises it exactly when [f] has more than one coefficient and all of
    them except the constant one are zero (the stride of the slice
    [f[::g]] is then 0); it never raises on a list without a leading
    zero. *)
Theorem dup_deflate_error f :
  (∀ e, dup_deflate f = Raise e ↔
        e = ValueError ∧ (0 < dup_degree f)%Z ∧
        ∀ k c, (0 < k)%Z → at_exponent f k = Some c → c = K_zero) ∧
  (dup_stripped f = true → ∃ r, dup_deflate f = Ok r).
Proof.
  assert (Hmain : ∀ e, dup_deflate f = Raise e ↔
            e = ValueError ∧ (0 < dup_degree f)%Z ∧ exponent_gcd f = 0%Z).
  { intros e. unfold dup_deflate.
    destruct (Z.leb_spec (dup_degree f) 0) as [Hd|Hd].
    { split; [done|]. intros (_ & ? & _). lia. }
    destruct (gcd_loop_support f) as (r & -> & Hr). simpl.
    destruct r as [g|].
    - destruct Hr as [-> Hne].
      destruct (py_stride f (exponent_gcd f)) as [h|e'] eqn:Hs; simpl.
      + split; [done|]. intros (-> & _ & H0).
        assert (py_stride f (exponent_gcd f) = Raise ValueError) as Hs'
          by (by apply py_stride_error).
        congruence.
      + apply py_stride_error in Hs as [-> H0].
        split; [intros [= <-]; done|]. by intros (-> & _).
    - split; [done|]. intros (_ & _ & H0). rewrite H0 in Hr. done. }
  split.
  - intros e. rewrite Hmain, exponent_gcd_0. done.
  - intros Hs. destruct (dup_deflate f) as [r|e] eqn:Hd; [by exists r|].
    destruct (proj1 (Hmain e) eq_refl) as (_ & Hdeg & H0).
    pose proof (exponent_gcd_pos f Hs Hdeg). lia.
Qed.

(** X4: [dup_multi_deflate(polys, K)] raises nothing but a [ValueError],
    exactly when the collection is not empty, every polynomial has more
    than one coefficient and all coefficients except the constant ones
    are zero; on the empty collection it returns the stride 0. *)
Theorem dup_multi_deflate_error (polys : list (list K)) :
  (∀ e, dup_multi_deflate polys = Raise e ↔
        e = ValueError ∧ polys ≠ [] ∧
        Forall (λ p, (0 < dup_degree p)%Z ∧
                     ∀ k c, (0 < k)%Z → at_exponent p k = Some c → c = K_zero)
               polys) ∧
  dup_multi_deflate (K:=K) [] = Ok (0%Z, []).
Proof.
  split; [|done]. intros e.
  assert (Hj : joint_exponent_gcd polys = 0%Z ↔
               Forall (λ p, exponent_gcd p = 0%Z) polys).
  { induction polys as [|p polys IH]; [split; [constructor|done]|].
    rewrite joint_exponent_gcd_cons, Forall_cons, <- IH. apply Z.gcd_eq_0. }
  unfold dup_multi_deflate.
  destruct (multi_loop_spec polys 0) as (r & -> & Hr); [lia|]. simpl.
  destruct r as [G|].
  - destruct Hr as [-> Hdeg]. rewrite Z.gcd_0_l, Z.abs_eq.
    2:{ apply gcd_list_nonneg. }
    destruct (mapM _ polys) as [H|e'] eqn:Hm; simpl.
    + split; [done|]. intros (-> & Hne & Hall). exfalso.
      destruct polys as [|p polys]; [done|].
      assert (joint_exponent_gcd (p :: polys) = 0%Z) as H0.
      { apply Hj. eapply Forall_impl; [exact Hall|]. simpl.
        intros q [_ Hq]. by apply exponent_gcd_0. }
      rewrite H0 in Hm. simpl in Hm. done.
    + assert (e' = ValueError ∧ joint_exponent_gcd polys = 0%Z ∧ polys ≠ [])
        as (-> & H0 & Hne).
      { clear -Hm. revert e' Hm.
        generalize (joint_exponent_gcd polys). intros G.
        induction polys as [|p polys IH]; intros e' Hm; [done|].
        simpl in Hm. destruct (py_stride p G) as [h|e''] eqn:Hs; simpl in Hm.
        - destruct (mapM _ polys) as [H|e''] eqn:Hm'; simpl in Hm; [done|].
          injection Hm as <-. destruct (IH _ eq_refl) as (-> & -> & _). done.
        - injection Hm as <-. apply py_stride_error in Hs as [-> ->]. done. }
      split; [intros [= <-]|by intros (-> & _)].
      split; [done|]. split; [done|].
      apply Hj in H0. apply Forall_forall. intros p Hp.
      rewrite Forall_forall in Hdeg, H0. split; [by apply Hdeg|].
      apply exponent_gcd_0. by apply H0.
  - split; [done|]. intros (-> & Hne & Hall). exfalso.
    destruct Hr as [(p & Hp & Hd)|H1].
    + rewrite Forall_forall in Hall. apply Hall in Hp as [? _]. lia.
    + assert (joint_exponent_gcd polys = 0%Z) as H0.
      { apply Hj. eapply Forall_impl; [exact Hall|]. simpl.
        intros q [_ Hq]. by apply exponent_gcd_0. }
      rewrite H0 in H1. done.
Qed.

(** *** The coefficients of [dup_inflate] *)

Lemma length_spread (m : nat) (l : list K) :
  1 ≤ m → length (spread m l) = m * length l.
Proof.
  intros Hm. induction l as [|c l IH]; [simpl; lia|].
  rewrite spread_cons, length_app, length_replicate. simpl. rewrite IH. lia.
Qed.

Lemma lookup_spread (m : nat) (c0 : K) (rest : list K) :
  1 ≤ m →
  (∀ i, (c0 :: spread m rest) !! (m * i) = (c0 :: rest) !! i) ∧
  (∀ j c, (c0 :: spread m rest) !! j = Some c → j `mod` m ≠ 0 → c = K_zero).
Proof.
  intros Hm. revert c0. induction rest as [|c1 rest IH]; intros c0.
  - split.
    + intros [|i]; [by rewrite Nat.mul_0_r|].
      replace (m * S i) with (S (m * i + (m - 1))) by lia. done.
    + intros [|j] c Hj Hmod; [|done].
      rewrite Nat.Div0.mod_0_l in Hmod. done.
  - destruct (IH c1) as [IH1 IH2]. rewrite spread_cons. split.
    + intros [|i]; [by rewrite Nat.mul_0_r|].
      replace (m * S i) with (S ((m - 1) + m * i)) by lia.
      simpl. rewrite lookup_app_r; rewrite length_replicate; [|lia].
      replace (m - 1 + m * i - (m - 1)) with (m * i) by lia. apply IH1.
    + intros [|j] c Hj Hmod.
      { rewrite Nat.Div0.mod_0_l in Hmod. done. }
      simpl in Hj. destruct (decide (j < m - 1)) as [Hlt|Hge].
      * rewrite lookup_app_l in Hj by (rewrite length_replicate; lia).
        apply lookup_replicate in Hj as [-> _]. done.
      * rewrite lookup_app_r in Hj by (rewrite length_replicate; lia).
        rewrite length_replicate in Hj. apply (IH2 _ _ Hj).
        intros H0. apply Hmod.
        replace (S j) with ((j - (m - 1)) + 1 * m) by lia.
        by rewrite Nat.Div0.mod_add.
Qed.

Lemma dup_inflate_run f (m : Z) :
  (1 ≤ m)%Z →
  ∃ g, dup_inflate f m = Ok g ∧
       (f = [] → g = []) ∧
       (f ≠ [] → dup_degree g = (m * dup_degree f)%Z) ∧
       (∀ k, at_exponent g (m * k) = at_exponent f k) ∧
       (∀ e c, at_exponent g e = Some c → ¬ (m | e)%Z → c = K_zero).
Proof.
  intros Hm. unfold dup_inflate. destruct (Z.leb_spec m 0) as [?|_]; [lia|].
  destruct (Z.eqb_spec m 1) as [->|Hm1].
  { exists f. split; [done|]. split; [done|]. split; [intros; lia|].
    split; [intros k; f_equal; lia|].
    intros e c _ He. destruct He. apply Z.divide_1_l. }
  destruct f as [|c0 rest].
  { exists []. split; [done|]. split; [done|]. split; [done|].
    assert (∀ e, at_exponent (@nil K) e = None) as Hnil.
    { intros e. unfold at_exponent.
      rewrite bool_decide_eq_false_2; [done|]. unfold len. simpl. lia. }
    split; [intros k; by rewrite !Hnil|].
    intros e c He. by rewrite Hnil in He. }
  unfold py_repeat. replace (Z.to_nat (m - 1)) with (Z.to_nat m - 1) by lia.
  rewrite foldl_inflate. simpl.
  set (q := Z.to_nat m). assert (1 ≤ q) as Hq by lia.
  assert (m = Z.of_nat q) as Hmq by lia.
  destruct (lookup_spread q c0 rest Hq) as [L1 L2].
  pose proof (length_spread q rest Hq) as Hlen.
  exists (c0 :: spread q rest). split; [done|]. split; [done|].
  assert (len (c0 :: spread q rest) = m * (len (c0 :: rest) - 1) + 1)%Z as Hl.
  { unfold len. simpl. rewrite Hlen. lia. }
  split; [intros _; unfold dup_degree; lia|]. split.
  - intros k. unfold at_exponent. rewrite Hl.
    case_bool_decide as H1; case_bool_decide as H2; try nia.
    + replace (Z.to_nat (m * (len (c0 :: rest) - 1) + 1 - 1 - m * k))
        with (q * Z.to_nat (len (c0 :: rest) - 1 - k)) by nia.
      apply L1.
    + done.
  - intros e c He Hdiv. unfold at_exponent in He. rewrite Hl in He.
    case_bool_decide as H1; [|done].
    apply (L2 _ _ He). intros H0. apply Hdiv.
    apply Nat.Div0.mod_divides in H0 as [t Ht].
    exists (len (c0 :: rest) - 1 - Z.of_nat t)%Z. nia.
Qed.

(** X5: [dup_inflate(f, m, K)] raises an index error exactly when
    [m <= 0]; for [m >= 1] it returns a polynomial whose coefficient of
    [x^(m*k)] is the coefficient of [x^k] in [f], whose other coefficients
    are zero, and whose degree is [m] times the degree of [f]. *)
Theorem dup_inflate_coefficients f (m : Z) :
  (∀ e, dup_inflate f m = Raise e ↔ e = IndexError ∧ (m ≤ 0)%Z) ∧
  ((1 ≤ m)%Z →
     ∃ g, dup_inflate f m = Ok g ∧
          (f = [] → g = []) ∧
          (f ≠ [] → dup_degree g = (m * dup_degree f)%Z) ∧
          (∀ k, at_exponent g (m * k) = at_exponent f k) ∧
          (∀ e c, at_exponent g e = Some c → ¬ (m | e)%Z → c = K_zero)).
Proof.
  split; [|apply dup_inflate_run].
  intros e. destruct (Z.le_gt_cases m 0) as [Hm|Hm].
  - unfold dup_inflate. destruct (Z.leb_spec m 0) as [_|?]; [|lia].
    split; [by intros [= <-]|by intros [-> _]].
  - destruct (dup_inflate_run f m) as (g & -> & _); [lia|].
    split; [done|]. intros [_ ?]. lia.
Qed.

(** *** [dup_slice] within the length of the list *)

Lemma py_bound_from_end {A} (l : list A) (m : Z) :
  (m ≤ len l ∨ 2 * len l ≤ m)%Z →
  py_bound (len l) (len l - m)
  = length l - Z.to_nat (Z.min (Z.max m 0) (len l)).
Proof.
  intros Hm. unfold py_bound, len in *.
  destruct (Z.ltb_spec (Z.of_nat (length l) - m) 0); lia.
Qed.

Lemma at_exponent_window f (cm cn : nat) (e : Z) c :
  cm < cn ≤ length f → K_truth c = true →
  at_exponent (take (cn - cm) (drop (length f - cn) f) ++ replicate cm K_zero) e
    = Some c
  ↔ at_exponent f e = Some c ∧ (Z.of_nat cm ≤ e < Z.of_nat cn)%Z.
Proof.
  intros Hc Ht.
  set (f' := take (cn - cm) (drop (length f - cn) f)).
  assert (length f' = cn - cm) as Hlen'.
  { subst f'. rewrite length_take, length_drop. lia. }
  assert (len (f' ++ replicate cm K_zero) = Z.of_nat cn) as Hlen.
  { unfold len. rewrite length_app, length_replicate, Hlen'. lia. }
  unfold at_exponent. rewrite Hlen.
  case_bool_decide as H1.
  - destruct (decide (e < Z.of_nat cm)%Z) as [Hlt|Hge].
    + rewrite lookup_app_r by lia.
      split; [|lia]. intros H. apply lookup_replicate in H as [-> _].
      apply truth_true in Ht. done.
    + rewrite lookup_app_l by lia. subst f'.
      rewrite lookup_take_lt by lia. rewrite lookup_drop.
      rewrite bool_decide_eq_true_2 by (unfold len; lia).
      replace (length f - cn + Z.to_nat (Z.of_nat cn - 1 - e))
        with (Z.to_nat (len f - 1 - e)) by (unfold len; lia).
      split; [intros H; split; [done|lia]|by intros [H _]].
  - split; [done|]. intros [_ ?]. lia.
Qed.

(** X6: when each of [m] and [n] is at most [len(f)] (or at least
    [2*len(f)]), the terms of [dup_slice(f, m, n, K)] are exactly the
    terms of [f] whose exponent [e] satisfies [m <= e < n]. *)
Theorem dup_slice_terms f (m n : Z) :
  (m ≤ len f ∨ 2 * len f ≤ m)%Z →
  (n ≤ len f ∨ 2 * len f ≤ n)%Z →
  ∀ e c, dmp_term 0 (dup_slice f m n) [e] c ↔
         dmp_term 0 f [e] c ∧ (m ≤ e < n)%Z.
Proof.
  intros Hm Hn e c. unfold dmp_term. simpl.
  unfold dup_slice, py_slice.
  rewrite (py_bound_from_end f m Hm), (py_bound_from_end f n Hn).
  remember (Z.to_nat (Z.min (Z.max m 0) (len f))) as cm eqn:Hcm.
  remember (Z.to_nat (Z.min (Z.max n 0) (len f))) as cn eqn:Hcn.
  assert (cm ≤ length f ∧ cn ≤ length f) as [HcmL HcnL].
  { subst cm cn. unfold len. lia. }
  replace (length f - cm - (length f - cn)) with (cn - cm) by lia.
  assert (∀ x, at_exponent f e = Some x →
               (m ≤ e < n ↔ Z.of_nat cm ≤ e < Z.of_nat cn)%Z) as Hclamp.
  { intros x H. apply at_exponent_range in H. subst cm cn.
    unfold len in *. lia. }
  destruct (decide (cm < cn)) as [Hlt|Hge].
  - assert (Z.to_nat m = cm) as Hmm.
    { subst cm cn. unfold len in *. lia. }
    destruct (take (cn - cm) (drop (length f - cn) f)) as [|y t] eqn:Hf'.
    { apply (f_equal length) in Hf'.
      rewrite length_take, length_drop in Hf'. simpl in Hf'. lia. }
    rewrite <- Hf'. unfold py_repeat. rewrite Hmm.
    split.
    + intros [H Ht]. apply at_exponent_window in H as [H He]; [|lia|done].
      split; [done|]. by apply (Hclamp c).
    + intros [[H Ht] He]. split; [|done].
      apply at_exponent_window; [lia|done|]. split; [done|].
      by apply (Hclamp c).
  - replace (cn - cm) with 0 by lia. rewrite take_0.
    split.
    + intros [H _]. unfold at_exponent in H. by case_bool_decide.
    + intros [[H _] He]. apply (Hclamp c) in He; [lia|done].
Qed.
End Univariate.

Section Pairs.
Context {K : Type} {D : Domain K}.
Implicit Types (c : K).

(** *** Padding in front and zipping *)

Lemma at_exponent_pad {A} (z : A) (d : nat) (l : list A) (e : Z) :
  at_exponent (replicate d z ++ l) e =
    if bool_decide (0 ≤ e < len l + Z.of_nat d)%Z
    then Some (default z (at_exponent l e))
    else None.
Proof.
  unfold at_exponent, len. rewrite length_app, length_replicate.
  case_bool_decide as H1; case_bool_decide as H2; try lia; [|done].
  case_bool_decide as H3.
  - rewrite lookup_app_r by (rewrite length_replicate; lia).
    rewrite length_replicate.
    replace (Z.to_nat (Z.of_nat (d + length l) - 1 - e) - d)
      with (Z.to_nat (Z.of_nat (length l) - 1 - e)) by lia.
    destruct (lookup_lt_is_Some_2 l (Z.to_nat (Z.of_nat (length l) - 1 - e)))
      as [x Hx]; [lia|].
    by rewrite Hx.
  - rewrite lookup_app_l by (rewrite length_replicate; lia).
    rewrite lookup_replicate_2 by lia. done.
Qed.

Lemma at_exponent_zip_with {A B C} (h : A → B → C) (l1 : list A)
    (l2 : list B) (e : Z) :
  length l1 = length l2 →
  at_exponent (zip_with h l1 l2) e =
    (x ← at_exponent l1 e; y ← at_exponent l2 e; Some (h x y)).
Proof.
  intros Hl. unfold at_exponent, len.
  rewrite length_zip_with, <- Hl, Nat.min_id.
  case_bool_decide; [|done]. by rewrite lookup_zip_with.
Qed.

(** The two lists after the shorter one has been padded. *)
Lemma padded_pair {A} (z : A) (f g : list A) :
  let n := len f in
  let m := len g in
  ∃ f' g',
    (if bool_decide (n ≠ m)
     then if (m <? n)%Z then (f, replicate (Z.to_nat (n - m)) z ++ g)
          else (replicate (Z.to_nat (m - n)) z ++ f, g)
     else (f, g)) = (f', g') ∧
    length f' = length g' ∧
    ∀ e, at_exponent f' e =
           (if bool_decide (0 ≤ e < Z.max n m)%Z
            then Some (default z (at_exponent f e)) else None) ∧
         at_exponent g' e =
           (if bool_decide (0 ≤ e < Z.max n m)%Z
            then Some (default z (at_exponent g e)) else None).
Proof.
  intros n m.
  assert (∀ (l : list A) e,
    at_exponent l e =
      if bool_decide (0 ≤ e < len l)%Z
      then Some (default z (at_exponent l e)) else None) as Hself.
  { intros l e. unfold at_exponent. case_bool_decide as H; [|done].
    destruct (lookup_lt_is_Some_2 l (Z.to_nat (len l - 1 - e))) as [x Hx].
    { unfold len in *. lia. }
    by rewrite Hx. }
  case_bool_decide as Hnm; [destruct (Z.ltb_spec m n) as [Hlt|Hge]|].
  - eexists _, _. split; [done|]. split.
    { rewrite length_app, length_replicate. unfold n, m, len in *. lia. }
    intros e. split.
    + etrans; [apply Hself|]. fold n.
      erewrite bool_decide_ext; [reflexivity|lia].
    + rewrite at_exponent_pad. fold m.
      erewrite bool_decide_ext; [reflexivity|lia].
  - eexists _, _. split; [done|]. split.
    { rewrite length_app, length_replicate. unfold n, m, len in *. lia. }
    intros e. split.
    + rewrite at_exponent_pad. fold n.
      erewrite bool_decide_ext; [reflexivity|lia].
    + etrans; [apply Hself|]. fold m.
      erewrite bool_decide_ext; [reflexivity|lia].
  - assert (n = m) as Heq by (destruct (decide (n = m)); [done|contradiction]).
    eexists _, _. split; [done|]. split.
    { unfold n, m, len in *. lia. }
    intros e. split.
    + etrans; [apply Hself|]. fold n.
      erewrite bool_decide_ext; [reflexivity|lia].
    + etrans; [apply Hself|]. fold m.
      erewrite bool_decide_ext; [reflexivity|lia].
Qed.

Lemma at_exponent_None {A} (l : list A) (e : Z) :
  ¬ (0 ≤ e < len l)%Z → at_exponent l e = None.
Proof. intros H. unfold at_exponent. by rewrite bool_decide_eq_false_2. Qed.

Lemma dmp_zeros_replicate (n : Z) (v : nat) :
  dmp_zeros (K:=K) n v = replicate (Z.to_nat n) (dmp_zero v).
Proof. unfold dmp_zeros. by destruct (Z.eqb_spec n 0) as [->|]. Qed.

Lemma dmp_apply_pairs_S (v : nat) (f g : list (dmp K v)) (h : K → K → K) :
  dmp_apply_pairs (S v) f g h =
    let '(f', g') :=
      if bool_decide (len f ≠ len g)
      then if (len g <? len f)%Z
           then (f, replicate (Z.to_nat (len f - len g)) (dmp_zero v) ++ g)
           else (replicate (Z.to_nat (len g - len f)) (dmp_zero v) ++ f, g)
      else (f, g) in
    dmp_strip (S v) (zip_with (λ a b, dmp_apply_pairs v a b h) f' g').
Proof.
  cbn [dmp_apply_pairs]. rewrite !dmp_zeros_replicate. reflexivity.
Qed.

Lemma dmp_coeff_or_zero_S (v : nat) (f : list (dmp K v)) (e : Z) es :
  dmp_coeff_or_zero (S v) f (e :: es) =
    dmp_coeff_or_zero v (default (dmp_zero v) (at_exponent f e)) es.
Proof.
  unfold dmp_coeff_or_zero. rewrite dmp_coeff_S.
  destruct (at_exponent f e) as [x|]; simpl; [done|].
  by rewrite dmp_coeff_zero.
Qed.

(** X7: for a function [h] with [h(0, 0) = 0], [dmp_apply_pairs] (and
    [dup_apply_pairs], its level 0) returns a polynomial that satisfies the
    invariant at every level and whose terms are exactly the values
    [h(a, b)] that are not zero, [a] and [b] being the coefficients of the
    same monomial in [f] and in [g], zero where nothing is stored. *)
Theorem dmp_apply_pairs_spec (u : nat) (f g : dmp K u) (h : K → K → K) :
  h K_zero K_zero = K_zero →
  dmp_normal_p u (dmp_apply_pairs u f g h) = true ∧
  ∀ monom c,
    dmp_term u (dmp_apply_pairs u f g h) monom c ↔
    c = h (dmp_coeff_or_zero u f monom) (dmp_coeff_or_zero u g monom) ∧
    K_truth c = true.
Proof.
  intros Hh.
  assert (Hzero : ∀ c, c = h K_zero K_zero ∧ K_truth c = true → False).
  { intros c [-> Hc]. rewrite Hh in Hc. apply truth_true in Hc. done. }
  revert f g. induction u as [|v IH]; intros f g; cbn in f, g.
  - change (dmp_apply_pairs 0 f g h) with (dup_apply_pairs f g h).
    unfold dup_apply_pairs, py_repeat.
    destruct (padded_pair K_zero f g) as (f' & g' & -> & Hlen & Hat).
    split; [apply dup_strip_stripped|].
    intros monom c. rewrite dup_strip_terms.
    unfold dmp_term, dmp_coeff_or_zero. rewrite !dmp_coeff_0.
    destruct monom as [|e [|e' es]].
    + split; [by intros [? _]|]. intros H. by apply Hzero in H.
    + rewrite at_exponent_zip_with by done.
      destruct (Hat e) as [-> ->]. case_bool_decide as Hr; simpl.
      * split; [intros [[= <-] ?]; done|intros [-> ?]; done].
      * split; [by intros [? _]|].
        rewrite !at_exponent_None by lia. simpl.
        intros H. by apply Hzero in H.
    + split; [by intros [? _]|]. intros H. by apply Hzero in H.
  - rewrite dmp_apply_pairs_S.
    destruct (padded_pair (dmp_zero v) f g) as (f' & g' & -> & Hlen & Hat).
    split.
    + rewrite dmp_normal_p_S, dmp_strip_stripped, andb_true_l.
      apply forallb_Forall. rewrite dmp_strip_S.
      assert (Forall (λ x, dmp_normal_p v x = true)
                (zip_with (λ a b, dmp_apply_pairs v a b h) f' g')) as Hall.
      { apply Forall_forall. intros x Hx.
        apply elem_of_lookup_zip_with in Hx as (i & a & b & -> & _ & _).
        apply IH. }
      destruct (dmp_zero_p (S v) _); [done|]. case_bool_decide.
      * rewrite dmp_zero_S. constructor; [apply dmp_normal_zero|constructor].
      * by apply Forall_drop.
    + intros monom c. rewrite dmp_strip_terms, dmp_term_S.
      destruct monom as [|e es].
      { unfold dmp_coeff_or_zero. rewrite !dmp_coeff_S. simpl. split.
        - intros (k & es & x & ? & _); done.
        - intros H. by apply Hzero in H. }
      rewrite !dmp_coeff_or_zero_S.
      destruct (Hat e) as [Hf Hg].
      split.
      * intros (k & es' & x & [= <- <-] & Hx & Hterm).
        rewrite at_exponent_zip_with in Hx by done.
        rewrite Hf, Hg in Hx. case_bool_decide as Hr; [|done].
        simpl in Hx. injection Hx as <-.
        by apply IH in Hterm.
      * intros Hc. destruct (decide (0 ≤ e < Z.max (len f) (len g))%Z) as [Hr|Hr].
        -- eexists e, es, _. split; [done|]. split.
           ++ rewrite at_exponent_zip_with by done.
              rewrite Hf, Hg, bool_decide_eq_true_2 by done. simpl. done.
           ++ by apply IH.
        -- exfalso. rewrite !at_exponent_None in Hc by lia. simpl in Hc.
           unfold dmp_coeff_or_zero in Hc. rewrite dmp_coeff_zero in Hc.
           by apply Hzero in Hc.
Qed.
End Pairs.

Section Coefficients.
Context {K : Type} {D : Domain K}.
Implicit Types (c : K).

(** *** [dmp_ground_LC] *)

Lemma dmp_ground_LC_zero (u : nat) :
  dmp_ground_LC (K:=K) u (dmp_zero u) = K_zero.
Proof. induction u as [|v IH]; [done|]. rewrite dmp_zero_S. apply IH. Qed.

Lemma dmp_zero_p_S (v : nat) (f : list (dmp K v)) :
  dmp_zero_p (S v) f = match f with
                       | [x] => dmp_zero_p v x
                       | _ => false
                       end.
Proof. done. Qed.

(** X8: the ground leading coefficient of a polynomial that satisfies the
    invariant is zero exactly when the polynomial is the zero of its
    level. *)
Theorem dmp_ground_LC_zero_iff (u : nat) (f : dmp K u) :
  dmp_normal_p u f = true →
  (dmp_ground_LC u f = K_zero ↔ f = dmp_zero u).
Proof.
  intros Hn. split; [|intros ->; apply dmp_ground_LC_zero].
  revert f Hn. induction u as [|v IH]; intros f Hn; cbn in f.
  - destruct f as [|c t]; [done|]. simpl in *. intros ->.
    assert (K_truth (K_zero (K:=K)) = false) as H0 by (by apply truth_false).
    congruence.
  - rewrite dmp_normal_p_S, dmp_stripped_S in Hn.
    apply andb_true_iff in Hn as [Hs Hall].
    apply forallb_Forall in Hall.
    destruct (dmp_zero_p (S v) f) eqn:Hz.
    { intros _. by apply dmp_zero_p_eq. }
    destruct f as [|x t]; [done|]. simpl in Hs.
    apply negb_true_iff in Hs.
    apply Forall_cons in Hall as [Hx _].
    intros H0. change (dmp_ground_LC v x = K_zero) in H0.
    apply (IH x Hx) in H0. subst x.
    by rewrite dmp_zero_p_zero in Hs.
Qed.

(** *** [dmp_nth] *)

(** X11: at a level [u >= 1], [dmp_nth(f, n, u, K)] raises an index error
    exactly when [n < 0]; otherwise it returns the entry of [f] stored for
    the exponent [n] of the main variable, and the zero of level [u-1]
    when there is none. *)
Theorem dmp_nth_spec (v : nat) (f : list (dmp K v)) (n : Z) :
  (∀ e, dmp_nth v f n = Raise e ↔ e = IndexError ∧ (n < 0)%Z) ∧
  ((0 ≤ n)%Z →
     dmp_nth v f n = Ok (default (dmp_zero v) (at_exponent f n))).
Proof.
  cbn in f.
  destruct (Z.lt_ge_cases n 0) as [Hn|Hn].
  { unfold dmp_nth. destruct (Z.ltb_spec n 0); [|lia].
    split; [|lia]. intros e. split; [by intros [= <-]|by intros [-> _]]. }
  assert (dmp_nth v f n = Ok (default (dmp_zero v) (at_exponent f n))) as Hok.
  { unfold dmp_nth. destruct (Z.ltb_spec n 0); [lia|].
    destruct (Z.leb_spec (len f) n) as [Hl|Hl].
    { rewrite at_exponent_None by lia. done. }
    destruct (py_index_at_exponent f n) as (x & Hx & Hi); [lia|].
    rewrite Hx. simpl. rewrite dmp_degree_S.
    destruct (dmp_zero_p (S v) f) eqn:Hz; [|done].
    destruct f as [|y [|]]; try done.
    assert (n = 0%Z) as -> by (unfold len in Hl; simpl in Hl; lia).
    unfold at_exponent in Hx. simpl in Hx. by injection Hx as ->. }
  rewrite Hok. split; [|done].
  intros e. split; [done|]. intros [_ ?]. lia.
Qed.

(** *** [dmp_ground] and [dmp_ground_p] *)

Lemma embed_dmp_singleton (u : nat) c :
  embed u (dmp_singleton u c) = Untyped.singletons (S u) c.
Proof. induction u as [|v IH]; [done|]. simpl. by rewrite IH. Qed.

(** The typed [dmp_ground] is the one of the module [Untyped] at the
    levels [u >= 0]. *)
Lemma embed_dmp_ground (u : nat) c :
  embed u (dmp_ground c u) = Untyped.dmp_ground c (Z.of_nat u).
Proof.
  unfold dmp_ground, Untyped.dmp_ground. destruct (K_truth c); simpl.
  - rewrite embed_dmp_singleton, wrap_loop_scalar. f_equal. lia.
  - apply embed_dmp_zero.
Qed.

Lemma ground_p_loop_spec (u : nat) (f : dmp K u) (c : option K) :
  ground_p_loop u f c = true ↔
  match c with
  | Some c' => f = dmp_singleton u c'
  | None => f = dmp_zero u ∨ ∃ c', f = dmp_singleton u c'
  end.
Proof.
  revert f. induction u as [|v IH]; intros f; cbn in f.
  - simpl. destruct c as [c'|].
    + by rewrite bool_decide_eq_true.
    + rewrite bool_decide_eq_true. destruct f as [|x [|y t]]; simpl.
      * split; [by left|lia].
      * split; [right; by exists x|lia].
      * split; [lia|]. intros [?|[? ?]]; done.
  - destruct f as [|x [|y t]].
    + simpl. destruct c; split; try done. intros [?|[? ?]]; done.
    + change (ground_p_loop (S v) [x] c) with (ground_p_loop v x c).
      rewrite IH. rewrite dmp_zero_S. destruct c as [c'|]; simpl.
      * split; [by intros ->|by intros [= ->]].
      * split.
        -- intros [->|[c' ->]]; [by left|right; by exists c'].
        -- intros [[= ->]|[c' [= ->]]]; [by left|right; by exists c'].
    + simpl. destruct c; split; try done. intros [?|[? ?]]; done.
Qed.

(** X12: [dmp_ground_p(f, c, u)] holds exactly when [f] is the constant
    polynomial [dmp_ground(c, u)]; with [c = None] it holds exactly when
    [f] is the zero of its level or a single coefficient nested in [u+1]
    lists. *)
Theorem dmp_ground_p_spec (u : nat) (f : dmp K u) :
  (∀ c, dmp_ground_p u f (Some c) = true ↔ f = dmp_ground c u) ∧
  (dmp_ground_p u f None = true ↔
     f = dmp_zero u ∨ ∃ c, f = dmp_singleton u c).
Proof.
  split.
  - intros c. unfold dmp_ground_p, dmp_ground. destruct (K_truth c); simpl.
    + apply (ground_p_loop_spec u f (Some c)).
    + split; [apply dmp_zero_p_eq|]. intros ->. apply dmp_zero_p_zero.
  - apply (ground_p_loop_spec u f None).
Qed.
End Coefficients.

Section LeadingTerm.
Context {K : Type} {D : Domain K}.
Implicit Types (c : K).

Lemma true_LT_loop_S (v : nat) (f : list (dmp K v)) (monom : list Z) :
  true_LT_loop (S v) f monom =
    (x ← py_index f 0; true_LT_loop v x (monom ++ [(len f - 1)%Z])).
Proof. done. Qed.

Lemma dmp_ground_LC_S (v : nat) (x : dmp K v) (t : list (dmp K v)) :
  dmp_ground_LC (S v) (x :: t) = dmp_ground_LC v x.
Proof. done. Qed.

Lemma true_LT_loop_spec (u : nat) (f : dmp K u) (pre : list Z) :
  dmp_normal_p u f = true →
  ∃ lm,
    true_LT_loop u f pre = Ok (pre ++ lm, dmp_ground_LC u f) ∧
    (dmp_zero_p u f = true → lm = replicate (S u) 0%Z) ∧
    (dmp_zero_p u f = false →
       head (_rec_list_terms u f pre) = Some (pre ++ lm, dmp_ground_LC u f)) ∧
    (∀ m' c', dmp_term u f m' c' → tuple_ltb lm m' = false).
Proof.
  revert f pre. induction u as [|v IH]; intros f pre Hn; cbn in f.
  - simpl in Hn. destruct f as [|c t].
    + exists [0%Z]. split; [done|]. split; [done|]. split; [done|].
      intros m' c' [Hc _]. rewrite dmp_coeff_0 in Hc.
      destruct m' as [|k [|]]; try done.
      unfold at_exponent in Hc. by case_bool_decide.
    + exists [(len (c :: t) - 1)%Z]. split; [done|]. split; [done|]. split.
      * intros _. rewrite _rec_list_terms_0, dmp_degree_0. simpl.
        simpl in Hn. rewrite Hn. simpl. change (Z.of_nat 0) with 0%Z. by rewrite Z.sub_0_r.
      * intros m' c' (k & -> & Hk & _)%dmp_term_0.
        apply at_exponent_range in Hk. rewrite tuple_ltb_singleton. lia.
  - rewrite dmp_normal_p_S, dmp_stripped_S in Hn.
    apply andb_true_iff in Hn as [Hs Hall]. apply forallb_Forall in Hall.
    rewrite true_LT_loop_S.
    destruct (dmp_zero_p (S v) f) eqn:Hz.
    + apply dmp_zero_p_eq in Hz as Hf. rewrite dmp_zero_S in Hf. subst f.
      apply Forall_cons in Hall as [Hx _].
      destruct (IH (dmp_zero v) (pre ++ [0%Z]) Hx) as (lm & Hlm & Hzero & _ & _).
      exists (0%Z :: lm). split.
      { simpl. change (len [dmp_zero v] - 1)%Z with 0%Z.
        rewrite Hlm. by rewrite <- app_assoc. }
      split. { intros _. rewrite (Hzero (dmp_zero_p_zero v)). done. }
      split; [done|].
      intros m' c' Ht. exfalso. revert Ht. by apply zero_no_term.
    + destruct f as [|x t]; [done|]. simpl in Hs. apply negb_true_iff in Hs.
      apply Forall_cons in Hall as [Hx _].
      destruct (IH x (pre ++ [(len (x :: t) - 1)%Z]) Hx)
        as (lm & Hlm & _ & Hhead & Hlex).
      exists ((len (x :: t) - 1)%Z :: lm). split.
      { simpl. simpl in Hlm. rewrite Hlm. by rewrite <- app_assoc. }
      split; [done|]. split.
      * intros _. rewrite _rec_list_terms_S, dmp_degree_S, Hz.
        specialize (Hhead Hs). rewrite dmp_ground_LC_S.
        cbn [enumerate imap mbind list_bind]. change (Z.of_nat 0) with 0%Z.
        rewrite Z.sub_0_r.
        destruct (_rec_list_terms v x _) as [|y r] eqn:Hr; [done|].
        simpl in Hhead. injection Hhead as ->. simpl.
        by rewrite <- app_assoc.
      * intros m' c' (k & es & y & -> & Hy & Ht)%dmp_term_S.
        apply at_exponent_range in Hy as Hk. simpl.
        destruct (Z.ltb_spec (len (x :: t) - 1) k) as [?|_]; [lia|]. simpl.
        destruct (Z.eqb_spec (len (x :: t) - 1) k) as [Heq|?]; [|done]. simpl.
        subst k. rewrite at_exponent_head in Hy. injection Hy as <-.
        by apply (Hlex es c').
Qed.

(** X9: on a polynomial that satisfies the invariant, [dmp_true_LT]
    returns the first entry of [dmp_list_terms]; its coefficient is the
    ground leading coefficient, and no term of [f] has a monomial that
    comes after the returned one in the lexicographic order. *)
Theorem dmp_true_LT_leading (u : nat) (f : dmp K u) :
  dmp_normal_p u f = true →
  ∃ monom,
    dmp_true_LT u f = Ok (monom, dmp_ground_LC u f) ∧
    head (dmp_list_terms u f None) = Some (monom, dmp_ground_LC u f) ∧
    ∀ m' c', dmp_term u f m' c' → tuple_ltb monom m' = false.
Proof.
  intros Hn. destruct (true_LT_loop_spec u f [] Hn) as (lm & Hlm & Hz & Hh & Hlex).
  exists lm. split; [done|]. split; [|done].
  unfold dmp_list_terms. destruct (dmp_zero_p u f) eqn:Hzero.
  - rewrite (Hz eq_refl). apply dmp_zero_p_eq in Hzero as ->.
    rewrite dmp_ground_LC_zero.
    destruct (_rec_list_terms u (dmp_zero u) []) as [|[m c] r] eqn:Hr; [done|].
    exfalso. assert ((m, c) ∈ _rec_list_terms u (dmp_zero (K:=K) u) []) as Hin.
    { rewrite Hr. left. }
    apply elem_of_rec_list_terms in Hin as (es & _ & Ht).
    revert Ht. apply zero_no_term, dmp_zero_p_zero.
  - specialize (Hh eq_refl). simpl in Hh.
    destruct (_rec_list_terms u f []) as [|y r]; [done|]. done.
Qed.
End LeadingTerm.

Section Degrees.
Context {K : Type} {D : Domain K}.
Implicit Types (c : K).

(** *** Reading and writing a list by position *)

Lemma py_setitem_in_range {A} (l : list A) (i : nat) (x : A) :
  i < length l → py_setitem l (Z.of_nat i) x = Ok (<[ i := x ]> l).
Proof.
  intros Hi. unfold py_setitem, len.
  assert ((Z.of_nat i <? 0)%Z = false) as Hlt by lia.
  rewrite Hlt. cbv beta iota zeta. rewrite Hlt.
  assert ((Z.of_nat (length l) <=? Z.of_nat i)%Z = false) as -> by lia.
  rewrite Nat2Z.id. done.
Qed.

Lemma py_index_nat {A} (l : list A) (i : nat) (x : A) :
  l !! i = Some x → py_index l (Z.of_nat i) = Ok x.
Proof.
  intros Hx. rewrite py_index_nonneg by lia. by rewrite Nat2Z.id, Hx.
Qed.

(** *** [degree_at_depth] *)

Lemma degree_at_depth_S (w : nat) (g : list (dmp K w)) (t : nat) :
  degree_at_depth (S w) g (S t) =
    foldr Z.max (-1)%Z ((λ x, degree_at_depth w x t) <$> g).
Proof. done. Qed.

Lemma degree_at_depth_0 (v : nat) (g : dmp K v) :
  degree_at_depth v g 0 = dmp_degree v g.
Proof. by destruct v. Qed.

Lemma foldr_max_ge (b : Z) (l : list Z) : (b ≤ foldr Z.max b l)%Z.
Proof. induction l as [|x l IH]; simpl; lia. Qed.

Lemma foldr_max_elem (b x : Z) (l : list Z) :
  x ∈ l → (x ≤ foldr Z.max b l)%Z.
Proof.
  induction l as [|y l IH]; [by intros ?%elem_of_nil|].
  intros [->|Hin]%elem_of_cons; simpl; [lia|]. specialize (IH Hin). lia.
Qed.

Lemma foldr_max_attained (b : Z) (l : list Z) :
  foldr Z.max b l = b ∨ foldr Z.max b l ∈ l.
Proof.
  induction l as [|y l IH]; simpl; [by left|].
  destruct (Z.max_spec y (foldr Z.max b l)) as [[_ ->]|[_ ->]].
  - destruct IH as [->|IH]; [by left|]. right. by right.
  - right. left.
Qed.

Lemma dmp_degree_ge (v : nat) (g : dmp K v) : (-1 ≤ dmp_degree v g)%Z.
Proof.
  unfold dmp_degree. destruct (dmp_zero_p v g); [lia|].
  destruct v; simpl; unfold len; lia.
Qed.

Lemma degree_at_depth_ge (v : nat) (g : dmp K v) (t : nat) :
  (-1 ≤ degree_at_depth v g t)%Z.
Proof.
  destruct v as [|w], t as [|t]; simpl; try lia.
  - apply (dmp_degree_ge 0).
  - apply (dmp_degree_ge (S w)).
  - apply foldr_max_ge.
Qed.

Lemma degree_at_depth_zero (v : nat) (t : nat) :
  degree_at_depth (K:=K) v (dmp_zero v) t = (-1)%Z.
Proof.
  revert t. induction v as [|w IH]; intros [|t]; try done.
  - rewrite degree_at_depth_0. unfold dmp_degree.
    by rewrite dmp_zero_p_zero.
  - rewrite dmp_zero_S, degree_at_depth_S. simpl. rewrite IH. done.
Qed.

(** Every exponent of a term is bounded by the degree at its depth. *)
Lemma term_degree_at_depth (v : nat) (g : dmp K v) monom c (t : nat) (e : Z) :
  dmp_term v g monom c → monom !! t = Some e →
  (e ≤ degree_at_depth v g t)%Z.
Proof.
  revert g monom t. induction v as [|w IH]; intros g monom t; cbn in g.
  - intros (k & -> & Hk & _)%dmp_term_0 Ht.
    destruct t as [|t]; [|done]. injection Ht as ->.
    apply at_exponent_range in Hk. simpl. rewrite dmp_degree_0.
    case_bool_decide as H0; [|lia]. unfold len in Hk. lia.
  - intros Hterm Ht.
    pose proof Hterm as (k & es & x & -> & Hx & Htx)%dmp_term_S.
    destruct t as [|t].
    + injection Ht as ->. apply at_exponent_range in Hx as Hk.
      rewrite degree_at_depth_0, dmp_degree_S.
      destruct (dmp_zero_p (S w) g) eqn:Hz; [|lia].
      by apply zero_no_term in Hterm.
    + simpl in Ht. rewrite degree_at_depth_S.
      etrans; [apply (IH x es t Htx Ht)|].
      apply foldr_max_elem.
      apply at_exponent_Some in Hx as (i & Hi & _).
      apply (list_elem_of_fmap_2 (λ x, degree_at_depth w x t)).
      by eapply list_elem_of_lookup_2.
Qed.

(** On a polynomial that satisfies the invariant and is not zero, the
    degree at every depth is the exponent of a term. *)
Lemma degree_at_depth_attained (v : nat) (g : dmp K v) (t : nat) :
  dmp_normal_p v g = true → dmp_zero_p v g = false → t ≤ v →
  ∃ monom c, dmp_term v g monom c ∧
             monom !! t = Some (degree_at_depth v g t).
Proof.
  revert g t. induction v as [|w IH]; intros g t Hn Hz Ht; cbn in g.
  - assert (t = 0) as -> by lia. simpl in *.
    destruct g as [|c r]; [done|]. simpl in Hn.
    exists [(len (c :: r) - 1)%Z], c. split.
    + apply dmp_term_0. eexists. split; [done|]. split; [|done].
      apply at_exponent_head.
    + rewrite dmp_degree_0. simpl. done.
  - rewrite dmp_normal_p_S, dmp_stripped_S, Hz in Hn.
    apply andb_true_iff in Hn as [Hs Hall]. apply forallb_Forall in Hall.
    destruct g as [|x r]; [done|]. simpl in Hs. apply negb_true_iff in Hs.
    pose proof Hall as [Hx _]%Forall_cons.
    destruct t as [|t].
    + destruct (normal_has_term w x Hx Hs) as (es & c & Hterm).
      exists ((len (x :: r) - 1)%Z :: es), c. split.
      * apply dmp_term_S. eexists _, _, x. split; [done|].
        split; [apply at_exponent_head|done].
      * rewrite degree_at_depth_0, dmp_degree_S, Hz. done.
    + rewrite degree_at_depth_S.
      set (l := (λ x, degree_at_depth w x t) <$> (x :: r)).
      destruct (IH x t Hx Hs) as (es0 & c0 & Ht0 & He0); [lia|].
      assert (0 ≤ degree_at_depth w x t)%Z as Hpos.
      { apply (term_degree_at_depth _ _ _ _ t) with (e := degree_at_depth w x t)
          in Ht0 as Hle; [|done].
        assert (∀ u (f : dmp K u) monom c j e,
                  dmp_term u f monom c → monom !! j = Some e → (0 ≤ e)%Z) as Hnn.
        { clear. induction u as [|u IHu]; intros f monom c j e; cbn in f.
          - intros (k & -> & Hk & _)%dmp_term_0 Hj.
            destruct j; [|done]. injection Hj as ->.
            apply at_exponent_range in Hk. lia.
          - intros (k & es & x & -> & Hk & Hx)%dmp_term_S Hj.
            destruct j as [|j].
            + injection Hj as ->. apply at_exponent_range in Hk. lia.
            + by apply (IHu x es c j e). }
        by apply (Hnn w x es0 c0 t). }
      assert (degree_at_depth w x t ≤ foldr Z.max (-1) l)%Z as Hge.
      { apply foldr_max_elem. subst l. rewrite fmap_cons. left. }
      destruct (foldr_max_attained (-1) l) as [Heq|Hin]; [lia|].
      subst l. apply list_elem_of_fmap in Hin as (y & Hy & Hin).
      apply list_elem_of_lookup_1 in Hin as [i Hi].
      rewrite Forall_lookup in Hall. specialize (Hall i y Hi).
      assert (dmp_zero_p w y = false) as Hyz.
      { destruct (dmp_zero_p w y) eqn:Hyz; [|done].
        apply dmp_zero_p_eq in Hyz. subst y.
        rewrite degree_at_depth_zero in Hy. lia. }
      destruct (IH y t Hall Hyz) as (es & c & Hty & Hey); [lia|].
      exists ((len (x :: r) - 1 - Z.of_nat i)%Z :: es), c. split.
      * apply dmp_term_S. eexists _, _, y. split; [done|]. split; [|done].
        by apply at_exponent_lookup.
      * rewrite Hy. done.
Qed.

(** *** [_rec_degree_list] and [dmp_degree_list] *)

Lemma _rec_degree_list_S (w : nat) (g : list (dmp K w)) (i : Z) degs :
  _rec_degree_list (S w) g i degs =
    (d ← py_index degs i;
     degs ← py_setitem degs i (Z.max d (dmp_degree (S w) g));
     for_each g (λ degs x, _rec_degree_list w x (i + 1)%Z degs) degs).
Proof. done. Qed.

Lemma rec_degree_list_spec (v : nat) (g : dmp K v) (i : nat) (degs : list Z) :
  i + v < length degs →
  Forall (λ d, -1 ≤ d)%Z degs →
  ∃ degs',
    _rec_degree_list v g (Z.of_nat i) degs = Ok degs' ∧
    length degs' = length degs ∧
    ∀ j d, degs !! j = Some d →
           degs' !! j = Some (if bool_decide (i ≤ j ≤ i + v)
                              then Z.max d (degree_at_depth v g (j - i))
                              else d).
Proof.
  revert g i degs. induction v as [|w IH]; intros g i degs Hlen Hge; cbn in g.
  - destruct (lookup_lt_is_Some_2 degs i) as [di Hdi]; [lia|].
    simpl. rewrite (py_index_nat _ _ _ Hdi). simpl.
    rewrite py_setitem_in_range by lia.
    eexists. split; [done|]. split; [by rewrite length_insert|].
    intros j d Hj. destruct (decide (j = i)) as [->|Hne].
    + rewrite list_lookup_insert_eq by lia.
      rewrite bool_decide_eq_true_2 by lia.
      rewrite Nat.sub_diag. congruence.
    + rewrite list_lookup_insert_ne by done.
      rewrite bool_decide_eq_false_2 by lia. done.
  - destruct (lookup_lt_is_Some_2 degs i) as [di Hdi]; [lia|].
    rewrite _rec_degree_list_S, (py_index_nat _ _ _ Hdi). simpl.
    rewrite py_setitem_in_range by lia. simpl.
    set (degs1 := <[ i := Z.max di (dmp_degree (S w) g) ]> degs).
    assert (length degs1 = length degs) as Hlen1 by apply length_insert.
    assert (Forall (λ d, -1 ≤ d)%Z degs1) as Hge1.
    { apply Forall_insert; [done|]. rewrite Forall_lookup in Hge.
      specialize (Hge i di Hdi). simpl in Hge. lia. }
    assert (∀ (l : list (dmp K w)) ds,
      S i + w < length ds → Forall (λ d, -1 ≤ d)%Z ds →
      ∃ ds',
        for_each l (λ degs x, _rec_degree_list w x (Z.of_nat i + 1)%Z degs) ds
          = Ok ds' ∧
        length ds' = length ds ∧
        ∀ j d, ds !! j = Some d →
          ds' !! j = Some (if bool_decide (S i ≤ j ≤ S i + w)
                           then Z.max d (foldr Z.max (-1)%Z
                                  ((λ x, degree_at_depth w x (j - S i)) <$> l))
                           else d)) as Hloop.
    { clear -IH. induction l as [|x l IHl]; intros ds Hlen Hge.
      - exists ds. split; [done|]. split; [done|].
        intros j d Hj. rewrite Hj. f_equal. case_bool_decide; [|done].
        rewrite Forall_lookup in Hge. specialize (Hge j d Hj). simpl in *. lia.
      - simpl. replace (Z.of_nat i + 1)%Z with (Z.of_nat (S i)) by lia.
        destruct (IH x (S i) ds Hlen Hge) as (ds1 & -> & Hl1 & H1). simpl.
        replace (Z.of_nat (S i)) with (Z.of_nat i + 1)%Z by lia.
        destruct (IHl ds1) as (ds' & -> & Hl' & H'); [lia| |].
        { apply Forall_lookup. intros j d1 Hj1.
          destruct (lookup_lt_is_Some_2 ds j) as [d Hd].
          { apply lookup_lt_Some in Hj1. lia. }
          rewrite (H1 j d Hd) in Hj1. injection Hj1 as <-.
          rewrite Forall_lookup in Hge. specialize (Hge j d Hd). simpl in Hge.
          case_bool_decide; lia. }
        exists ds'. split; [done|]. split; [lia|].
        intros j d Hj. rewrite (H' j _ (H1 j d Hj)). f_equal.
        destruct (decide (S i ≤ j ≤ S i + w)) as [Hr|Hr].
        + rewrite !bool_decide_eq_true_2 by done.
          symmetry. apply Z.max_assoc.
        + rewrite !bool_decide_eq_false_2 by done. done. }
    destruct (Hloop g degs1) as (degs' & -> & Hl' & H'); [lia|done|].
    exists degs'. split; [done|]. split; [lia|].
    intros j d Hj. destruct (decide (j = i)) as [->|Hne].
    + assert (degs1 !! i = Some (Z.max di (dmp_degree (S w) g))) as H1.
      { subst degs1. rewrite list_lookup_insert_eq by lia. done. }
      rewrite (H' _ _ H1).
      rewrite bool_decide_eq_false_2 by lia.
      rewrite bool_decide_eq_true_2 by lia.
      rewrite Nat.sub_diag. congruence.
    + assert (degs1 !! j = Some d) as H1.
      { subst degs1. rewrite list_lookup_insert_ne by done. done. }
      rewrite (H' _ _ H1). f_equal.
      case_bool_decide as Hr.
      * rewrite bool_decide_eq_true_2 by lia.
        replace (j - i) with (S (j - S i)) by lia. done.
      * rewrite bool_decide_eq_false_2 by lia. done.
Qed.

(** X10: [dmp_degree_list(f, u)] never raises and returns [u+1] degrees,
    the first one being [dmp_degree(f, u)]; no term of [f] has an exponent
    above the degree at the same position; on a polynomial that satisfies
    the invariant and is not zero every degree is the exponent of a term,
    and on the zero polynomial every degree is [-1]. *)
Theorem dmp_degree_list_spec (u : nat) (f : dmp K u) :
  ∃ degs,
    dmp_degree_list u f = Ok degs ∧
    length degs = S u ∧
    head degs = Some (dmp_degree u f) ∧
    (∀ monom c j e, dmp_term u f monom c → monom !! j = Some e →
                    ∃ d, degs !! j = Some d ∧ (e ≤ d)%Z) ∧
    (dmp_normal_p u f = true → dmp_zero_p u f = false →
       ∀ j d, degs !! j = Some d →
              ∃ monom c, dmp_term u f monom c ∧ monom !! j = Some d) ∧
    (dmp_zero_p u f = true → degs = replicate (S u) (-1)%Z).
Proof.
  unfold dmp_degree_list, py_repeat.
  replace (Z.to_nat (Z.of_nat u + 1)) with (S u) by lia.
  destruct (rec_degree_list_spec u f 0 (replicate (S u) (-1)%Z))
    as (degs & Hrun & Hlen & Hspec).
  { rewrite length_replicate. lia. }
  { apply Forall_replicate. lia. }
  rewrite length_replicate in Hlen.
  assert (∀ j, j ≤ u → degs !! j = Some (degree_at_depth u f j)) as Hdegs.
  { intros j Hj. rewrite (Hspec j (-1)%Z).
    - rewrite bool_decide_eq_true_2 by lia. rewrite Nat.sub_0_r.
      pose proof (degree_at_depth_ge u f j). f_equal. lia.
    - apply lookup_replicate_2. lia. }
  exists degs. split; [exact Hrun|]. split; [done|]. split.
  { rewrite head_lookup, Hdegs by lia. by rewrite degree_at_depth_0. }
  split; [|split].
  - intros monom c j e Hterm Hj.
    assert (j ≤ u) as Hju.
    { assert (∀ u (f : dmp K u) monom c, dmp_term u f monom c →
                length monom = S u) as Hlm.
      { clear. induction u as [|u IHu]; intros f monom c; cbn in f.
        - by intros (k & -> & _)%dmp_term_0.
        - intros (k & es & x & -> & _ & Hx)%dmp_term_S.
          simpl. f_equal. by apply (IHu x es c). }
      apply Hlm in Hterm. apply lookup_lt_Some in Hj. lia. }
    exists (degree_at_depth u f j). split; [by apply Hdegs|].
    by apply (term_degree_at_depth u f monom c).
  - intros Hn Hz j d Hj.
    assert (j ≤ u) as Hju by (apply lookup_lt_Some in Hj; lia).
    rewrite Hdegs in Hj by done. injection Hj as <-.
    by apply degree_at_depth_attained.
  - intros Hz. apply dmp_zero_p_eq in Hz. subst f.
    apply list_eq. intros j. destruct (decide (j ≤ u)) as [Hj|Hj].
    + rewrite Hdegs, degree_at_depth_zero by done.
      symmetry. apply lookup_replicate_2. lia.
    + rewrite (lookup_ge_None_2 degs) by lia.
      symmetry. apply lookup_ge_None_2. rewrite length_replicate. lia.
Qed.
End Degrees.

Section SparseForms.
Context {K : Type} {D : Domain K}.
Implicit Types (c : K) (d : gmap (list Z) K).

(** *** [dmp_to_dict] and its [zero] flag *)

Lemma dmp_to_dict_flag (u : nat) (f : dmp K u) (zero : bool) :
  dmp_zero_p u f && zero = false →
  dmp_to_dict u f zero = dmp_to_dict u f false.
Proof.
  intros Hz. destruct u as [|v]; cbn in f.
  - simpl in *. unfold dup_to_dict. rewrite Hz. by rewrite andb_false_r.
  - rewrite !dmp_to_dict_S, Hz. by rewrite andb_false_r.
Qed.

(** X13: [dmp_to_dict] never raises. Unless [f] is the zero of its level
    and the flag [zero] is set, the result is a sparse form whose entries
    are exactly the terms of [f]; with the flag set, the zero polynomial
    gives the single entry [(0, ..., 0): K.zero], and no polynomial that
    satisfies the invariant gives the empty dictionary. *)
Theorem dmp_to_dict_entries (u : nat) (f : dmp K u) (zero : bool) :
  ∃ d, dmp_to_dict u f zero = Ok d ∧
       (dmp_zero_p u f && zero = false →
          sparse_form u d ∧
          ∀ monom c, d !! monom = Some c ↔ dmp_term u f monom c) ∧
       (dmp_zero_p u f && zero = true →
          d = {[ replicate (S u) 0%Z := K_zero ]}) ∧
       (zero = true → dmp_normal_p u f = true → d ≠ ∅).
Proof.
  destruct (dmp_zero_p u f && zero) eqn:Hz.
  - exists {[ replicate (S u) 0%Z := K_zero ]}. split.
    { destruct u as [|v]; cbn in f.
      - simpl in *. unfold dup_to_dict. by rewrite Hz.
      - by rewrite dmp_to_dict_S, Hz. }
    split; [done|]. split; [done|]. intros _ _ He.
    apply (f_equal (λ m, m !! replicate (S u) 0%Z)) in He.
    by rewrite lookup_singleton_eq, lookup_empty in He.
  - rewrite dmp_to_dict_flag by done.
    destruct (dmp_to_dict_spec u f) as (d & Hd & Hspec).
    exists d. split; [done|]. split; [|split; [done|]].
    + intros _. split; [|done]. by apply (to_dict_sparse_form u f).
    + intros -> Hn. rewrite andb_true_r in Hz.
      destruct (normal_has_term u f Hn Hz) as (monom & c & Hterm).
      apply Hspec in Hterm. intros ->. by rewrite lookup_empty in Hterm.
Qed.

(** *** From the sparse form and back *)

(** X14: on a sparse form [d] of level [u], [dmp_from_dict] never raises
    and returns a polynomial that satisfies the invariant at every level,
    and [dmp_to_dict] takes this polynomial back to [d]. *)
Theorem from_dict_to_dict (u : nat) d :
  sparse_form u d →
  ∃ g, dmp_from_dict u d = Ok g ∧
       dmp_normal_p u g = true ∧
       dmp_to_dict u g false = Ok d.
Proof.
  intros Hd. destruct (dmp_from_dict_spec u d Hd) as (g & Hg & Hn & Hterms).
  exists g. split; [done|]. split; [done|].
  destruct (dmp_to_dict_spec u g) as (d' & -> & Hd'). f_equal.
  apply map_eq. intros monom.
  destruct (d' !! monom) as [c|] eqn:H1.
  - symmetry. by apply Hterms, Hd'.
  - destruct (d !! monom) as [c|] eqn:H2; [|done].
    apply Hterms, Hd' in H2. congruence.
Qed.

(** *** The list of terms and the sparse form *)

(** X15: for a polynomial with at least one term, the dictionary built
    from the pairs of [dmp_list_terms] is the one [dmp_to_dict]
    returns. *)
Theorem list_terms_to_dict (u : nat) (f : dmp K u) :
  (∃ monom c, dmp_term u f monom c) →
  dmp_to_dict u f false = Ok (list_to_map (dmp_list_terms u f None)).
Proof.
  intros (monom0 & c0 & Hterm0).
  assert (∀ monom c, (monom, c) ∈ _rec_list_terms u f [] ↔
                     dmp_term u f monom c) as Hin'.
  { intros monom c. rewrite elem_of_rec_list_terms. split.
    - by intros (es & -> & Ht).
    - intros Ht. by exists monom. }
  assert (dmp_list_terms u f None = _rec_list_terms u f []) as Heq.
  { unfold dmp_list_terms. apply Hin' in Hterm0.
    destruct (_rec_list_terms u f []); [|done].
    by apply elem_of_nil in Hterm0. }
  pose proof (NoDup_rec_list_terms u f []) as Hnd.
  rewrite <- Heq in Hnd.
  assert (∀ monom c, (monom, c) ∈ dmp_list_terms u f None ↔
                     dmp_term u f monom c) as Hin.
  { intros monom c. rewrite Heq. apply Hin'. }
  destruct (dmp_to_dict_spec u f) as (d & -> & Hd). f_equal.
  assert (NoDup (dmp_list_terms u f None).*1) as Hkeys.
  { apply NoDup_fmap_fst; [|done].
    intros m c1 c2 [H1 _]%Hin [H2 _]%Hin. congruence. }
  apply map_eq. intros monom.
  destruct (d !! monom) as [c|] eqn:H1.
  - symmetry. apply elem_of_list_to_map; [done|]. by apply Hin, Hd.
  - symmetry. apply not_elem_of_list_to_map_1.
    intros ((m & c) & -> & Hmc)%list_elem_of_fmap.
    apply Hin, Hd in Hmc. simpl in H1. congruence.
Qed.

(** *** [_rec_strip] *)

(** X16: [_rec_strip(f, u)] satisfies the invariant at every level and
    has the terms of [f]; it is the only such polynomial, so that
    [_rec_strip] is idempotent and leaves alone every polynomial that
    satisfies the invariant. *)
Theorem rec_strip_canonical (u : nat) (f : dmp K u) :
  dmp_normal_p u (_rec_strip u f) = true ∧
  (∀ monom c, dmp_term u (_rec_strip u f) monom c ↔ dmp_term u f monom c) ∧
  (∀ g, dmp_normal_p u g = true →
        (∀ monom c, dmp_term u g monom c ↔ dmp_term u f monom c) →
        g = _rec_strip u f) ∧
  _rec_strip u (_rec_strip u f) = _rec_strip u f.
Proof.
  split; [apply rec_strip_normal|]. split; [apply rec_strip_terms|]. split.
  - intros g Hg Hterms. apply normal_ext; [done|apply rec_strip_normal|].
    intros monom c. by rewrite rec_strip_terms.
  - apply rec_strip_id, rec_strip_normal.
Qed.
End SparseForms.

Section Rekeying.
Context {K : Type} {D : Domain K}.
Implicit Types (c : K) (d : gmap (list Z) K).

(** *** Loops that move every entry of a dictionary to a new key *)

Lemma for_items_rekey {I J} `{Countable I} `{Countable J} {A}
    (body : gmap J A → I → A → result (gmap J A)) (ψ : I → J)
    (d : gmap I A) :
  (∀ k v, d !! k = Some v → ∀ acc, acc !! ψ k = None →
          body acc k v = Ok (<[ ψ k := v ]> acc)) →
  (∀ k1 k2, is_Some (d !! k1) → is_Some (d !! k2) → ψ k1 = ψ k2 → k1 = k2) →
  ∃ r, for_items d body ∅ = Ok r ∧
       ∀ k' v, r !! k' = Some v ↔ ∃ k, ψ k = k' ∧ d !! k = Some v.
Proof.
  unfold for_items.
  apply (map_fold_weak_ind (λ res (m : gmap I A),
    (∀ k v, m !! k = Some v → ∀ acc, acc !! ψ k = None →
            body acc k v = Ok (<[ ψ k := v ]> acc)) →
    (∀ k1 k2, is_Some (m !! k1) → is_Some (m !! k2) → ψ k1 = ψ k2 → k1 = k2) →
    ∃ r, res = Ok r ∧
         ∀ k' v, r !! k' = Some v ↔ ∃ k, ψ k = k' ∧ m !! k = Some v)).
  { intros _ _. exists ∅. split; [done|]. intros k' v.
    rewrite lookup_empty. split; [done|]. intros (k & _ & Hk).
    by rewrite lookup_empty in Hk. }
  clear d. intros i x m res Hi IH Hbody Hinj.
  destruct IH as (r & -> & Hr).
  { intros k v Hk. apply Hbody. rewrite lookup_insert_ne; [done|].
    intros <-. congruence. }
  { intros k1 k2 [v1 H1] [v2 H2]. apply Hinj.
    - exists v1. rewrite lookup_insert_ne; [done|]. intros <-. congruence.
    - exists v2. rewrite lookup_insert_ne; [done|]. intros <-. congruence. }
  cbn [mbind result_bind]. rewrite (Hbody i x).
  2:{ apply lookup_insert_eq. }
  2:{ destruct (r !! ψ i) as [v|] eqn:Hv; [|done].
      apply Hr in Hv as (k & Hk & Hv).
      assert (k = i) as ->; [|congruence].
      apply Hinj; [|exists x; apply lookup_insert_eq|done].
      exists v. rewrite lookup_insert_ne; [done|]. intros <-. congruence. }
  eexists. split; [done|]. intros k' v.
  destruct (decide (k' = ψ i)) as [->|Hne].
  - rewrite lookup_insert_eq. split.
    + intros [= <-]. exists i. by rewrite lookup_insert_eq.
    + intros (k & Hk & Hv).
      assert (k = i) as ->.
      { apply Hinj; [by exists v| |done]. exists x. apply lookup_insert_eq. }
      rewrite lookup_insert_eq in Hv. done.
  - rewrite lookup_insert_ne by done. rewrite Hr. split.
    + intros (k & Hk & Hv). exists k. split; [done|].
      rewrite lookup_insert_ne; [done|]. intros <-. congruence.
    + intros (k & Hk & Hv). exists k. split; [done|].
      rewrite lookup_insert_ne in Hv; [done|]. intros <-. congruence.
Qed.

(** *** Exchanging two entries of a tuple *)

Lemma py_slice_nat {A} (l : list A) (a b : nat) :
  a ≤ length l → b ≤ length l →
  py_slice l (Z.of_nat a) (Z.of_nat b) = take (b - a) (drop a l).
Proof.
  intros Ha Hb. unfold py_slice.
  assert (∀ n : nat, n ≤ length l → py_bound (len l) (Z.of_nat n) = n) as Hn.
  { intros n Hle. unfold py_bound, len.
    destruct (Z.ltb_spec (Z.of_nat n) 0); lia. }
  by rewrite !Hn.
Qed.

Lemma exchange_decomposed (a b r : list Z) (x y : Z) :
  exchange (length a) (length a + S (length b)) (a ++ x :: b ++ y :: r)
  = a ++ y :: b ++ x :: r.
Proof.
  unfold exchange.
  assert ((a ++ x :: b ++ y :: r) !! length a = Some x) as ->.
  { by rewrite list_lookup_middle. }
  assert ((a ++ x :: b ++ y :: r) !! (length a + S (length b)) = Some y) as ->.
  { rewrite lookup_app_r by lia.
    replace (length a + S (length b) - length a) with (S (length b)) by lia.
    simpl. by rewrite list_lookup_middle. }
  simpl.
  rewrite (insert_app_r_alt a) by lia.
  replace (length a + S (length b) - length a) with (S (length b)) by lia.
  simpl. rewrite (insert_app_r_alt b) by lia.
  rewrite Nat.sub_diag. simpl.
  rewrite (insert_app_r_alt a) by lia.
  rewrite Nat.sub_diag. done.
Qed.

Lemma decompose_at (m : list Z) (i j : nat) :
  i < j < length m →
  ∃ a x b y r,
    m = a ++ x :: b ++ y :: r ∧ length a = i ∧ j = length a + S (length b) ∧
    a = take i m ∧ b = take (j - S i) (drop (S i) m) ∧ r = drop (S j) m ∧
    m !! i = Some x ∧ m !! j = Some y.
Proof.
  intros Hij.
  destruct (lookup_lt_is_Some_2 m i) as [x Hx]; [lia|].
  destruct (lookup_lt_is_Some_2 m j) as [y Hy]; [lia|].
  assert (drop (S i) m !! (j - S i) = Some y) as Hy'.
  { rewrite lookup_drop. rewrite <- Hy. f_equal. lia. }
  exists (take i m), x, (take (j - S i) (drop (S i) m)), y, (drop (S j) m).
  assert (length (take i m) = i) as Hla by (rewrite length_take; lia).
  assert (length (take (j - S i) (drop (S i) m)) = j - S i) as Hlb.
  { rewrite length_take, length_drop. lia. }
  split.
  - rewrite <- (take_drop_middle m i x Hx) at 1. f_equal. f_equal.
    rewrite <- (take_drop_middle _ _ y Hy') at 1. f_equal. f_equal.
    rewrite drop_drop. f_equal. lia.
  - rewrite Hla, Hlb. repeat split; try done. lia.
Qed.

Lemma exchange_involutive (m : list Z) (i j : nat) :
  i < j < length m → exchange i j (exchange i j m) = m.
Proof.
  intros Hij.
  destruct (decompose_at m i j Hij) as (a & x & b & y & r & Hm & Hi & Hj & _).
  rewrite Hm at 1 2. rewrite Hj, <- Hi.
  rewrite !exchange_decomposed. done.
Qed.

Lemma length_exchange (m : list Z) (i j : nat) :
  length (exchange i j m) = length m.
Proof. unfold exchange. by rewrite !length_insert. Qed.

Lemma Forall_exchange (P : Z → Prop) (m : list Z) (i j : nat) :
  i < j < length m → Forall P m → Forall P (exchange i j m).
Proof.
  intros Hij Hm.
  destruct (decompose_at m i j Hij) as (a & x & b & y & r & Hm' & Hi & Hj & _).
  rewrite Hm' in Hm |- *. rewrite Hj, <- Hi, exchange_decomposed.
  rewrite !Forall_app, !Forall_cons, !Forall_app, !Forall_cons in Hm |- *.
  tauto.
Qed.

(** The key that the loop of [dmp_swap] builds. *)
Lemma swap_key (m : list Z) (i j : nat) :
  i < j < length m →
  ∃ mi mj,
    py_index m (Z.of_nat j) = Ok mj ∧ py_index m (Z.of_nat i) = Ok mi ∧
    py_slice m 0 (Z.of_nat i) ++ [mj]
      ++ py_slice m (Z.of_nat i + 1) (Z.of_nat j)
      ++ [mi] ++ py_slice m (Z.of_nat j + 1) (len m)
    = exchange i j m.
Proof.
  intros Hij.
  destruct (decompose_at m i j Hij)
    as (a & x & b & y & r & Hm & Hi & Hj & Ha & Hb & Hc & Hx & Hy).
  exists x, y. split; [by apply py_index_nat|]. split; [by apply py_index_nat|].
  change 0%Z with (Z.of_nat 0).
  replace (Z.of_nat i + 1)%Z with (Z.of_nat (S i)) by lia.
  replace (Z.of_nat j + 1)%Z with (Z.of_nat (S j)) by lia.
  unfold len. rewrite !py_slice_nat by lia.
  rewrite drop_0, Nat.sub_0_r, <- Ha, <- Hb.
  rewrite take_ge by (rewrite length_drop; lia). rewrite <- Hc.
  rewrite Hm, Hj, <- Hi, exchange_decomposed. done.
Qed.

(** *** [dmp_swap] *)

Lemma dmp_swap_run (u : nat) (f : dmp K u) (i j : nat) :
  i < j ≤ u →
  ∃ g, dmp_swap u f (Z.of_nat i) (Z.of_nat j) = Ok g ∧
       dmp_normal_p u g = true ∧
       ∀ monom c, dmp_term u g monom c ↔
                  ∃ m, exchange i j m = monom ∧ dmp_term u f m c.
Proof.
  intros Hij. unfold dmp_swap.
  assert ((Z.of_nat i <? 0)%Z = false) as -> by lia.
  assert ((Z.of_nat j <? 0)%Z = false) as -> by lia.
  assert ((Z.of_nat u <? Z.of_nat i)%Z = false) as -> by lia.
  assert ((Z.of_nat u <? Z.of_nat j)%Z = false) as -> by lia.
  assert ((Z.of_nat i =? Z.of_nat j)%Z = false) as -> by lia.
  cbn [orb].
  destruct (dmp_to_dict_spec u f) as (F & -> & HF).
  pose proof (to_dict_sparse_form u f F HF) as Hsp.
  cbn [mbind result_bind].
  match goal with
  | |- context [for_items F ?body ∅] =>
      destruct (for_items_rekey body (exchange i j) F) as (H & -> & HH)
  end.
  { intros k v Hk acc _. destruct (Hsp k v Hk) as (Hlen & _ & _).
    destruct (swap_key k i j) as (mi & mj & -> & -> & Hkey); [lia|].
    cbn [mbind result_bind]. by rewrite <- Hkey. }
  { intros k1 k2 [v1 H1] [v2 H2] Heq.
    destruct (Hsp k1 v1 H1) as (Hl1 & _ & _).
    destruct (Hsp k2 v2 H2) as (Hl2 & _ & _).
    rewrite <- (exchange_involutive k1 i j), <- (exchange_involutive k2 i j)
      by lia.
    by rewrite Heq. }
  cbn [mbind result_bind].
  destruct (dmp_from_dict_spec u H) as (g & -> & Hn & Hg).
  { intros monom c (k & <- & Hk)%HH.
    destruct (Hsp k c Hk) as (Hlen & Hnn & Hc).
    split; [by rewrite length_exchange|]. split; [|done].
    apply Forall_exchange; [lia|done]. }
  exists g. split; [done|]. split; [done|].
  intros monom c. rewrite Hg, HH.
  split; intros (m & Hm & Hc); exists m; (split; [done|]); by apply HF.
Qed.

(** X17: [dmp_swap(f, i, j, u, K)] raises an index error when [i] or [j]
    is outside [0..u] and returns [f] itself when [i = j]. For
    [0 <= i < j <= u] it returns a polynomial that satisfies the invariant
    and whose terms are the terms of [f] with the exponents at the
    positions [i] and [j] exchanged; swapping the result once more gives
    back every [f] that satisfies the invariant. *)
Theorem dmp_swap_spec (u : nat) (f : dmp K u) (i j : Z) :
  ((i < 0 ∨ j < 0 ∨ Z.of_nat u < i ∨ Z.of_nat u < j)%Z →
     dmp_swap u f i j = Raise IndexError) ∧
  ((0 ≤ i ≤ Z.of_nat u)%Z → i = j → dmp_swap u f i j = Ok f) ∧
  ((0 ≤ i < j)%Z → (j ≤ Z.of_nat u)%Z →
     ∃ g, dmp_swap u f i j = Ok g ∧
          dmp_normal_p u g = true ∧
          (∀ monom c, dmp_term u g monom c ↔
                      ∃ m, exchange (Z.to_nat i) (Z.to_nat j) m = monom ∧
                           dmp_term u f m c) ∧
          (dmp_normal_p u f = true → dmp_swap u g i j = Ok f)).
Proof.
  split; [|split].
  - intros Hout. unfold dmp_swap.
    destruct (Z.ltb_spec i 0); [done|]. destruct (Z.ltb_spec j 0); [done|].
    destruct (Z.ltb_spec (Z.of_nat u) i); [done|].
    destruct (Z.ltb_spec (Z.of_nat u) j); [done|]. lia.
  - intros Hi <-. unfold dmp_swap.
    destruct (Z.ltb_spec i 0); [lia|].
    destruct (Z.ltb_spec (Z.of_nat u) i); [lia|].
    by rewrite Z.eqb_refl.
  - intros Hij Hju.
    rewrite <- (Z2Nat.id i), <- (Z2Nat.id j) by lia.
    rewrite !Nat2Z.id.
    destruct (dmp_swap_run u f (Z.to_nat i) (Z.to_nat j)) as (g & Hg & Hn & Hterms);
      [lia|].
    exists g. split; [done|]. split; [done|]. split; [done|].
    intros Hf.
    destruct (dmp_swap_run u g (Z.to_nat i) (Z.to_nat j)) as (g' & Hg' & Hn' & Hterms');
      [lia|].
    rewrite Hg'. f_equal. apply normal_ext; [done..|].
    assert (∀ m c, dmp_term u f m c → length m = S u) as Hlen.
    { intros m c Hm. destruct (dmp_to_dict_spec u f) as (F & _ & HF).
      apply HF in Hm. by destruct (to_dict_sparse_form u f F HF m c Hm). }
    intros monom c. rewrite Hterms'. split.
    + intros (m & <- & (m0 & <- & Hm0)%Hterms).
      rewrite exchange_involutive; [done|]. rewrite (Hlen _ _ Hm0). lia.
    + intros Hm. exists (exchange (Z.to_nat i) (Z.to_nat j) monom). split.
      * apply exchange_involutive. rewrite (Hlen _ _ Hm). lia.
      * apply Hterms. by exists monom.
Qed.
End Rekeying.

Section ConstantTerm.
Context {K : Type} {D : Domain K}.
Implicit Types (c : K).

Lemma at_exponent_0_last {A} (l : list A) : at_exponent l 0 = last l.
Proof.
  unfold at_exponent, len. destruct l as [|x t] using rev_ind; [done|].
  rewrite last_snoc, length_app. simpl.
  rewrite bool_decide_eq_true_2 by lia.
  replace (Z.to_nat (Z.of_nat (length t + 1) - 1 - 0)) with (length t) by lia.
  by rewrite list_lookup_middle.
Qed.

(** X18: the ground trailing coefficient is the coefficient of the
    constant monomial: [dmp_ground_TC(f, u, K)] is the coefficient stored
    in [f] for the exponents [(0, ..., 0)], and zero when there is
    none. *)
Theorem dmp_ground_TC_constant (u : nat) (f : dmp K u) :
  dmp_ground_TC u f = dmp_coeff_or_zero u f (replicate (S u) 0%Z).
Proof.
  revert f. induction u as [|v IH]; intros f; cbn in f.
  - unfold dmp_coeff_or_zero. simpl. rewrite at_exponent_0_last.
    unfold poly_TC. by destruct f.
  - change (replicate (S (S v)) 0%Z) with (0%Z :: replicate (S v) 0%Z).
    rewrite dmp_coeff_or_zero_S, at_exponent_0_last.
    change (dmp_ground_TC (S v) f)
      with (match last f with
            | None => K_zero
            | Some x => dmp_ground_TC v x
            end).
    destruct (last f) as [x|]; simpl; [apply IH|].
    unfold dmp_coeff_or_zero. by rewrite dmp_coeff_zero.
Qed.
End ConstantTerm.

Section Normalisation.
Context {R K : Type} {D : Domain K} (K_normal : R → K).

Lemma dmp_normal_S (v : nat) (f : list (dmp R v)) :
  dmp_normal K_normal (S v) f =
    dmp_strip (S v) (dmp_normal K_normal v <$> f).
Proof. done. Qed.

(** X19: [dmp_normal(f, u, K)] satisfies the invariant at every level,
    whatever the raw coefficients of [f] are, and its terms are the
    images under [K.normal] of the stored coefficients of [f] that are not
    mapped to zero. *)
Theorem dmp_normal_spec (u : nat) (f : dmp R u) :
  dmp_normal_p u (dmp_normal K_normal u f) = true ∧
  ∀ monom c,
    dmp_term u (dmp_normal K_normal u f) monom c ↔
    ∃ r, dmp_coeff u f monom = Some r ∧ c = K_normal r ∧ K_truth c = true.
Proof.
  revert f. induction u as [|v IH]; intros f; cbn in f.
  - split; [apply dup_strip_stripped|].
    intros monom c. change (dmp_normal K_normal 0 f) with (dup_normal K_normal f).
    unfold dup_normal. rewrite dup_strip_terms.
    unfold dmp_term. simpl.
    destruct monom as [|e [|e' es]].
    + split; [by intros [? _]|by intros (r & ? & _)].
    + rewrite at_exponent_fmap. split.
      * intros [Hc Ht]. destruct (at_exponent f e) as [r|]; [|done].
        injection Hc as <-. by exists r.
      * intros (r & -> & -> & Ht). done.
    + split; [by intros [? _]|by intros (r & ? & _)].
  - rewrite dmp_normal_S. split.
    + rewrite dmp_normal_p_S, dmp_strip_stripped, andb_true_l.
      apply forallb_Forall. rewrite dmp_strip_S.
      assert (Forall (λ x, dmp_normal_p v x = true)
                     (dmp_normal K_normal v <$> f)) as Hall.
      { apply Forall_fmap, Forall_forall. intros x _. apply IH. }
      destruct (dmp_zero_p (S v) _); [done|]. case_bool_decide.
      * rewrite dmp_zero_S. constructor; [apply dmp_normal_zero|constructor].
      * by apply Forall_drop.
    + intros monom c. rewrite dmp_strip_terms, dmp_term_S.
      destruct monom as [|e es].
      { split; [by intros (k & es & x & ? & _)|by intros (r & ? & _)]. }
      change (dmp_coeff (S v) f (e :: es))
        with (x ← at_exponent f e; dmp_coeff v x es).
      split.
      * intros (k & es' & y & [= <- <-] & Hy & Hterm).
        rewrite at_exponent_fmap in Hy.
        destruct (at_exponent f e) as [x|]; [|done].
        injection Hy as <-. by apply IH in Hterm.
      * intros (r & Hr & Hc).
        destruct (at_exponent f e) as [x|] eqn:Hx; [|done].
        exists e, es, (dmp_normal K_normal v x). split; [done|]. split.
        -- by rewrite at_exponent_fmap, Hx.
        -- apply IH. by exists r.
Qed.
End Normalisation.

Section SlicingIn.
Context {K : Type} {D : Domain K}.
Implicit Types (c : K).

(** X20: at a level [u >= 1], when every term of [f] has its exponent of
    the variable [j] inside [m <= k < n], [dmp_slice_in(f, m, n, j, u, K)]
    keeps all the terms: it returns [f] stripped at every level, which is
    [f] itself when [f] satisfies the invariant. *)
Theorem dmp_slice_in_contains (v : nat) (f : dmp K (S v)) (m n j : Z) :
  (0 ≤ j ≤ Z.of_nat (S v))%Z →
  (∀ monom c, dmp_term (S v) f monom c →
              ∃ k, monom !! Z.to_nat j = Some k ∧ (m ≤ k < n)%Z) →
  dmp_slice_in (S v) f m n j = Ok (_rec_strip (S v) f) ∧
  (dmp_normal_p (S v) f = true → dmp_slice_in (S v) f m n j = Ok f).
Proof.
  intros Hj Hin.
  assert (dmp_slice_in (S v) f m n j = Ok (_rec_strip (S v) f)) as Hrun.
  { unfold dmp_slice_in.
    assert ((j <? 0)%Z = false) as -> by lia.
    destruct (Z.ltb_spec (Z.of_nat (S v)) j) as [?|_]; [lia|].
    cbn [orb].
    destruct (to_dict_from_dict_rec_strip (S v) f) as (F & HF & Hback).
    destruct (dmp_to_dict_spec (S v) f) as (F' & HF' & Hspec).
    assert (F' = F) as -> by congruence. clear HF'.
    rewrite HF. cbn [mbind result_bind].
    match goal with
    | |- context [for_items F ?body ∅] =>
        destruct (for_items_rekey body (λ monom, monom) F) as (H & -> & HH)
    end.
    { intros monom c Hm acc Hacc.
      destruct (Hin monom c) as (k & Hk & Hr); [by apply Hspec|].
      rewrite <- (Z2Nat.id j) at 1 by lia.
      rewrite (py_index_nat _ _ _ Hk). cbn [mbind result_bind].
      assert ((k <? m)%Z = false) as -> by lia.
      assert ((n <=? k)%Z = false) as -> by lia.
      cbn [orb]. by rewrite Hacc. }
    { by intros k1 k2 _ _ ->. }
    cbn [mbind result_bind].
    assert (H = F) as ->; [|done].
    apply map_eq. intros monom.
    destruct (H !! monom) as [c|] eqn:H1.
    - apply HH in H1 as (k & -> & Hk). done.
    - destruct (F !! monom) as [c|] eqn:H2; [|done].
      assert (H !! monom = Some c) as H3 by (apply HH; by exists monom).
      congruence. }
  split; [done|]. intros Hn. by rewrite Hrun, rec_strip_id.
Qed.
End SlicingIn.

Section Permuting.
Context {K : Type} {D : Domain K}.
Implicit Types (c : K).

(** The inner loop of [dmp_permute]: it stores the entry [k] of [es] at
    the position that the entry [k] of [ps] names. *)
Lemma permute_loop (es ps : list Z) (acc : list Z) :
  length es = length ps →
  NoDup ps →
  Forall (λ p, 0 ≤ p < len acc)%Z ps →
  ∃ acc',
    for_each (zip es ps) (λ new_exp '(e, p), py_setitem new_exp p e) acc
      = Ok acc' ∧
    length acc' = length acc ∧
    (∀ k p, ps !! k = Some p → acc' !! Z.to_nat p = es !! k) ∧
    (∀ q, Z.of_nat q ∉ ps → acc' !! q = acc !! q).
Proof.
  revert es acc. induction ps as [|p ps IH]; intros es acc Hlen Hnd Hr.
  - destruct es; [|done]. exists acc. repeat split; try done.
  - destruct es as [|e es]; [done|]. simpl.
    apply NoDup_cons in Hnd as [Hp Hnd]. apply Forall_cons in Hr as [Hp0 Hr].
    assert (py_setitem acc p e = Ok (<[ Z.to_nat p := e ]> acc)) as ->.
    { pose proof (py_setitem_in_range acc (Z.to_nat p) e) as H.
      rewrite Z2Nat.id in H by lia. apply H. unfold len in Hp0. lia. }
    simpl.
    destruct (IH es (<[ Z.to_nat p := e ]> acc)) as (acc' & -> & Hl & Hin & Hout).
    { simpl in Hlen. lia. }
    { done. }
    { unfold len in *. by rewrite length_insert. }
    exists acc'. split; [done|]. rewrite length_insert in Hl. split; [done|].
    split.
    + intros [|k] q Hq; simpl in Hq.
      * injection Hq as <-. rewrite Hout.
        -- rewrite list_lookup_insert_eq; [done|]. unfold len in Hp0. lia.
        -- rewrite Z2Nat.id by lia. done.
      * by apply Hin.
    + intros q Hq. apply not_elem_of_cons in Hq as [Hne Hq].
      rewrite (Hout q Hq). rewrite list_lookup_insert_ne; [done|]. lia.
Qed.

Lemma term_length (u : nat) (f : dmp K u) monom c :
  dmp_term u f monom c → length monom = S u.
Proof.
  intros Hm. destruct (dmp_to_dict_spec u f) as (F & _ & HF).
  apply HF in Hm. by destruct (to_dict_sparse_form u f F HF monom c Hm).
Qed.

Lemma dmp_permute_run (u : nat) (f : dmp K u) (P : list Z) :
  P ≡ₚ Z.of_nat <$> seq 0 (S u) →
  ∃ g, dmp_permute u f P = Ok g ∧
       dmp_normal_p u g = true ∧
       ∀ monom c,
         dmp_term u g monom c ↔
         ∃ m, dmp_term u f m c ∧ length monom = S u ∧
              ∀ k p, P !! k = Some p → monom !! Z.to_nat p = m !! k.
Proof.
  intros HP.
  assert (length P = S u) as HlenP.
  { by rewrite HP, length_fmap, length_seq. }
  assert (NoDup P) as Hnd.
  { rewrite HP. apply NoDup_fmap_2; [apply Nat2Z.inj'|apply NoDup_seq]. }
  assert (Forall (λ p, 0 ≤ p < Z.of_nat (S u))%Z P) as Hrange.
  { rewrite HP. apply Forall_fmap, Forall_forall.
    intros q Hq%elem_of_seq. simpl. lia. }
  assert (∀ q, q < S u → ∃ k, P !! k = Some (Z.of_nat q)) as Hsurj.
  { intros q Hq. apply list_elem_of_lookup_1. rewrite HP.
    apply list_elem_of_fmap_2, elem_of_seq. lia. }
  set (body := λ (new_exp : list Z) '(e, p), py_setitem new_exp p e).
  assert (∀ exp, length exp = S u →
    ∃ ne, for_each (zip exp P) body (py_repeat 0%Z (len exp)) = Ok ne ∧
          length ne = S u ∧
          ∀ k p, P !! k = Some p → ne !! Z.to_nat p = exp !! k) as Hkey.
  { intros exp Hle.
    destruct (permute_loop exp P (py_repeat 0%Z (len exp)))
      as (ne & Hne & Hl & Hin & _); [lia|done| |].
    { unfold py_repeat, len. rewrite length_replicate, Nat2Z.id, Hle. done. }
    exists ne. split; [done|]. split; [|done].
    rewrite Hl. unfold py_repeat, len. by rewrite length_replicate, Nat2Z.id. }
  set (ψ := λ exp, match for_each (zip exp P) body (py_repeat 0%Z (len exp)) with
                   | Ok ne => ne
                   | Raise _ => []
                   end).
  assert (∀ exp, length exp = S u →
    for_each (zip exp P) body (py_repeat 0%Z (len exp)) = Ok (ψ exp) ∧
    length (ψ exp) = S u ∧
    ∀ k p, P !! k = Some p → ψ exp !! Z.to_nat p = exp !! k) as Hψ.
  { intros exp Hle. destruct (Hkey exp Hle) as (ne & Hne & Hl & Hin).
    unfold ψ. rewrite Hne. done. }
  assert (∀ m monom, length m = S u → length monom = S u →
    (∀ k p, P !! k = Some p → monom !! Z.to_nat p = m !! k) →
    ψ m = monom) as Hdet.
  { intros m monom Hlm Hlmon Hpt. destruct (Hψ m Hlm) as (_ & Hl & Hin).
    apply list_eq. intros q. destruct (decide (q < S u)) as [Hq|Hq].
    - destruct (Hsurj q Hq) as [k Hk].
      specialize (Hin k _ Hk). specialize (Hpt k _ Hk).
      rewrite Nat2Z.id in Hin, Hpt. congruence.
    - rewrite !lookup_ge_None_2 by lia. done. }
  unfold dmp_permute.
  destruct (dmp_to_dict_spec u f) as (F & -> & HF).
  pose proof (to_dict_sparse_form u f F HF) as Hsp.
  cbn [mbind result_bind].
  match goal with
  | |- context [for_items F ?b ∅] =>
      destruct (for_items_rekey b ψ F) as (H & -> & HH)
  end.
  { intros k v Hk acc _. destruct (Hsp k v Hk) as (Hlen & _ & _).
    destruct (Hψ k Hlen) as (Hrun & _). fold body. by rewrite Hrun. }
  { intros k1 k2 [v1 H1] [v2 H2] Heq.
    destruct (Hsp k1 v1 H1) as (Hl1 & _ & _).
    destruct (Hsp k2 v2 H2) as (Hl2 & _ & _).
    destruct (Hψ k1 Hl1) as (_ & _ & Hin1).
    destruct (Hψ k2 Hl2) as (_ & _ & Hin2).
    apply list_eq. intros i. destruct (decide (i < S u)) as [Hi|Hi].
    - destruct (lookup_lt_is_Some_2 P i) as [p Hp]; [lia|].
      rewrite <- (Hin1 i p Hp), <- (Hin2 i p Hp). by rewrite Heq.
    - rewrite !lookup_ge_None_2 by lia. done. }
  cbn [mbind result_bind].
  destruct (dmp_from_dict_spec u H) as (g & -> & Hn & Hg).
  { intros monom c (k & <- & Hk)%HH.
    destruct (Hsp k c Hk) as (Hlen & Hnn & Hc).
    destruct (Hψ k Hlen) as (_ & Hl & Hin).
    split; [done|]. split; [|done].
    apply Forall_lookup. intros q e Hq.
    assert (q < S u) as Hqu by (apply lookup_lt_Some in Hq; lia).
    destruct (Hsurj q Hqu) as [i Hi]. specialize (Hin i _ Hi).
    rewrite Nat2Z.id, Hq in Hin. symmetry in Hin.
    rewrite Forall_lookup in Hnn. by apply (Hnn i e). }
  assert (∀ monom c,
    dmp_term u g monom c ↔
    ∃ m, dmp_term u f m c ∧ length monom = S u ∧
         ∀ k p, P !! k = Some p → monom !! Z.to_nat p = m !! k) as Hterms.
  { intros monom c. rewrite Hg, HH. split.
    - intros (k & <- & Hk). destruct (Hsp k c Hk) as (Hlen & _ & _).
      destruct (Hψ k Hlen) as (_ & Hl & Hin).
      exists k. split; [by apply HF|]. done.
    - intros (m & Hm & Hl & Hpt). exists m. split; [|by apply HF].
      apply Hdet; [|done..]. by apply (term_length u f m c). }
  exists g. split; [done|]. split; [done|]. done.
Qed.

(** X21: for a permutation [P] of [0..u], [dmp_permute(f, P, u, K)] never
    raises; it returns a polynomial that satisfies the invariant and whose
    terms are the terms of [f] with the exponent at every position [k]
    moved to the position [P[k]]. With the identity permutation it gives
    back every [f] that satisfies the invariant. *)
Theorem dmp_permute_spec (u : nat) (f : dmp K u) (P : list Z) :
  P ≡ₚ Z.of_nat <$> seq 0 (S u) →
  ∃ g, dmp_permute u f P = Ok g ∧
       dmp_normal_p u g = true ∧
       (∀ monom c,
          dmp_term u g monom c ↔
          ∃ m, dmp_term u f m c ∧ length monom = S u ∧
               ∀ k p, P !! k = Some p → monom !! Z.to_nat p = m !! k) ∧
       (P = Z.of_nat <$> seq 0 (S u) → dmp_normal_p u f = true → g = f).
Proof.
  intros HP.
  destruct (dmp_permute_run u f P HP) as (g & Hg & Hn & Hterms).
  exists g. split; [done|]. split; [done|]. split; [done|].
  intros HPid Hf. apply normal_ext; [done..|].
  intros monom c. rewrite Hterms. split.
  - intros (m & Hm & Hl & Hpt).
    assert (monom = m) as ->; [|done].
    apply list_eq. intros i. destruct (decide (i < S u)) as [Hi|Hi].
    + rewrite <- (Hpt i (Z.of_nat i)); [by rewrite Nat2Z.id|].
      rewrite HPid, list_lookup_fmap, lookup_seq_lt by lia. done.
    + pose proof (term_length u f m c Hm).
      rewrite !lookup_ge_None_2 by lia. done.
  - intros Hm. exists monom. split; [done|].
    split; [by apply (term_length u f monom c)|].
    intros k p Hk. rewrite HPid, list_lookup_fmap in Hk.
    destruct (seq 0 (S u) !! k) as [k'|] eqn:Hk'; [|done].
    apply lookup_seq in Hk' as [-> _]. injection Hk as <-.
    by rewrite Nat2Z.id.
Qed.
End Permuting.

Section Inflating.
Context {K : Type} {D : Domain K}.
Implicit Types (c : K).

(** *** Lists with [m - 1] fillers between their entries *)

Lemma foldl_fill_lookup {A} (z : A) (m : nat) (x0 : A) (rest : list A) :
  1 ≤ m →
  let res := foldl (λ r y, r ++ replicate (m - 1) z ++ [y]) [x0] rest in
  length res = m * length rest + 1 ∧
  (∀ i, res !! (m * i) = (x0 :: rest) !! i) ∧
  (∀ j y, res !! j = Some y → j `mod` m ≠ 0 → y = z).
Proof.
  intros Hm. induction rest as [|x rest IH] using rev_ind; simpl.
  - split; [lia|]. split.
    + intros [|i]; [by rewrite Nat.mul_0_r|].
      replace (m * S i) with (S (m * i + (m - 1))) by lia. done.
    + intros [|j] y Hj Hmod; [|done].
      rewrite Nat.Div0.mod_0_l in Hmod. done.
  - rewrite foldl_app. simpl.
    set (res := foldl (λ r y, r ++ replicate (m - 1) z ++ [y]) [x0] rest) in *.
    destruct IH as (Hlen & Hmul & Hoth).
    rewrite !length_app, length_replicate, Hlen. simpl.
    split; [lia|]. split.
    + intros i. destruct (decide (i ≤ length rest)) as [Hi|Hi].
      * rewrite lookup_app_l by nia. rewrite Hmul.
        rewrite !lookup_cons. destruct i as [|i]; [done|].
        rewrite lookup_app_l by lia. done.
      * destruct (decide (i = S (length rest))) as [->|Hne].
        -- rewrite lookup_app_r by nia. rewrite lookup_app_r;
             rewrite length_replicate; [|nia].
           replace (m * S (length rest) - length res - (m - 1)) with 0 by nia.
           simpl. rewrite lookup_app_r by lia.
           by rewrite Nat.sub_diag.
        -- rewrite lookup_ge_None_2.
           2:{ rewrite !length_app, length_replicate. simpl. nia. }
           symmetry. apply lookup_ge_None_2. simpl. rewrite length_app.
           simpl. lia.
    + intros j y Hj Hmod.
      destruct (decide (j < length res)) as [Hlt|Hge].
      { rewrite lookup_app_l in Hj by done. by apply (Hoth j). }
      rewrite lookup_app_r in Hj by lia.
      destruct (decide (j - length res < m - 1)) as [Hlt'|Hge'].
      { rewrite lookup_app_l in Hj by (rewrite length_replicate; lia).
        by apply lookup_replicate in Hj as [-> _]. }
      rewrite lookup_app_r in Hj by (rewrite length_replicate; lia).
      rewrite length_replicate in Hj.
      destruct (j - length res - (m - 1)) as [|n] eqn:Hn; [|done].
      exfalso. apply Hmod.
      replace j with (0 + (length rest + 1) * m) by nia.
      rewrite Nat.Div0.mod_add. apply Nat.Div0.mod_0_l.
Qed.

Lemma foldl_fill_at_exponent {A} (z : A) (m : Z) (x0 : A) (rest : list A) :
  (1 ≤ m)%Z →
  let res := foldl (λ r y, r ++ py_repeat z (m - 1) ++ [y]) [x0] rest in
  len res = (m * (len (x0 :: rest) - 1) + 1)%Z ∧
  head res = Some x0 ∧
  (∀ k, at_exponent res (m * k) = at_exponent (x0 :: rest) k) ∧
  (∀ e y, at_exponent res e = Some y → ¬ (m | e)%Z → y = z).
Proof.
  intros Hm. unfold py_repeat.
  replace (Z.to_nat (m - 1)) with (Z.to_nat m - 1) by lia.
  set (q := Z.to_nat m). assert (1 ≤ q) as Hq by lia.
  assert (m = Z.of_nat q) as Hmq by lia.
  destruct (foldl_fill_lookup z q x0 rest Hq) as (Hlen & L1 & L2).
  simpl. set (res := foldl _ [x0] rest) in *.
  assert (len res = m * (len (x0 :: rest) - 1) + 1)%Z as Hl.
  { unfold len. simpl. rewrite Hlen. lia. }
  split; [done|]. split.
  { rewrite head_lookup. specialize (L1 0). by rewrite Nat.mul_0_r in L1. }
  split.
  - intros k. unfold at_exponent. rewrite Hl.
    case_bool_decide as H1; case_bool_decide as H2; try nia; [|done].
    replace (Z.to_nat (m * (len (x0 :: rest) - 1) + 1 - 1 - m * k))
      with (q * Z.to_nat (len (x0 :: rest) - 1 - k)) by nia.
    apply L1.
  - intros e y He Hdiv. unfold at_exponent in He. rewrite Hl in He.
    case_bool_decide as H1; [|done].
    apply (L2 _ _ He). intros H0. apply Hdiv.
    apply Nat.Div0.mod_divides in H0 as [t Ht].
    exists (len (x0 :: rest) - 1 - Z.of_nat t)%Z. nia.
Qed.

Lemma divide_cases (m e : Z) :
  (1 ≤ m)%Z → (∃ k, e = (k * m)%Z) ∨ ¬ (m | e)%Z.
Proof.
  intros Hm. destruct (decide (e `mod` m = 0)%Z) as [H0|H0].
  - left. exists (e `div` m)%Z. rewrite Z.mul_comm.
    apply Z.div_exact; [lia|done].
  - right. intros Hd. apply H0. apply Z.mod_divide; [lia|done].
Qed.

(** *** [dup_inflate] on lists without a leading zero *)

Lemma dup_inflate_normal (g : list K) (m : Z) :
  (1 ≤ m)%Z → dup_stripped g = true →
  ∃ h, dup_inflate g m = Ok h ∧ dup_stripped h = true ∧
       (g = [] → h = []) ∧
       ∀ e c, at_exponent h e = Some c ∧ K_truth c = true ↔
              ∃ k, at_exponent g k = Some c ∧ K_truth c = true ∧
                   e = (k * m)%Z.
Proof.
  intros Hm Hs.
  destruct (dup_inflate_run g m Hm) as (h & Hh & Hnil & Hdeg & Hmul & Hoth).
  exists h. split; [done|]. split; [|split; [done|]].
  - destruct g as [|c0 rest]; [by rewrite Hnil|].
    specialize (Hdeg ltac:(done)).
    destruct h as [|c' t].
    { unfold dup_degree, len in Hdeg. simpl in Hdeg. lia. }
    simpl. pose proof (at_exponent_head c' t) as H1.
    pose proof (at_exponent_head c0 rest) as H2.
    unfold dup_degree in Hdeg. rewrite Hdeg, Hmul, H2 in H1.
    injection H1 as <-. done.
  - intros e c. split.
    + intros [He Hc]. destruct (divide_cases m e Hm) as [[k ->]|Hn].
      * exists k. rewrite Z.mul_comm, Hmul in He. done.
      * apply (Hoth e c He) in Hn. apply truth_true in Hc. done.
    + intros (k & Hk & Hc & ->). by rewrite Z.mul_comm, Hmul.
Qed.

(** *** [_rec_inflate] *)

Lemma _rec_inflate_S (w : nat) (g : list (dmp K w)) (M : list Z) (i : Z) :
  _rec_inflate (S w) g M i =
    (m ← py_index M i;
     if (m <=? 0)%Z then Raise IndexError
     else
       g ← mapM (λ x, _rec_inflate w x M (i + 1)%Z) g;
       g0 ← py_index g 0;
       Ok (foldl (λ result coeff,
                    result ++ py_repeat (dmp_zero w) (m - 1) ++ [coeff])
                 [g0] (py_slice g 1 (len g)))).
Proof. done. Qed.

Lemma rec_inflate_spec (v : nat) (g : dmp K v) (M : list Z) (i : nat) :
  dmp_normal_p v g = true →
  (∀ t, t ≤ v → ∃ m, M !! (i + t) = Some m ∧ (1 ≤ m)%Z) →
  ∃ h, _rec_inflate v g M (Z.of_nat i) = Ok h ∧
       dmp_normal_p v h = true ∧
       (dmp_zero_p v g = true → h = g) ∧
       ∀ monom c, dmp_term v h monom c ↔
                  ∃ m', dmp_term v g m' c ∧
                        monom = zip_with Z.mul m' (drop i M).
Proof.
  revert g i. induction v as [|w IH]; intros g i Hn HM; cbn in g.
  - destruct (HM 0) as (m & Hm & Hm1); [lia|]. rewrite Nat.add_0_r in Hm.
    simpl. rewrite (py_index_nat _ _ _ Hm). simpl.
    destruct (dup_inflate_normal g m Hm1 Hn) as (h & -> & Hs & Hnil & Hterms).
    exists h. split; [done|]. split; [done|]. split.
    { intros Hz. apply bool_decide_eq_true in Hz.
      apply length_zero_iff_nil in Hz. subst g. by rewrite Hnil. }
    intros monom c. rewrite dmp_term_0. rewrite (drop_S _ _ _ Hm). split.
    + intros (e & -> & He). apply Hterms in He as (k & Hk & Hc & ->).
      exists [k]. split; [|done]. apply dmp_term_0. by exists k.
    + intros (m' & (k & -> & Hk & Hc)%dmp_term_0 & ->).
      exists (k * m)%Z. split; [done|]. apply Hterms. by exists k.
  - destruct (HM 0) as (m & Hm & Hm1); [lia|]. rewrite Nat.add_0_r in Hm.
    rewrite _rec_inflate_S, (py_index_nat _ _ _ Hm). cbn [mbind result_bind].
    destruct (Z.leb_spec m 0) as [?|_]; [lia|].
    rewrite dmp_normal_p_S, dmp_stripped_S in Hn.
    apply andb_true_iff in Hn as [Hs Hall]. apply forallb_Forall in Hall.
    set (R := λ (x y : dmp K w),
      dmp_normal_p w y = true ∧
      (dmp_zero_p w x = true → y = x) ∧
      ∀ monom c, dmp_term w y monom c ↔
                 ∃ m', dmp_term w x m' c ∧
                       monom = zip_with Z.mul m' (drop (S i) M)).
    replace (Z.of_nat i + 1)%Z with (Z.of_nat (S i)) by lia.
    destruct (mapM_result_Forall2
                (λ x, _rec_inflate w x M (Z.of_nat (S i))) R g)
      as (g' & -> & HR).
    { eapply Forall_impl; [exact Hall|]. simpl. intros x Hx.
      destruct (IH x (S i) Hx) as (y & Hy & Hny & Hzy & Hty).
      { intros t Ht. destruct (HM (S t)) as (m0 & Hm0 & ?); [lia|].
        exists m0. split; [|done]. rewrite <- Hm0. f_equal. lia. }
      exists y. done. }
    cbn [mbind result_bind].
    destruct g as [|x0 rest].
    { simpl in Hs. done. }
    apply Forall2_cons_inv_l in HR as (y0 & rest' & HR0 & HRr & ->).
    assert (py_index (y0 :: rest') 0 = Ok y0) as -> by done.
    cbn [mbind result_bind].
    assert (py_slice (y0 :: rest') 1 (len (y0 :: rest')) = rest') as ->.
    { change 1%Z with (Z.of_nat 1). unfold len.
      rewrite py_slice_nat by (simpl; lia). simpl. rewrite drop_0.
      apply take_ge. lia. }
    destruct (foldl_fill_at_exponent (dmp_zero w) m y0 rest' Hm1)
      as (Hlen & Hhead & Hmul & Hoth).
    set (res := foldl _ [y0] rest') in *.
    assert (Forall2 R (x0 :: rest) (y0 :: rest')) as HR by (by constructor).
    assert (∀ e y, at_exponent res e = Some y →
              y = dmp_zero w ∨
              ∃ k x, e = (k * m)%Z ∧ at_exponent (x0 :: rest) k = Some x ∧ R x y)
      as Hentry.
    { intros e y He. destruct (divide_cases m e Hm1) as [[k ->]|Hnd].
      - right. rewrite Z.mul_comm, Hmul in He.
        destruct (Forall2_at_exponent R _ _ _ _ HR He) as (x & Hx & Hxy).
        by exists k, x.
      - left. by apply (Hoth e y). }
    assert (∀ k x, at_exponent (x0 :: rest) k = Some x →
              ∃ y, at_exponent res (k * m) = Some y ∧ R x y) as Hback.
    { intros k x Hx. apply Forall2_flip in HR.
      destruct (Forall2_at_exponent (flip R) _ _ _ _ HR Hx) as (y & Hy & Hxy).
      exists y. by rewrite Z.mul_comm, Hmul. }
    destruct res as [|r0 rt] eqn:Hres; [done|]. rewrite <- Hres in *.
    simpl in Hhead. rewrite Hres in Hhead. simpl in Hhead.
    injection Hhead as ->.
    destruct HR0 as (Hny0 & Hzy0 & Hty0).
    exists res. split; [done|].
    assert (dmp_zero_p (S w) (x0 :: rest) = true → res = x0 :: rest) as Hzero.
    { intros Hz. destruct rest as [|? ?]; [|done].
      apply Forall2_nil_inv_l in HRr as ->. simpl in Hz.
      unfold res. simpl. by rewrite Hzy0. }
    split; [|split; [done|]].
    + rewrite dmp_normal_p_S. apply andb_true_iff. split.
      * destruct (dmp_zero_p (S w) (x0 :: rest)) eqn:Hz.
        { rewrite (Hzero eq_refl), dmp_stripped_S, Hz. done. }
        rewrite dmp_stripped_S, Hres. simpl in Hs.
        apply negb_true_iff in Hs.
        apply Forall_cons in Hall as [Hx0 _].
        destruct (normal_has_term w x0 Hx0 Hs) as (es & c & Ht).
        assert (dmp_term w y0 (zip_with Z.mul es (drop (S i) M)) c) as Hty.
        { apply Hty0. by exists es. }
        destruct (dmp_zero_p w y0) eqn:Hy0; [|by rewrite orb_true_r].
        by apply zero_no_term in Hty.
      * apply forallb_Forall, Forall_lookup. intros j y Hj.
        apply at_exponent_lookup in Hj.
        destruct (Hentry _ _ Hj) as [->|(k & x & _ & _ & Hxy)].
        -- apply dmp_normal_zero.
        -- by destruct Hxy.
    + intros monom c. rewrite dmp_term_S. rewrite (drop_S _ _ _ Hm). split.
      * intros (e & es & y & -> & Hy & Hterm).
        destruct (Hentry _ _ Hy) as [->|(k & x & -> & Hx & Hxy)].
        { exfalso. revert Hterm. apply zero_no_term, dmp_zero_p_zero. }
        destruct Hxy as (_ & _ & Hxy).
        destruct (proj1 (Hxy _ _) Hterm) as (es' & Hes' & Heq).
        exists (k :: es'). split; [|by rewrite Heq].
        apply dmp_term_S. by exists k, es', x.
      * intros (m' & (k & es' & x & -> & Hx & Hterm)%dmp_term_S & ->).
        destruct (Hback k x Hx) as (y & Hy & _ & _ & Hxy).
        exists (k * m)%Z, (zip_with Z.mul es' (drop (S i) M)), y.
        split; [done|]. split; [done|]. apply Hxy. by exists es'.
Qed.

Lemma rec_inflate_error (v : nat) (g : dmp K v) (M : list Z) (i : nat) :
  dmp_normal_p v g = true →
  (∀ t, t ≤ v → is_Some (M !! (i + t))) →
  (∃ t m, t ≤ v ∧ M !! (i + t) = Some m ∧ (m ≤ 0)%Z) →
  _rec_inflate v g M (Z.of_nat i) = Raise IndexError.
Proof.
  revert g i. induction v as [|w IH]; intros g i Hn HM (t & m & Ht & Hm & Hm0);
    cbn in g.
  - assert (t = 0) as -> by lia. rewrite Nat.add_0_r in Hm.
    simpl. rewrite (py_index_nat _ _ _ Hm). simpl.
    unfold dup_inflate. by destruct (Z.leb_spec m 0) as [_|?]; [|lia].
  - destruct (HM 0) as [m0 Hm0']; [lia|]. rewrite Nat.add_0_r in Hm0'.
    rewrite _rec_inflate_S, (py_index_nat _ _ _ Hm0'). cbn [mbind result_bind].
    destruct (Z.leb_spec m0 0) as [|Hpos]; [done|].
    rewrite dmp_normal_p_S, dmp_stripped_S in Hn.
    apply andb_true_iff in Hn as [Hs Hall]. apply forallb_Forall in Hall.
    destruct g as [|x0 rest]; [done|].
    apply Forall_cons in Hall as [Hx0 _].
    destruct t as [|t].
    { rewrite Nat.add_0_r in Hm. assert (m = m0) by congruence. lia. }
    replace (Z.of_nat i + 1)%Z with (Z.of_nat (S i)) by lia.
    simpl. rewrite (IH x0 (S i) Hx0); [done| |].
    + intros t' Ht'. replace (S i + t') with (i + S t') by lia.
      apply HM. lia.
    + exists t, m. split; [lia|]. split; [|done].
      rewrite <- Hm. f_equal. lia.
Qed.

Lemma zip_with_mul_ones (m' M : list Z) :
  length m' = length M → Forall (λ m, m = 1%Z) M →
  zip_with Z.mul m' M = m'.
Proof.
  revert M. induction m' as [|a m' IH]; intros [|b M] Hl HM; try done.
  apply Forall_cons in HM as [-> HM]. simpl.
  rewrite Z.mul_1_r, IH; [done| |done]. simpl in Hl. lia.
Qed.

Lemma dmp_inflate_run (u : nat) (f : dmp K u) (M : list Z) :
  length M = S u →
  dmp_normal_p u f = true →
  Forall (λ m, 1 ≤ m)%Z M →
  ∃ h, dmp_inflate u f M = Ok h ∧
       dmp_normal_p u h = true ∧
       ∀ monom c, dmp_term u h monom c ↔
                  ∃ m', dmp_term u f m' c ∧ monom = zip_with Z.mul m' M.
Proof.
  intros Hlen Hn Hpos.
  destruct (rec_inflate_spec u f M 0 Hn) as (h & Hh & Hnh & _ & Hterms).
  { intros t Ht. destruct (lookup_lt_is_Some_2 M (0 + t)) as [m Hm].
    { simpl. lia. }
    exists m. split; [done|].
    rewrite Forall_lookup in Hpos. by apply (Hpos _ _ Hm). }
  rewrite drop_0 in Hterms.
  destruct u as [|v]; cbn in f.
  { exists h. done. }
  unfold dmp_inflate.
  destruct (forallb (λ m, (m =? 1)%Z) M) eqn:Hones; [|by exists h].
  exists f. split; [done|]. split; [done|].
  apply forallb_Forall in Hones.
  assert (Forall (λ m, m = 1%Z) M) as Hones'.
  { eapply Forall_impl; [exact Hones|]. simpl. intros m. lia. }
  intros monom c. split.
  + intros Hm. exists monom. split; [done|].
    rewrite zip_with_mul_ones; [done| |done].
    rewrite (term_length _ _ _ _ Hm). done.
  + intros (m' & Hm' & ->).
    rewrite zip_with_mul_ones; [done| |done].
    rewrite (term_length _ _ _ _ Hm'). done.
Qed.

(** X22: for [f] satisfying the invariant and a tuple [M] of [u+1]
    integers, [dmp_inflate(f, M, u, K)] raises an index error when some
    entry of [M] is not positive; when all are positive it returns a
    polynomial that satisfies the invariant and whose terms are the terms
    of [f] with every exponent multiplied by the entry of [M] at its
    position. *)
Theorem dmp_inflate_spec (u : nat) (f : dmp K u) (M : list Z) :
  length M = S u →
  dmp_normal_p u f = true →
  (Forall (λ m, 1 ≤ m)%Z M →
     ∃ h, dmp_inflate u f M = Ok h ∧
          dmp_normal_p u h = true ∧
          ∀ monom c, dmp_term u h monom c ↔
                     ∃ m', dmp_term u f m' c ∧
                           monom = zip_with Z.mul m' M) ∧
  (¬ Forall (λ m, 1 ≤ m)%Z M → dmp_inflate u f M = Raise IndexError).
Proof.
  intros Hlen Hn. split; [by apply dmp_inflate_run|].
  intros Hneg.
  assert (∀ t, t ≤ u → is_Some (M !! (0 + t))) as Hsome.
  { intros t Ht. apply lookup_lt_is_Some_2. simpl. lia. }
  assert (∃ t m, t ≤ u ∧ M !! (0 + t) = Some m ∧ (m ≤ 0)%Z) as Hex.
  { apply not_Forall_Exists in Hneg; [|intros m; apply _].
    apply Exists_exists in Hneg as (m & Hin & Hm).
    apply list_elem_of_lookup_1 in Hin as [t Ht].
    exists t, m. split; [apply lookup_lt_Some in Ht; lia|].
    split; [done|]. unfold compose in Hm. simpl in Hm. lia. }
  pose proof (rec_inflate_error u f M 0 Hn Hsome Hex) as Herr.
  destruct u as [|v]; cbn in f; [done|].
  unfold dmp_inflate.
  destruct (forallb (λ m, (m =? 1)%Z) M) eqn:Hones; [|done].
  exfalso. apply forallb_Forall in Hones.
  destruct Hex as (t & m & _ & Hm & Hm0). simpl in Hm.
  rewrite Forall_lookup in Hones. specialize (Hones _ _ Hm).
  simpl in Hones. lia.
Qed.
End Inflating.

Section Deflating.
Context {K : Type} {D : Domain K}.
Implicit Types (c : K).

(** *** Loops over [enumerate] that update a list in place *)

Lemma enumerate_snoc {A} (l : list A) (x : A) :
  enumerate (l ++ [x]) = enumerate l ++ [(len l, x)].
Proof.
  unfold enumerate, len. rewrite imap_app. simpl.
  by rewrite Nat.add_0_r.
Qed.

Lemma gcd_key_loop (Mk B : list Z) :
  length Mk ≤ length B →
  ∃ B',
    for_each (enumerate Mk)
      (λ B '(i, m), b ← py_index B i; py_setitem B i (igcd b m)) B = Ok B' ∧
    length B' = length B ∧
    ∀ i, B' !! i = match Mk !! i with
                   | Some m => (λ b, Z.gcd b m) <$> B !! i
                   | None => B !! i
                   end.
Proof.
  induction Mk as [|m Mk IH] using rev_ind; intros Hlen.
  - exists B. split; [done|]. split; [done|]. intros i. done.
  - rewrite length_app in Hlen. simpl in Hlen.
    destruct IH as (B1 & H1 & Hl1 & Hlook1); [lia|].
    rewrite enumerate_snoc, for_each_app, H1. cbn [mbind result_bind].
    simpl. unfold len.
    destruct (lookup_lt_is_Some_2 B1 (length Mk)) as [b Hb]; [lia|].
    rewrite (py_index_nat _ _ _ Hb). simpl.
    rewrite py_setitem_in_range by lia.
    eexists. split; [done|]. split; [by rewrite length_insert|].
    intros i. destruct (decide (i = length Mk)) as [->|Hne].
    + rewrite list_lookup_insert_eq by lia.
      rewrite list_lookup_middle by done.
      rewrite Hlook1 in Hb. rewrite (lookup_ge_None_2 Mk) in Hb by lia.
      rewrite Hb. done.
    + rewrite list_lookup_insert_ne by done. rewrite Hlook1.
      destruct (decide (i < length Mk)) as [Hlt|Hge].
      * by rewrite lookup_app_l.
      * rewrite (lookup_ge_None_2 Mk i) by lia.
        rewrite (lookup_ge_None_2 (Mk ++ [m]) i); [done|].
        rewrite length_app. simpl. lia.
Qed.

Lemma normalise_loop (L S : list Z) :
  length L ≤ length S →
  ∃ S',
    for_each (enumerate L)
      (λ B '(i, b), if (b =? 0)%Z then py_setitem B i 1%Z else Ok B) S
      = Ok S' ∧
    length S' = length S ∧
    ∀ i, S' !! i = match L !! i with
                   | Some b => if (b =? 0)%Z then Some 1%Z else S !! i
                   | None => S !! i
                   end.
Proof.
  induction L as [|b L IH] using rev_ind; intros Hlen.
  - exists S. split; [done|]. split; [done|]. intros i. done.
  - rewrite length_app in Hlen. simpl in Hlen.
    destruct IH as (S1 & H1 & Hl1 & Hlook1); [lia|].
    rewrite enumerate_snoc, for_each_app, H1. cbn [mbind result_bind].
    simpl. unfold len.
    assert (∀ i, i ≠ length L →
      (L ++ [b]) !! i = L !! i) as Hother.
    { intros i Hne. destruct (decide (i < length L)) as [Hlt|Hge].
      - by rewrite lookup_app_l.
      - rewrite (lookup_ge_None_2 L i) by lia.
        rewrite (lookup_ge_None_2 (L ++ [b]) i); [done|].
        rewrite length_app. simpl. lia. }
    destruct (Z.eqb_spec b 0) as [->|Hb].
    + rewrite py_setitem_in_range by lia.
      eexists. split; [done|]. split; [by rewrite length_insert|].
      intros i. destruct (decide (i = length L)) as [->|Hne].
      * rewrite list_lookup_insert_eq by lia.
        by rewrite list_lookup_middle.
      * rewrite list_lookup_insert_ne by done.
        by rewrite Hlook1, Hother.
    + exists S1. split; [done|]. split; [done|].
      intros i. destruct (decide (i = length L)) as [->|Hne].
      * rewrite list_lookup_middle by done.
        destruct (Z.eqb_spec b 0); [done|].
        rewrite Hlook1. by rewrite (lookup_ge_None_2 L) by lia.
      * by rewrite Hlook1, Hother.
Qed.

(** *** The first loop of [dmp_deflate]: the gcd of the exponents at every
    position *)

Lemma gcd_items_loop (u : nat) (F : gmap (list Z) K) :
  (∀ k v, F !! k = Some v → length k = S u) →
  ∃ B,
    for_items F
      (λ B M _,
         for_each (enumerate M)
           (λ B '(i, m), b ← py_index B i; py_setitem B i (igcd b m)) B)
      (py_repeat 0%Z (Z.of_nat u + 1)) = Ok B ∧
    length B = S u ∧
    ∀ i, i < S u →
      ∃ b, B !! i = Some b ∧ (0 ≤ b)%Z ∧
           (∀ k v e, F !! k = Some v → k !! i = Some e → (b | e)%Z) ∧
           (∀ d, (∀ k v e, F !! k = Some v → k !! i = Some e → (d | e)%Z) →
                 (d | b)%Z).
Proof.
  unfold for_items.
  apply (map_fold_weak_ind (λ res (m : gmap (list Z) K),
    (∀ k v, m !! k = Some v → length k = S u) →
    ∃ B, res = Ok B ∧ length B = S u ∧
      ∀ i, i < S u →
        ∃ b, B !! i = Some b ∧ (0 ≤ b)%Z ∧
             (∀ k v e, m !! k = Some v → k !! i = Some e → (b | e)%Z) ∧
             (∀ d, (∀ k v e, m !! k = Some v → k !! i = Some e → (d | e)%Z) →
                   (d | b)%Z))).
  { intros _. exists (replicate (S u) 0%Z). split.
    { unfold py_repeat. do 2 f_equal. lia. }
    split; [by rewrite length_replicate|].
    intros i Hi. exists 0%Z. split; [by apply lookup_replicate_2|].
    split; [lia|]. split.
    - intros k v e Hk. by rewrite lookup_empty in Hk.
    - intros d _. apply Z.divide_0_r. }
  clear F. intros key x m res Hkey IH Hlen.
  destruct IH as (B & -> & HlB & HB).
  { intros k v Hk. apply (Hlen k v). rewrite lookup_insert_ne; [done|].
    intros <-. congruence. }
  cbn [mbind result_bind].
  assert (length key = S u) as Hlk.
  { apply (Hlen key x). apply lookup_insert_eq. }
  destruct (gcd_key_loop key B) as (B' & -> & HlB' & HB'); [lia|].
  exists B'. split; [done|]. split; [lia|].
  intros i Hi. destruct (HB i Hi) as (b & Hb & Hb0 & Hdiv & Hgreat).
  destruct (lookup_lt_is_Some_2 key i) as [e He]; [lia|].
  exists (Z.gcd b e). split.
  { rewrite HB', He, Hb. done. }
  split; [apply Z.gcd_nonneg|]. split.
  - intros k v e' Hk He'.
    apply lookup_insert_Some in Hk as [[<- <-]|[Hne Hk]].
    + assert (e' = e) as -> by congruence. apply Z.gcd_divide_r.
    + etrans; [apply Z.gcd_divide_l|]. by apply (Hdiv k v).
  - intros d Hd. apply Z.gcd_greatest.
    + apply Hgreat. intros k v e' Hk He'. apply (Hd k v e'); [|done].
      rewrite lookup_insert_ne; [done|]. intros <-. congruence.
    + apply (Hd key x e); [apply lookup_insert_eq|done].
Qed.

Lemma zip_with_div_mul (A B : list Z) :
  length A = length B →
  (∀ i e b, A !! i = Some e → B !! i = Some b → (b | e)%Z ∧ (1 ≤ b)%Z) →
  zip_with Z.mul (zip_with Z.div A B) B = A.
Proof.
  revert B. induction A as [|a A IH]; intros [|b B] Hl Hdiv; try done.
  simpl. f_equal.
  - destruct (Hdiv 0 a b) as [[q ->] Hb]; [done..|].
    rewrite Z.div_mul by lia. done.
  - apply IH; [simpl in Hl; lia|].
    intros i e b' He Hb'. by apply (Hdiv (S i)).
Qed.

Lemma dmp_inflate_ones (u : nat) (f : dmp K u) (B : list Z) :
  length B = S u → Forall (λ b, b = 1%Z) B → dmp_inflate u f B = Ok f.
Proof.
  intros Hl HB. destruct u as [|v]; cbn in f.
  - destruct B as [|b [|]]; try done. apply Forall_cons in HB as [-> _].
    done.
  - unfold dmp_inflate.
    assert (forallb (λ m, (m =? 1)%Z) B = true) as ->; [|done].
    apply forallb_Forall. eapply Forall_impl; [exact HB|]. simpl.
    intros b ->. done.
Qed.

(** The last loop of [dmp_deflate]: the exponents divided by the entries
    of [B], and the way back by [dmp_inflate]. *)
Lemma deflate_dict_inflate (u : nat) (p : dmp K u) (F : gmap (list Z) K)
    (B : list Z) :
  dmp_normal_p u p = true →
  (∀ monom c, F !! monom = Some c ↔ dmp_term u p monom c) →
  length B = S u →
  Forall (λ b, 1 ≤ b)%Z B →
  (∀ monom c i e b, dmp_term u p monom c → monom !! i = Some e →
                    B !! i = Some b → (b | e)%Z) →
  ∃ H g,
    for_items F (λ H A coeff, Ok (<[ zip_with Z.div A B := coeff ]> H)) ∅
      = Ok H ∧
    dmp_from_dict u H = Ok g ∧
    dmp_normal_p u g = true ∧
    (∀ monom c, dmp_term u g monom c ↔
                ∃ m', dmp_term u p m' c ∧ monom = zip_with Z.div m' B) ∧
    dmp_inflate u g B = Ok p.
Proof.
  intros Hn HF HlenB Hpos Hdivides.
  pose proof (to_dict_sparse_form u p F HF) as Hsp.
  assert (∀ m' c, dmp_term u p m' c →
            zip_with Z.mul (zip_with Z.div m' B) B = m') as Hback.
  { intros m' c Ht. apply zip_with_div_mul.
    - rewrite (term_length _ _ _ _ Ht). lia.
    - intros i e b He Hb. split; [by apply (Hdivides m' c i)|].
      rewrite Forall_lookup in Hpos. by apply (Hpos i b). }
  destruct (for_items_rekey
              (λ (H : gmap (list Z) K) A coeff,
                 Ok (<[ zip_with Z.div A B := coeff ]> H))
              (λ A, zip_with Z.div A B) F) as (H & HrunH & HH).
  { done. }
  { intros k1 k2 [v1 H1%HF] [v2 H2%HF] Heq.
    rewrite <- (Hback k1 v1 H1), <- (Hback k2 v2 H2). by rewrite Heq. }
  destruct (dmp_from_dict_spec u H) as (g & Hrung & Hng & Hg).
  { intros monom c (k & <- & Hk)%HH.
    destruct (Hsp k c Hk) as (Hlen & Hnn & Hc).
    split; [rewrite length_zip_with; lia|]. split; [|done].
    apply Forall_lookup. intros i q Hq.
    apply lookup_zip_with_Some in Hq as (e & b & -> & He & Hb).
    rewrite Forall_lookup in Hnn, Hpos.
    specialize (Hnn i e He). specialize (Hpos i b Hb). simpl in *.
    apply Z.div_pos; lia. }
  assert (∀ monom c, dmp_term u g monom c ↔
            ∃ m', dmp_term u p m' c ∧ monom = zip_with Z.div m' B) as Hterms.
  { intros monom c. rewrite Hg, HH. split.
    - intros (k & <- & Hk). exists k. split; [by apply HF|done].
    - intros (m' & Ht & ->). exists m'. split; [done|by apply HF]. }
  exists H, g. split; [done|]. split; [done|]. split; [done|].
  split; [done|].
  destruct (dmp_inflate_run u g B HlenB Hng Hpos) as (h & -> & Hnh & Hh).
  f_equal. apply normal_ext; [done..|].
  intros monom c. rewrite Hh. split.
  - intros (m' & (m0 & Ht & ->)%Hterms & ->). by rewrite (Hback m0 c Ht).
  - intros Ht. exists (zip_with Z.div monom B). split.
    + apply Hterms. by exists monom.
    + by rewrite (Hback monom c Ht).
Qed.

(** X23: on a polynomial [f] that satisfies the invariant, [dmp_deflate]
    never raises and returns [(B, g)] where [B] holds [u+1] positive
    integers, each dividing the exponent at its position in every term of
    [f] and being the greatest such integer unless all these exponents are
    zero; [g] satisfies the invariant, its terms are the terms of [f] with
    every exponent divided by the entry of [B] at its position, and
    [dmp_inflate(g, B, u, K)] gives back [f]. *)
Theorem dmp_deflate_spec (u : nat) (f : dmp K u) :
  dmp_normal_p u f = true →
  ∃ B g,
    dmp_deflate u f = Ok (B, g) ∧
    length B = S u ∧
    Forall (λ b, 1 ≤ b)%Z B ∧
    (∀ monom c i e b, dmp_term u f monom c → monom !! i = Some e →
                      B !! i = Some b → (b | e)%Z) ∧
    (∀ i b d, B !! i = Some b →
              (∃ monom c e, dmp_term u f monom c ∧ monom !! i = Some e ∧
                            e ≠ 0%Z) →
              (∀ monom c e, dmp_term u f monom c → monom !! i = Some e →
                            (d | e)%Z) →
              (d | b)%Z) ∧
    dmp_normal_p u g = true ∧
    (∀ monom c, dmp_term u g monom c ↔
                ∃ m', dmp_term u f m' c ∧ monom = zip_with Z.div m' B) ∧
    dmp_inflate u g B = Ok f.
Proof.
  intros Hn. unfold dmp_deflate.
  destruct (dmp_zero_p u f) eqn:Hz.
  { exists (py_repeat 1%Z (Z.of_nat u + 1)), f. split; [done|].
    assert (py_repeat 1%Z (Z.of_nat u + 1) = replicate (S u) 1%Z) as ->.
    { unfold py_repeat. f_equal. lia. }
    split; [by rewrite length_replicate|].
    split; [apply Forall_replicate; lia|].
    assert (∀ monom c, ¬ dmp_term u f monom c) as Hnone.
    { intros monom c. by apply zero_no_term. }
    split; [intros monom c i e b Ht; by apply Hnone in Ht|].
    split; [intros i b d _ (monom & c & e & Ht & _); by apply Hnone in Ht|].
    split; [done|]. split.
    - intros monom c. split; [intros Ht; by apply Hnone in Ht|].
      intros (m' & Ht & _). by apply Hnone in Ht.
    - apply dmp_inflate_ones; [by rewrite length_replicate|].
      by apply Forall_replicate. }
  destruct (dmp_to_dict_spec u f) as (F & -> & HF).
  pose proof (to_dict_sparse_form u f F HF) as Hsp.
  cbn [mbind result_bind].
  destruct (gcd_items_loop u F) as (B1 & -> & HlB1 & HB1).
  { intros k v Hk. by destruct (Hsp k v Hk). }
  cbn [mbind result_bind].
  destruct (normalise_loop B1 B1) as (B & -> & HlB & HB); [lia|].
  cbn [mbind result_bind].
  assert (∀ i, i < S u →
    ∃ b1, B1 !! i = Some b1 ∧
          B !! i = Some (if (b1 =? 0)%Z then 1%Z else b1) ∧ (0 ≤ b1)%Z ∧
          (∀ monom c e, dmp_term u f monom c → monom !! i = Some e →
                        (b1 | e)%Z) ∧
          (∀ d, (∀ monom c e, dmp_term u f monom c → monom !! i = Some e →
                              (d | e)%Z) → (d | b1)%Z)) as Hchar.
  { intros i Hi. destruct (HB1 i Hi) as (b1 & Hb1 & H0 & Hdiv & Hgreat).
    exists b1. split; [done|]. split.
    { rewrite HB, Hb1. by destruct (b1 =? 0)%Z. }
    split; [done|]. split.
    - intros monom c e Ht He. apply (Hdiv monom c e); [by apply HF|done].
    - intros d Hd. apply Hgreat. intros k v e Hk He.
      apply (Hd k v e); [by apply HF|done]. }
  assert (length B = S u) as HlenB by lia.
  assert (Forall (λ b, 1 ≤ b)%Z B) as Hpos.
  { apply Forall_lookup. intros i b Hb.
    destruct (Hchar i) as (b1 & _ & Hb' & H0 & _).
    { apply lookup_lt_Some in Hb. lia. }
    rewrite Hb' in Hb. injection Hb as <-.
    destruct (Z.eqb_spec b1 0); lia. }
  assert (∀ monom c i e b, dmp_term u f monom c → monom !! i = Some e →
            B !! i = Some b → (b | e)%Z) as Hdivides.
  { intros monom c i e b Ht He Hb.
    destruct (Hchar i) as (b1 & _ & Hb' & _ & Hdiv & _).
    { apply lookup_lt_Some in Hb. lia. }
    rewrite Hb' in Hb. injection Hb as <-.
    destruct (Z.eqb_spec b1 0); [apply Z.divide_1_l|by apply (Hdiv monom c)]. }
  assert (∀ i b d, B !! i = Some b →
            (∃ monom c e, dmp_term u f monom c ∧ monom !! i = Some e ∧
                          e ≠ 0%Z) →
            (∀ monom c e, dmp_term u f monom c → monom !! i = Some e →
                          (d | e)%Z) →
            (d | b)%Z) as Hgreatest.
  { intros i b d Hb (monom & c & e & Ht & He & Hne) Hd.
    destruct (Hchar i) as (b1 & _ & Hb' & _ & Hdiv & Hgreat).
    { apply lookup_lt_Some in Hb. lia. }
    rewrite Hb' in Hb. injection Hb as <-.
    destruct (Z.eqb_spec b1 0) as [->|_]; [|by apply Hgreat].
    destruct (Hdiv monom c e Ht He) as [q Hq]. lia. }
  assert (∀ m' c, dmp_term u f m' c →
            zip_with Z.mul (zip_with Z.div m' B) B = m') as Hback.
  { intros m' c Ht. apply zip_with_div_mul.
    - rewrite (term_length _ _ _ _ Ht). lia.
    - intros i e b He Hb. split; [by apply (Hdivides m' c i)|].
      rewrite Forall_lookup in Hpos. by apply (Hpos i b). }
  destruct (forallb (λ b, (b =? 1)%Z) B) eqn:Hones.
  { apply forallb_Forall in Hones.
    assert (Forall (λ b, b = 1%Z) B) as Hones'.
    { eapply Forall_impl; [exact Hones|]. simpl. intros b. lia. }
    exists B, f. split; [done|]. split; [done|]. split; [done|].
    split; [done|]. split; [done|]. split; [done|]. split.
    - assert (∀ m' c, dmp_term u f m' c → zip_with Z.div m' B = m') as Hid.
      { intros m' c Ht. rewrite <- (Hback m' c Ht) at 2.
        rewrite zip_with_mul_ones; [done| |done].
        rewrite length_zip_with, (term_length _ _ _ _ Ht). lia. }
      intros monom c. split.
      + intros Ht. exists monom. by rewrite (Hid monom c Ht).
      + intros (m' & Ht & ->). by rewrite (Hid m' c Ht).
    - by apply dmp_inflate_ones. }
  destruct (deflate_dict_inflate u f F B Hn HF HlenB Hpos Hdivides)
    as (H & g & -> & Hg & Hng & Hterms & Hinfl).
  cbn [mbind result_bind]. rewrite Hg. cbn [mbind result_bind].
  exists B, g. split; [done|]. split; [done|]. split; [done|].
  split; [done|]. split; [done|]. done.
Qed.
End Deflating.

Section RawDicts.
Context {K : Type} {D : Domain K}.
Implicit Types (c : K) (f g : list K) (d : gmap Z K).

Lemma dup_to_raw_dict_loop f (m : nat) :
  m ≤ length f →
  ∃ d,
    for_each (xrange 0 (Z.of_nat m))
      (λ result k,
         c ← py_index f (dup_degree f - k);
         if K_truth c then Ok (<[ k := c ]> result) else Ok result)
      ∅ = Ok d ∧
    ∀ k c, d !! k = Some c ↔
           (at_exponent f k = Some c ∧ K_truth c = true) ∧ (k < Z.of_nat m)%Z.
Proof.
  induction m as [|m IH]; intros Hm.
  { exists ∅. split; [done|]. intros k c. rewrite lookup_empty.
    split; [done|]. intros [[Hat _] Hk].
    apply at_exponent_range in Hat. lia. }
  destruct IH as (d & Hd & Hspec); [lia|].
  rewrite xrange_S, for_each_app, Hd. cbn [mbind result_bind for_each].
  destruct (py_index_at_exponent f (Z.of_nat m)) as (x & Hat & Hidx).
  { unfold len. lia. }
  unfold dup_degree. rewrite Hidx. cbn [mbind result_bind].
  destruct (K_truth x) eqn:Hx.
  - eexists. split; [done|]. intros k c.
    destruct (decide (k = Z.of_nat m)) as [->|Hne].
    + rewrite lookup_insert_eq. split.
      * intros [= <-]. split; [done|lia].
      * intros [[Hat' _] _]. congruence.
    + rewrite lookup_insert_ne by done. rewrite Hspec.
      split; intros [Hterm Hk]; (split; [done|]); lia.
  - exists d. split; [done|]. intros k c. rewrite Hspec.
    split; intros [Hterm Hk]; (split; [done|]); [lia|].
    assert (k ≠ Z.of_nat m); [|lia]. intros ->.
    destruct Hterm as [Hat' Hc]. congruence.
Qed.

Lemma dup_to_raw_dict_spec f :
  ∃ d, dup_to_raw_dict f false = Ok d ∧
       ∀ k c, d !! k = Some c ↔ at_exponent f k = Some c ∧ K_truth c = true.
Proof.
  unfold dup_to_raw_dict. rewrite andb_false_r.
  destruct (dup_to_raw_dict_loop f (length f)) as (d & Hd & Hspec); [done|].
  exists d. split.
  - rewrite <- Hd. f_equal. unfold dup_degree, len. f_equal. lia.
  - intros k c. rewrite Hspec. split; [by intros [? _]|].
    intros [Hat Hc]. split; [done|].
    apply at_exponent_range in Hat. unfold len in Hat. lia.
Qed.

Lemma dup_from_raw_dict_spec d :
  (∀ k c, d !! k = Some c → (0 ≤ k)%Z ∧ K_truth c = true) →
  ∃ g, dup_from_raw_dict d = Ok g ∧ dup_stripped g = true ∧
       ∀ k c, at_exponent g k = Some c ∧ K_truth c = true ↔ d !! k = Some c.
Proof.
  intros Hwf. unfold dup_from_raw_dict. case_bool_decide as Hd.
  { exists []. split; [done|]. split; [done|]. intros k c.
    rewrite Hd, lookup_empty. split; [|done].
    intros [Hat _]. apply at_exponent_range in Hat.
    unfold len in Hat. simpl in Hat. lia. }
  destruct (max_key_spec Z.ltb d) as (n & -> & [cn Hkey] & Hmax).
  { intros x. apply Z.ltb_irrefl. }
  { intros x y z Hxy%Z.ltb_lt Hyz%Z.ltb_lt. apply Z.ltb_lt. lia. }
  { done. }
  destruct (Hwf _ _ Hkey) as (Hnn & Hcn).
  remember ((λ k, default K_zero (d !! k)) <$> xrange_down n) as h eqn:Hh.
  assert (∀ k, at_exponent h k =
               if bool_decide (0 ≤ k ≤ n)%Z
               then Some (default K_zero (d !! k)) else None) as Hat.
  { intros k. rewrite Hh, at_exponent_fmap.
    rewrite at_exponent_xrange_down by lia. by case_bool_decide. }
  assert (len h = n + 1)%Z as Hlenh.
  { rewrite Hh. unfold len, xrange_down.
    rewrite length_fmap, length_reverse, length_seqZ. lia. }
  assert (dup_stripped h = true) as Hstr.
  { clear Hh. destruct h as [|c0 t]; [done|]. simpl.
    pose proof (at_exponent_head c0 t) as Hhead.
    rewrite Hat, Hlenh in Hhead. rewrite bool_decide_eq_true_2 in Hhead by lia.
    replace (n + 1 - 1)%Z with n in Hhead by lia. rewrite Hkey in Hhead.
    simpl in Hhead. congruence. }
  exists h. split; [by rewrite dup_strip_id|]. split; [done|].
  intros k c. split.
  - intros [Hk Hc]. rewrite Hat in Hk.
    case_bool_decide; [|done]. destruct (d !! k) as [c'|]; simpl in Hk.
    + congruence.
    + injection Hk as <-. apply truth_true in Hc. done.
  - intros Hm. destruct (Hwf _ _ Hm) as (Hnnm & Hc).
    split; [|done]. rewrite Hat.
    assert (Z.ltb n k = false) as Hnk by (apply Hmax; eauto).
    apply Z.ltb_ge in Hnk.
    rewrite bool_decide_eq_true_2 by lia. by rewrite Hm.
Qed.

(** X24: [dup_to_raw_dict] never raises and its entries are exactly the
    terms of [f], keyed by their exponent; [dup_from_raw_dict] takes the
    result back to [f] without its leading zeros. Conversely, on a
    dictionary with no negative key and no zero value,
    [dup_from_raw_dict] returns a list without a leading zero that
    [dup_to_raw_dict] takes back to the dictionary. *)
Theorem raw_dict_round_trip :
  (∀ f, ∃ d, dup_to_raw_dict f false = Ok d ∧
             (∀ k c, d !! k = Some c ↔
                     at_exponent f k = Some c ∧ K_truth c = true) ∧
             dup_from_raw_dict d = Ok (dup_strip f)) ∧
  (∀ d, (∀ k c, d !! k = Some c → (0 ≤ k)%Z ∧ K_truth c = true) →
        ∃ g, dup_from_raw_dict d = Ok g ∧ dup_stripped g = true ∧
             dup_to_raw_dict g false = Ok d).
Proof.
  split.
  - intros f. destruct (dup_to_raw_dict_spec f) as (d & Hd & Hspec).
    exists d. split; [done|]. split; [done|].
    destruct (dup_from_raw_dict_spec d) as (g & -> & Hs & Hg).
    { intros k c [Hat Hc]%Hspec. apply at_exponent_range in Hat.
      split; [lia|done]. }
    f_equal. apply (normal_ext 0 g (dup_strip f)); [done| |].
    { apply dup_strip_stripped. }
    intros monom c. rewrite dup_strip_terms, !dmp_term_0.
    split; intros (k & -> & Hk); exists k; (split; [done|]).
    + by apply Hspec, Hg.
    + by apply Hg, Hspec.
  - intros d Hwf. destruct (dup_from_raw_dict_spec d Hwf) as (g & Hg & Hs & Hterms).
    exists g. split; [done|]. split; [done|].
    destruct (dup_to_raw_dict_spec g) as (d' & -> & Hd'). f_equal.
    apply map_eq. intros k.
    destruct (d' !! k) as [c|] eqn:H1.
    + symmetry. by apply Hterms, Hd'.
    + destruct (d !! k) as [c|] eqn:H2; [|done].
      apply Hterms, Hd' in H2. congruence.
Qed.
End RawDicts.

Section MultiDeflating.
Context {K : Type} {D : Domain K}.
Implicit Types (c : K).

(** The gcd loop over the keys of one dictionary, from any list [B0]. *)
Lemma gcd_items_from (u : nat) (F : gmap (list Z) K) (B0 : list Z) :
  length B0 = S u →
  Forall (λ b, 0 ≤ b)%Z B0 →
  (∀ k v, F !! k = Some v → length k = S u) →
  ∃ B,
    for_items F
      (λ B M _,
         for_each (enumerate M)
           (λ B '(i, m), b ← py_index B i; py_setitem B i (igcd b m)) B)
      B0 = Ok B ∧
    length B = S u ∧
    Forall (λ b, 0 ≤ b)%Z B ∧
    ∀ i b0, B0 !! i = Some b0 →
      ∃ b, B !! i = Some b ∧ (b | b0)%Z ∧
           (∀ k v e, F !! k = Some v → k !! i = Some e → (b | e)%Z) ∧
           (∀ d, (d | b0)%Z →
                 (∀ k v e, F !! k = Some v → k !! i = Some e → (d | e)%Z) →
                 (d | b)%Z).
Proof.
  intros HlB0 Hnn0. unfold for_items.
  apply (map_fold_weak_ind (λ res (m : gmap (list Z) K),
    (∀ k v, m !! k = Some v → length k = S u) →
    ∃ B, res = Ok B ∧ length B = S u ∧ Forall (λ b, 0 ≤ b)%Z B ∧
      ∀ i b0, B0 !! i = Some b0 →
        ∃ b, B !! i = Some b ∧ (b | b0)%Z ∧
             (∀ k v e, m !! k = Some v → k !! i = Some e → (b | e)%Z) ∧
             (∀ d, (d | b0)%Z →
                   (∀ k v e, m !! k = Some v → k !! i = Some e → (d | e)%Z) →
                   (d | b)%Z))).
  { intros _. exists B0. split; [done|]. split; [done|]. split; [done|].
    intros i b0 Hb0. exists b0. split; [done|]. split; [done|]. split.
    - intros k v e Hk. by rewrite lookup_empty in Hk.
    - intros d Hd _. done. }
  clear F. intros key x m res Hkey IH Hlen.
  destruct IH as (B & -> & HlB & Hnn & HB).
  { intros k v Hk. apply (Hlen k v). rewrite lookup_insert_ne; [done|].
    intros <-. congruence. }
  cbn [mbind result_bind].
  assert (length key = S u) as Hlk.
  { apply (Hlen key x). apply lookup_insert_eq. }
  destruct (gcd_key_loop key B) as (B' & -> & HlB' & HB'); [lia|].
  exists B'. split; [done|]. split; [lia|]. split.
  { apply Forall_lookup. intros i b Hb. rewrite HB' in Hb.
    destruct (key !! i) as [e|] eqn:He.
    - destruct (B !! i) as [b'|]; [|done]. injection Hb as <-.
      apply Z.gcd_nonneg.
    - rewrite Forall_lookup in Hnn. by apply (Hnn i b). }
  intros i b0 Hb0. destruct (HB i b0 Hb0) as (b & Hb & Hbb0 & Hdiv & Hgreat).
  assert (i < S u) as Hi by (apply lookup_lt_Some in Hb; lia).
  destruct (lookup_lt_is_Some_2 key i) as [e He]; [lia|].
  exists (Z.gcd b e). split.
  { rewrite HB', He, Hb. done. }
  split; [etrans; [apply Z.gcd_divide_l|done]|]. split.
  - intros k v e' Hk He'.
    apply lookup_insert_Some in Hk as [[<- <-]|[Hne Hk]].
    + assert (e' = e) as -> by congruence. apply Z.gcd_divide_r.
    + etrans; [apply Z.gcd_divide_l|]. by apply (Hdiv k v).
  - intros d Hd0 Hd. apply Z.gcd_greatest.
    + apply Hgreat; [done|]. intros k v e' Hk He'. apply (Hd k v e'); [|done].
      rewrite lookup_insert_ne; [done|]. intros <-. congruence.
    + apply (Hd key x e); [apply lookup_insert_eq|done].
Qed.

(** The first loop of [dmp_multi_deflate]. *)
Lemma multi_first_loop (u : nat) (polys : list (dmp K u))
    (F0 : list (gmap (list Z) K)) (B0 : list Z) :
  length B0 = S u →
  Forall (λ b, 0 ≤ b)%Z B0 →
  ∃ Fs B,
    for_each polys
      (λ '(F, B) p,
         f ← dmp_to_dict u p false;
         B ← (if negb (dmp_zero_p u p)
              then for_items f
                     (λ B M _,
                        for_each (enumerate M)
                          (λ B '(i, m),
                             b ← py_index B i; py_setitem B i (igcd b m))
                          B)
                     B
              else Ok B);
         Ok (F ++ [f], B))
      (F0, B0) = Ok (F0 ++ Fs, B) ∧
    Forall2 (λ p f, ∀ monom c, f !! monom = Some c ↔ dmp_term u p monom c)
            polys Fs ∧
    length B = S u ∧
    Forall (λ b, 0 ≤ b)%Z B ∧
    ∀ i b0, B0 !! i = Some b0 →
      ∃ b, B !! i = Some b ∧ (b | b0)%Z ∧
           (∀ p monom c e, p ∈ polys → dmp_term u p monom c →
                           monom !! i = Some e → (b | e)%Z) ∧
           (∀ d, (d | b0)%Z →
                 (∀ p monom c e, p ∈ polys → dmp_term u p monom c →
                                 monom !! i = Some e → (d | e)%Z) →
                 (d | b)%Z).
Proof.
  revert F0 B0. induction polys as [|p polys IH]; intros F0 B0 HlB0 Hnn0.
  { exists [], B0. split; [by rewrite app_nil_r|]. split; [constructor|].
    split; [done|]. split; [done|].
    intros i b0 Hb0. exists b0. split; [done|]. split; [done|]. split.
    - intros p monom c e Hp. by apply elem_of_nil in Hp.
    - intros d Hd _. done. }
  cbn [for_each].
  destruct (dmp_to_dict_spec u p) as (f & -> & HF).
  pose proof (to_dict_sparse_form u p f HF) as Hsp.
  cbn [mbind result_bind].
  assert (∃ B1,
    (if negb (dmp_zero_p u p)
     then for_items f
            (λ B M _,
               for_each (enumerate M)
                 (λ B '(i, m), b ← py_index B i; py_setitem B i (igcd b m)) B)
            B0
     else Ok B0) = Ok B1 ∧
    length B1 = S u ∧ Forall (λ b, 0 ≤ b)%Z B1 ∧
    ∀ i b0, B0 !! i = Some b0 →
      ∃ b, B1 !! i = Some b ∧ (b | b0)%Z ∧
           (∀ monom c e, dmp_term u p monom c → monom !! i = Some e →
                         (b | e)%Z) ∧
           (∀ d, (d | b0)%Z →
                 (∀ monom c e, dmp_term u p monom c → monom !! i = Some e →
                               (d | e)%Z) →
                 (d | b)%Z)) as (B1 & -> & HlB1 & Hnn1 & HB1).
  { destruct (dmp_zero_p u p) eqn:Hz; simpl.
    - exists B0. split; [done|]. split; [done|]. split; [done|].
      intros i b0 Hb0. exists b0. split; [done|]. split; [done|]. split.
      + intros monom c e Ht. by apply zero_no_term in Ht.
      + intros d Hd _. done.
    - destruct (gcd_items_from u f B0 HlB0 Hnn0) as (B1 & -> & Hl & Hnn & HB).
      { intros k v Hk. by destruct (Hsp k v Hk). }
      exists B1. split; [done|]. split; [done|]. split; [done|].
      intros i b0 Hb0. destruct (HB i b0 Hb0) as (b & Hb & Hbb0 & Hdiv & Hgr).
      exists b. split; [done|]. split; [done|]. split.
      + intros monom c e Ht He. apply (Hdiv monom c e); [by apply HF|done].
      + intros d Hd0 Hd. apply Hgr; [done|]. intros k v e Hk He.
        apply (Hd k v e); [by apply HF|done]. }
  cbn [mbind result_bind].
  destruct (IH (F0 ++ [f]) B1 HlB1 Hnn1) as (Fs & B & -> & HFs & HlB & Hnn & HB).
  exists (f :: Fs), B. split; [by rewrite <- app_assoc|].
  split; [by constructor|]. split; [done|]. split; [done|].
  intros i b0 Hb0. destruct (HB1 i b0 Hb0) as (b1 & Hb1 & Hb10 & Hdiv1 & Hgr1).
  destruct (HB i b1 Hb1) as (b & Hb & Hbb1 & Hdiv & Hgr).
  exists b. split; [done|]. split; [by etrans|]. split.
  - intros p' monom c e [->|Hp']%elem_of_cons Ht He.
    + etrans; [exact Hbb1|]. by apply (Hdiv1 monom c e).
    + by apply (Hdiv p' monom c e).
  - intros d Hd0 Hd. apply Hgr.
    + apply Hgr1; [done|]. intros monom c e Ht He.
      apply (Hd p monom c e); [left|done..].
    + intros p' monom c e Hp' Ht He.
      apply (Hd p' monom c e); [by right|done..].
Qed.

(** The last loop of [dmp_multi_deflate]. *)
Lemma multi_last_loop (u : nat) (polys : list (dmp K u))
    (Fs : list (gmap (list Z) K)) (B : list Z) (H0 : list (dmp K u)) :
  Forall (λ p, dmp_normal_p u p = true) polys →
  Forall2 (λ p f, ∀ monom c, f !! monom = Some c ↔ dmp_term u p monom c)
          polys Fs →
  length B = S u →
  Forall (λ b, 1 ≤ b)%Z B →
  (∀ p monom c i e b, p ∈ polys → dmp_term u p monom c →
                      monom !! i = Some e → B !! i = Some b → (b | e)%Z) →
  ∃ Hs,
    for_each Fs
      (λ H f,
         h ← for_items f
               (λ h A coeff, Ok (<[ zip_with Z.div A B := coeff ]> h)) ∅;
         g ← dmp_from_dict u h;
         Ok (H ++ [g]))
      H0 = Ok (H0 ++ Hs) ∧
    Forall2 (λ p h, dmp_normal_p u h = true ∧ dmp_inflate u h B = Ok p)
            polys Hs.
Proof.
  intros Hn HFs HlB Hpos. revert H0 Hn.
  induction HFs as [|p f polys Fs HF HFs IH]; intros H0 Hn Hdiv.
  { exists []. split; [by rewrite app_nil_r|constructor]. }
  apply Forall_cons in Hn as [Hnp Hn]. cbn [for_each].
  destruct (deflate_dict_inflate u p f B Hnp HF HlB Hpos)
    as (h & g & -> & Hg & Hng & _ & Hinfl).
  { intros monom c i e b. apply Hdiv. left. }
  cbn [mbind result_bind]. rewrite Hg. cbn [mbind result_bind].
  destruct (IH (H0 ++ [g]) Hn) as (Hs & -> & HHs).
  { intros p' monom c i e b Hp'. apply Hdiv. by right. }
  exists (g :: Hs). split; [by rewrite <- app_assoc|]. by constructor.
Qed.

(** X25: at a level [u >= 1], on polynomials that satisfy the invariant,
    [dmp_multi_deflate] never raises and returns [(B, H)] where [B] holds
    [u+1] positive integers, each dividing the exponent at its position in
    every term of every polynomial and being the greatest such integer
    unless all these exponents are zero; every entry of [H] satisfies the
    invariant and is taken back by [dmp_inflate] with the shared [B] to the
    polynomial at the same place. *)
Theorem dmp_multi_deflate_spec (v : nat) (polys : list (dmp K (S v))) :
  Forall (λ p, dmp_normal_p (S v) p = true) polys →
  ∃ B H,
    dmp_multi_deflate (S v) polys = Ok (B, H) ∧
    length B = S (S v) ∧
    Forall (λ b, 1 ≤ b)%Z B ∧
    (∀ p monom c i e b, p ∈ polys → dmp_term (S v) p monom c →
                        monom !! i = Some e → B !! i = Some b → (b | e)%Z) ∧
    (∀ i b d, B !! i = Some b →
              (∃ p monom c e, p ∈ polys ∧ dmp_term (S v) p monom c ∧
                              monom !! i = Some e ∧ e ≠ 0%Z) →
              (∀ p monom c e, p ∈ polys → dmp_term (S v) p monom c →
                              monom !! i = Some e → (d | e)%Z) →
              (d | b)%Z) ∧
    Forall2 (λ p h, dmp_normal_p (S v) h = true ∧
                    dmp_inflate (S v) h B = Ok p) polys H.
Proof.
  intros Hn. unfold dmp_multi_deflate.
  destruct (multi_first_loop (S v) polys [] (py_repeat 0%Z (Z.of_nat (S v) + 1)))
    as (Fs & B1 & -> & HFs & HlB1 & Hnn1 & HB1).
  { unfold py_repeat. rewrite length_replicate. lia. }
  { apply Forall_replicate. lia. }
  cbn [mbind result_bind app].
  destruct (normalise_loop B1 B1) as (B & -> & HlB & HB); [lia|].
  cbn [mbind result_bind].
  assert (∀ i, i < S (S v) →
    ∃ b1, B1 !! i = Some b1 ∧
          B !! i = Some (if (b1 =? 0)%Z then 1%Z else b1) ∧ (0 ≤ b1)%Z ∧
          (∀ p monom c e, p ∈ polys → dmp_term (S v) p monom c →
                          monom !! i = Some e → (b1 | e)%Z) ∧
          (∀ d, (∀ p monom c e, p ∈ polys → dmp_term (S v) p monom c →
                                monom !! i = Some e → (d | e)%Z) →
                (d | b1)%Z)) as Hchar.
  { intros i Hi.
    destruct (HB1 i 0%Z) as (b1 & Hb1 & _ & Hdiv & Hgreat).
    { apply lookup_replicate_2. lia. }
    exists b1. split; [done|]. split.
    { rewrite HB, Hb1. by destruct (b1 =? 0)%Z. }
    split. { rewrite Forall_lookup in Hnn1. by apply (Hnn1 i b1). }
    split; [done|]. intros d Hd. apply Hgreat; [apply Z.divide_0_r|done]. }
  assert (length B = S (S v)) as HlenB by lia.
  assert (Forall (λ b, 1 ≤ b)%Z B) as Hpos.
  { apply Forall_lookup. intros i b Hb.
    destruct (Hchar i) as (b1 & _ & Hb' & H0 & _).
    { apply lookup_lt_Some in Hb. lia. }
    rewrite Hb' in Hb. injection Hb as <-.
    destruct (Z.eqb_spec b1 0); lia. }
  assert (∀ p monom c i e b, p ∈ polys → dmp_term (S v) p monom c →
            monom !! i = Some e → B !! i = Some b → (b | e)%Z) as Hdivides.
  { intros p monom c i e b Hp Ht He Hb.
    destruct (Hchar i) as (b1 & _ & Hb' & _ & Hdiv & _).
    { apply lookup_lt_Some in Hb. lia. }
    rewrite Hb' in Hb. injection Hb as <-.
    destruct (Z.eqb_spec b1 0); [apply Z.divide_1_l|].
    by apply (Hdiv p monom c). }
  assert (∀ i b d, B !! i = Some b →
            (∃ p monom c e, p ∈ polys ∧ dmp_term (S v) p monom c ∧
                            monom !! i = Some e ∧ e ≠ 0%Z) →
            (∀ p monom c e, p ∈ polys → dmp_term (S v) p monom c →
                            monom !! i = Some e → (d | e)%Z) →
            (d | b)%Z) as Hgreatest.
  { intros i b d Hb (p & monom & c & e & Hp & Ht & He & Hne) Hd.
    destruct (Hchar i) as (b1 & _ & Hb' & _ & Hdiv & Hgreat).
    { apply lookup_lt_Some in Hb. lia. }
    rewrite Hb' in Hb. injection Hb as <-.
    destruct (Z.eqb_spec b1 0) as [->|_]; [|by apply Hgreat].
    destruct (Hdiv p monom c e Hp Ht He) as [q Hq]. lia. }
  destruct (forallb (λ b, (b =? 1)%Z) B) eqn:Hones.
  { apply forallb_Forall in Hones.
    assert (Forall (λ b, b = 1%Z) B) as Hones'.
    { eapply Forall_impl; [exact Hones|]. simpl. intros b. lia. }
    exists B, polys. split; [done|]. split; [done|]. split; [done|].
    split; [done|]. split; [done|].
    apply Forall2_same_length_lookup. split; [done|].
    intros i p p' Hp Hp'. assert (p' = p) as -> by congruence.
    rewrite Forall_lookup in Hn. split; [by apply (Hn i p)|].
    by apply dmp_inflate_ones. }
  destruct (multi_last_loop (S v) polys Fs B [] Hn HFs HlenB Hpos Hdivides)
    as (Hs & -> & HHs).
  cbn [mbind result_bind app].
  exists B, Hs. done.
Qed.
End MultiDeflating.

Section Constants.
Context {K : Type} {D : Domain K}.
Implicit Types (c : K).

Lemma dmp_singleton_S (v : nat) c :
  dmp_singleton (S v) c = [dmp_singleton v c].
Proof. done. Qed.

Lemma dmp_singleton_coeff (u : nat) c monom :
  dmp_coeff u (dmp_singleton u c) monom =
    if decide (monom = replicate (S u) 0%Z) then Some c else None.
Proof.
  revert monom. induction u as [|v IH]; intros monom.
  - rewrite dmp_coeff_0. simpl. destruct monom as [|e [|e' es]].
    + by rewrite decide_False.
    + unfold at_exponent, len. simpl.
      destruct (decide (e = 0%Z)) as [->|Hne].
      * by rewrite decide_True.
      * rewrite decide_False by congruence.
        case_bool_decide; [lia|done].
    + by rewrite decide_False.
  - rewrite dmp_singleton_S, dmp_coeff_S. destruct monom as [|e es].
    + by rewrite decide_False.
    + change (replicate (S (S v)) 0%Z) with (0%Z :: replicate (S v) 0%Z).
      unfold at_exponent, len. simpl.
      destruct (decide (e = 0%Z)) as [->|Hne].
      * simpl. rewrite IH. destruct (decide (es = replicate (S v) 0%Z)) as [->|Hes].
        -- by rewrite decide_True.
        -- rewrite decide_False; [done|].
           intros Heq. apply Hes. by injection Heq.
      * rewrite decide_False by congruence.
        case_bool_decide; [lia|done].
Qed.

Lemma dmp_singleton_normal (u : nat) c :
  K_truth c = true → dmp_normal_p u (dmp_singleton u c) = true ∧
                     dmp_zero_p u (dmp_singleton u c) = false.
Proof.
  intros Hc. induction u as [|v [IH1 IH2]]; [by split|].
  rewrite dmp_singleton_S, dmp_normal_p_S, dmp_stripped_S. simpl.
  rewrite IH1, IH2. done.
Qed.

(** X26: the constant polynomial [dmp_ground(c, u)] satisfies the
    invariant; its only term is [c] at the exponents [(0, ..., 0)] (none
    when [c] is zero); [dmp_ground_LC] and [dmp_ground_TC] give back [c],
    and [dmp_true_LT] gives [((0, ..., 0), c)]. *)
Theorem dmp_ground_accessors (u : nat) c :
  dmp_normal_p u (dmp_ground c u) = true ∧
  (∀ monom c', dmp_term u (dmp_ground c u) monom c' ↔
               monom = replicate (S u) 0%Z ∧ c' = c ∧ K_truth c = true) ∧
  dmp_ground_LC u (dmp_ground c u) = c ∧
  dmp_ground_TC u (dmp_ground c u) = c ∧
  dmp_true_LT u (dmp_ground c u) = Ok (replicate (S u) 0%Z, c).
Proof.
  assert (∀ monom c', dmp_term u (dmp_ground c u) monom c' ↔
            monom = replicate (S u) 0%Z ∧ c' = c ∧ K_truth c = true) as Hterms.
  { intros monom c'. unfold dmp_term, dmp_ground.
    destruct (K_truth c) eqn:Hc; simpl.
    - rewrite dmp_singleton_coeff.
      destruct (decide (monom = replicate (S u) 0%Z)) as [->|Hne].
      + split; [intros [[= <-] _]; done|intros (_ & -> & _); done].
      + split; [by intros [? _]|by intros [? _]].
    - rewrite dmp_coeff_zero. split; [by intros [? _]|by intros (_ & _ & ?)]. }
  assert (dmp_normal_p u (dmp_ground c u) = true) as Hn.
  { unfold dmp_ground. destruct (K_truth c) eqn:Hc; simpl.
    - by apply dmp_singleton_normal.
    - apply dmp_normal_zero. }
  assert (dmp_ground_TC u (dmp_ground c u) = c) as HTC.
  { unfold dmp_ground. destruct (K_truth c) eqn:Hc; simpl.
    - clear. induction u as [|v IH]; [done|]. apply IH.
    - transitivity (K_zero (K:=K)); [|symmetry; by apply truth_false].
      clear. induction u as [|v IH]; [done|]. apply IH. }
  assert (dmp_ground_LC u (dmp_ground c u) = c) as HLC.
  { unfold dmp_ground. destruct (K_truth c) eqn:Hc; simpl.
    - clear. induction u as [|v IH]; [done|]. apply IH.
    - rewrite dmp_ground_LC_zero. symmetry. by apply truth_false. }
  split; [done|]. split; [done|]. split; [done|]. split; [done|].
  destruct (true_LT_loop_spec u (dmp_ground c u) [] Hn)
    as (lm & Hlm & Hz & Hh & Hlex).
  unfold dmp_true_LT. rewrite Hlm, HLC. simpl. do 2 f_equal.
  destruct (dmp_zero_p u (dmp_ground c u)) eqn:Hzero; [by apply Hz|].
  specialize (Hh eq_refl).
  destruct (_rec_list_terms u (dmp_ground c u) []) as [|[m c'] r] eqn:Hr;
    [done|].
  simpl in Hh. injection Hh as -> ->.
  assert ((lm, c) ∈ _rec_list_terms u (dmp_ground c u) []) as Hin.
  { rewrite Hr, HLC. left. }
  apply elem_of_rec_list_terms in Hin as (es & -> & Ht).
  apply Hterms in Ht as (-> & _). done.
Qed.
End Constants.

Section SwapAsPermutation.
Context {K : Type} {D : Domain K}.
Implicit Types (c : K).

Lemma exchange_lookup (m : list Z) (i j k : nat) :
  i < j < length m →
  exchange i j m !! k =
    m !! (if decide (k = i) then j else if decide (k = j) then i else k).
Proof.
  intros Hij. unfold exchange.
  destruct (lookup_lt_is_Some_2 m i) as [x Hx]; [lia|].
  destruct (lookup_lt_is_Some_2 m j) as [y Hy]; [lia|].
  rewrite Hx, Hy. simpl.
  destruct (decide (k = i)) as [->|Hki].
  - rewrite list_lookup_insert_eq by (rewrite length_insert; lia). done.
  - rewrite list_lookup_insert_ne by done.
    destruct (decide (k = j)) as [->|Hkj].
    + rewrite list_lookup_insert_eq by lia. done.
    + by rewrite list_lookup_insert_ne.
Qed.

Lemma exchange_Permutation (m : list Z) (i j : nat) :
  i < j < length m → exchange i j m ≡ₚ m.
Proof.
  intros Hij.
  destruct (decompose_at m i j Hij) as (a & x & b & y & r & Hm & Hi & Hj & _).
  rewrite Hm at 1. rewrite Hj, <- Hi, exchange_decomposed, Hm.
  apply Permutation_app_head.
  rewrite <- !Permutation_middle. apply perm_swap.
Qed.

(** X27: for [0 <= i < j <= u], [dmp_swap(f, i, j, u, K)] is
    [dmp_permute(f, P, u, K)] for the permutation [P] that is the identity
    [[0, ..., u]] with its entries [i] and [j] exchanged. *)
Theorem dmp_swap_permute (u : nat) (f : dmp K u) (i j : Z) :
  (0 ≤ i < j)%Z → (j ≤ Z.of_nat u)%Z →
  dmp_swap u f i j =
  dmp_permute u f (exchange (Z.to_nat i) (Z.to_nat j)
                            (Z.of_nat <$> seq 0 (S u))).
Proof.
  intros Hij Hju.
  set (a := Z.to_nat i). set (b := Z.to_nat j).
  set (L := Z.of_nat <$> seq 0 (S u)).
  assert (length L = S u) as HlL.
  { subst L. by rewrite length_fmap, length_seq. }
  assert (a < b < length L) as Hab by lia.
  destruct (dmp_swap_run u f a b) as (g1 & Hg1 & Hn1 & Ht1); [lia|].
  subst a b. rewrite !Z2Nat.id in Hg1 by lia. rewrite Hg1.
  set (a := Z.to_nat i) in *. set (b := Z.to_nat j) in *.
  destruct (dmp_permute_run u f (exchange a b L)) as (g2 & -> & Hn2 & Ht2).
  { by apply exchange_Permutation. }
  f_equal. apply normal_ext; [done..|].
  set (σ := λ k, if decide (k = a) then b else if decide (k = b) then a else k).
  assert (∀ k, σ (σ k) = k) as Hσσ.
  { intros k. unfold σ. repeat case_decide; lia. }
  assert (∀ k, k < S u → σ k < S u) as Hσlt.
  { intros k Hk. unfold σ. repeat case_decide; lia. }
  assert (∀ k, k < S u → exchange a b L !! k = Some (Z.of_nat (σ k))) as HP.
  { intros k Hk. rewrite exchange_lookup by done. fold (σ k).
    subst L. rewrite list_lookup_fmap, lookup_seq_lt by (by apply Hσlt).
    done. }
  intros monom c. rewrite Ht1, Ht2. split.
  - intros (m & <- & Hm). pose proof (term_length u f m c Hm) as Hlm.
    exists m. split; [done|]. split; [by rewrite length_exchange|].
    intros k p Hk.
    assert (k < S u) as Hku.
    { apply lookup_lt_Some in Hk. rewrite length_exchange in Hk. lia. }
    rewrite HP in Hk by done. injection Hk as <-.
    rewrite Nat2Z.id, exchange_lookup by lia. fold (σ (σ k)).
    by rewrite Hσσ.
  - intros (m & Hm & Hl & Hpt). pose proof (term_length u f m c Hm) as Hlm.
    exists m. split; [|done].
    apply list_eq. intros q. destruct (decide (q < S u)) as [Hq|Hq].
    + rewrite exchange_lookup by lia. fold (σ q).
      rewrite <- (Hpt (σ q) (Z.of_nat q)); [by rewrite Nat2Z.id|].
      rewrite HP by (by apply Hσlt). by rewrite Hσσ.
    + rewrite !lookup_ge_None_2; [done|lia|].
      rewrite length_exchange. lia.
Qed.
End SwapAsPermutation.

(** ** Examples over the integers *)

(** X1 over the integers, on [x^2 + 2*x + 3]. *)
Lemma dup_reverse_involutive_witness :
  dup_stripped [1; 2; 3]%Z = true ∧ K_truth (poly_TC [1; 2; 3]%Z) = true ∧
  dup_reverse (dup_reverse [1; 2; 3]%Z) = [1; 2; 3]%Z.
Proof.
  split; [reflexivity|]. split; [reflexivity|].
  apply (proj2 (dup_reverse_involutive [1; 2; 3]%Z)); reflexivity.
Defined.

(** X2 over the integers, on [x^4 + x^2]. *)
Lemma dup_terms_gcd_spec_witness :
  dup_stripped [1; 0; 1; 0; 0]%Z = true ∧
  dup_stripped (dup_terms_gcd [1; 0; 1; 0; 0]%Z).2 = true.
Proof.
  split; [reflexivity|].
  apply (proj2 (proj2 (proj2 (dup_terms_gcd_spec [1; 0; 1; 0; 0]%Z)))).
  reflexivity.
Defined.

(** X3 over the integers, on [x^2 + 1]. *)
Lemma dup_deflate_error_witness :
  dup_stripped [1; 0; 1]%Z = true ∧ ∃ r, dup_deflate [1; 0; 1]%Z = Ok r.
Proof.
  split; [reflexivity|].
  apply (proj2 (dup_deflate_error [1; 0; 1]%Z)). reflexivity.
Defined.

(** X5 over the integers, on [x + 2] and [m = 3]. *)
Lemma dup_inflate_coefficients_witness :
  (1 ≤ 3)%Z ∧
  ∃ g, dup_inflate [1; 2]%Z 3 = Ok g ∧
       ([1; 2]%Z = [] → g = []) ∧
       ([1; 2]%Z ≠ [] → dup_degree g = (3 * dup_degree [1; 2]%Z)%Z) ∧
       (∀ k, at_exponent g (3 * k) = at_exponent [1; 2]%Z k) ∧
       (∀ e c, at_exponent g e = Some c → ¬ (3 | e)%Z → c = K_zero).
Proof.
  split; [lia|]. apply (proj2 (dup_inflate_coefficients [1; 2]%Z 3)). lia.
Defined.

(** X6 over the integers, on [x^3 + 2*x^2 + 3*x + 4] and the exponents
    [1 <= e < 3]. *)
Lemma dup_slice_terms_witness :
  (1 ≤ len [1; 2; 3; 4]%Z ∨ 2 * len [1; 2; 3; 4]%Z ≤ 1)%Z ∧
  (3 ≤ len [1; 2; 3; 4]%Z ∨ 2 * len [1; 2; 3; 4]%Z ≤ 3)%Z ∧
  ∀ e c, dmp_term 0 (dup_slice [1; 2; 3; 4]%Z 1 3) [e] c ↔
         dmp_term 0 [1; 2; 3; 4]%Z [e] c ∧ (1 ≤ e < 3)%Z.
Proof.
  assert (1 ≤ len [1; 2; 3; 4]%Z ∨ 2 * len [1; 2; 3; 4]%Z ≤ 1)%Z as H1.
  { left. unfold len. simpl. lia. }
  assert (3 ≤ len [1; 2; 3; 4]%Z ∨ 2 * len [1; 2; 3; 4]%Z ≤ 3)%Z as H2.
  { left. unfold len. simpl. lia. }
  split; [exact H1|]. split; [exact H2|].
  exact (dup_slice_terms [1; 2; 3; 4]%Z 1 3 H1 H2).
Defined.

(** X7 over the integers, with the addition, on [x*y + 2] and [3*y]. *)
Lemma dmp_apply_pairs_spec_witness :
  Z.add K_zero K_zero = K_zero ∧
  dmp_normal_p 1 (dmp_apply_pairs 1 [[1; 0]; [2]]%Z [[3; 0]]%Z Z.add) = true ∧
  ∀ monom c,
    dmp_term 1 (dmp_apply_pairs 1 [[1; 0]; [2]]%Z [[3; 0]]%Z Z.add) monom c ↔
    c = (dmp_coeff_or_zero 1 [[1; 0]; [2]]%Z monom
         + dmp_coeff_or_zero 1 [[3; 0]]%Z monom)%Z ∧
    K_truth c = true.
Proof.
  split; [reflexivity|].
  apply (dmp_apply_pairs_spec 1 [[1; 0]; [2]]%Z [[3; 0]]%Z Z.add). reflexivity.
Defined.

(** X8 over the integers, on [x*y + 2] at level [1]. *)
Lemma dmp_ground_LC_zero_iff_witness :
  dmp_normal_p 1 [[1; 0]; [2]]%Z = true ∧
  (dmp_ground_LC 1 [[1; 0]; [2]]%Z = K_zero ↔ [[1; 0]; [2]]%Z = dmp_zero 1).
Proof.
  split; [reflexivity|].
  apply (dmp_ground_LC_zero_iff 1 [[1; 0]; [2]]%Z). reflexivity.
Defined.

(** X9 over the integers, on the example of the docstring. *)
Lemma dmp_true_LT_leading_witness :
  dmp_normal_p 1 [[4]; [2; 0]; [3; 0; 0]]%Z = true ∧
  ∃ monom,
    dmp_true_LT 1 [[4]; [2; 0]; [3; 0; 0]]%Z
      = Ok (monom, dmp_ground_LC 1 [[4]; [2; 0]; [3; 0; 0]]%Z) ∧
    head (dmp_list_terms 1 [[4]; [2; 0]; [3; 0; 0]]%Z None)
      = Some (monom, dmp_ground_LC 1 [[4]; [2; 0]; [3; 0; 0]]%Z) ∧
    ∀ m' c', dmp_term 1 [[4]; [2; 0]; [3; 0; 0]]%Z m' c' →
             tuple_ltb monom m' = false.
Proof.
  split; [reflexivity|].
  apply (dmp_true_LT_leading 1 [[4]; [2; 0]; [3; 0; 0]]%Z). reflexivity.
Defined.

(** X10 over the integers, on the example of the docstring. *)
Lemma dmp_degree_list_spec_witness :
  dmp_normal_p 1 [[1]; [1; 2; 3]]%Z = true ∧
  dmp_zero_p 1 [[1]; [1; 2; 3]]%Z = false ∧
  ∃ degs,
    dmp_degree_list 1 [[1]; [1; 2; 3]]%Z = Ok degs ∧
    length degs = 2 ∧
    head degs = Some (dmp_degree 1 [[1]; [1; 2; 3]]%Z) ∧
    (∀ monom c j e, dmp_term 1 [[1]; [1; 2; 3]]%Z monom c →
                    monom !! j = Some e →
                    ∃ d, degs !! j = Some d ∧ (e ≤ d)%Z) ∧
    (dmp_normal_p 1 [[1]; [1; 2; 3]]%Z = true →
     dmp_zero_p 1 [[1]; [1; 2; 3]]%Z = false →
       ∀ j d, degs !! j = Some d →
              ∃ monom c, dmp_term 1 [[1]; [1; 2; 3]]%Z monom c ∧
                         monom !! j = Some d) ∧
    (dmp_zero_p 1 [[1]; [1; 2; 3]]%Z = true → degs = replicate 2 (-1)%Z).
Proof.
  split; [reflexivity|]. split; [reflexivity|].
  exact (dmp_degree_list_spec 1 [[1]; [1; 2; 3]]%Z).
Defined.

(** X11 over the integers, on the example of the docstring. *)
Lemma dmp_nth_spec_witness :
  (0 ≤ 1)%Z ∧
  dmp_nth 0 [[1]; [2]; [3]]%Z 1
  = Ok (default (dmp_zero 0) (at_exponent [[1]; [2]; [3]]%Z 1)).
Proof.
  split; [lia|]. apply (proj2 (dmp_nth_spec 0 [[1]; [2]; [3]]%Z 1)). lia.
Defined.

(** X13 over the integers, on the zero polynomial of level [1] with the
    flag set. *)
Lemma dmp_to_dict_entries_witness :
  dmp_normal_p 1 (dmp_zero (K:=Z) 1) = true ∧
  ∃ d, dmp_to_dict 1 (dmp_zero (K:=Z) 1) true = Ok d ∧
       (dmp_zero_p 1 (dmp_zero (K:=Z) 1) && true = false →
          sparse_form 1 d ∧
          ∀ monom c, d !! monom = Some c ↔ dmp_term 1 (dmp_zero 1) monom c) ∧
       (dmp_zero_p 1 (dmp_zero (K:=Z) 1) && true = true →
          d = {[ replicate 2 0%Z := K_zero ]}) ∧
       (true = true → dmp_normal_p 1 (dmp_zero (K:=Z) 1) = true → d ≠ ∅).
Proof.
  split; [reflexivity|]. exact (dmp_to_dict_entries 1 (dmp_zero (K:=Z) 1) true).
Defined.

(** X14 over the integers, on the sparse form of [3*x*y + 5]. *)
Lemma from_dict_to_dict_witness :
  sparse_form (K:=Z) 1 {[ [1; 1]%Z := 3%Z; [0; 0]%Z := 5%Z ]} ∧
  ∃ g, dmp_from_dict 1 {[ [1; 1]%Z := 3%Z; [0; 0]%Z := 5%Z ]} = Ok g ∧
       dmp_normal_p 1 g = true ∧
       dmp_to_dict 1 g false = Ok {[ [1; 1]%Z := 3%Z; [0; 0]%Z := 5%Z ]}.
Proof.
  assert (sparse_form (K:=Z) 1 {[ [1; 1]%Z := 3%Z; [0; 0]%Z := 5%Z ]}) as Hsp.
  { intros monom c Hm.
    apply lookup_insert_Some in Hm as [[<- <-]|[_ Hm]].
    - split; [done|]. split; [|done]. repeat constructor; lia.
    - apply lookup_singleton_Some in Hm as [<- <-].
      split; [done|]. split; [|done]. repeat constructor; lia. }
  split; [exact Hsp|]. exact (from_dict_to_dict 1 _ Hsp).
Defined.

(** X15 over the integers, on [x*y + x + 2*y + 3]. *)
Lemma list_terms_to_dict_witness :
  (∃ monom c, dmp_term 1 [[1; 1]; [2; 3]]%Z monom c) ∧
  dmp_to_dict 1 [[1; 1]; [2; 3]]%Z false
  = Ok (list_to_map (dmp_list_terms 1 [[1; 1]; [2; 3]]%Z None)).
Proof.
  assert (∃ monom c, dmp_term 1 [[1; 1]; [2; 3]]%Z monom c) as Hterm.
  { exists [0; 0]%Z, 3%Z. split; reflexivity. }
  split; [exact Hterm|]. exact (list_terms_to_dict 1 _ Hterm).
Defined.

(** X17 over the integers, on the example of the docstring. *)
Lemma dmp_swap_spec_witness :
  (0 ≤ 0 < 1)%Z ∧ (1 ≤ Z.of_nat 2)%Z ∧
  dmp_normal_p 2 [[[2]; [1; 0]]; [[]]]%Z = true ∧
  ∃ g, dmp_swap 2 [[[2]; [1; 0]]; [[]]]%Z 0 1 = Ok g ∧
       dmp_normal_p 2 g = true ∧
       (∀ monom c, dmp_term 2 g monom c ↔
                   ∃ m, exchange (Z.to_nat 0) (Z.to_nat 1) m = monom ∧
                        dmp_term 2 [[[2]; [1; 0]]; [[]]]%Z m c) ∧
       (dmp_normal_p 2 [[[2]; [1; 0]]; [[]]]%Z = true →
          dmp_swap 2 g 0 1 = Ok [[[2]; [1; 0]]; [[]]]%Z).
Proof.
  assert (0 ≤ 0 < 1)%Z as H1 by lia.
  assert (1 ≤ Z.of_nat 2)%Z as H2 by lia.
  split; [exact H1|]. split; [exact H2|]. split; [reflexivity|].
  exact (proj2 (proj2 (dmp_swap_spec 2 [[[2]; [1; 0]]; [[]]]%Z 0 1)) H1 H2).
Defined.

(** X20 over the integers, on [x + 1] at level [1], sliced in [x] to the
    exponents [0 <= k < 2]. *)
Lemma dmp_slice_in_contains_witness :
  (0 ≤ 0 ≤ Z.of_nat 1)%Z ∧
  (∀ monom c, dmp_term 1 [[1]; [1]]%Z monom c →
              ∃ k, monom !! Z.to_nat 0 = Some k ∧ (0 ≤ k < 2)%Z) ∧
  dmp_slice_in 1 [[1]; [1]]%Z 0 2 0 = Ok (_rec_strip 1 [[1]; [1]]%Z) ∧
  (dmp_normal_p 1 [[1]; [1]]%Z = true →
     dmp_slice_in 1 [[1]; [1]]%Z 0 2 0 = Ok [[1]; [1]]%Z).
Proof.
  assert (0 ≤ 0 ≤ Z.of_nat 1)%Z as H1 by lia.
  assert (∀ monom c, dmp_term 1 [[1]; [1]]%Z monom c →
            ∃ k, monom !! Z.to_nat 0 = Some k ∧ (0 ≤ k < 2)%Z) as H2.
  { intros monom c (k & es & x & -> & Hk & _)%dmp_term_S.
    exists k. split; [done|]. by apply at_exponent_range in Hk. }
  split; [exact H1|]. split; [exact H2|].
  exact (dmp_slice_in_contains 0 [[1]; [1]]%Z 0 2 0 H1 H2).
Defined.

(** X21 over the integers, on [x + 2*y] at level [1] with the two variables
    exchanged. *)
Lemma dmp_permute_spec_witness :
  [1; 0]%Z ≡ₚ Z.of_nat <$> seq 0 2 ∧
  ∃ g, dmp_permute 1 [[1]; [2; 0]]%Z [1; 0]%Z = Ok g ∧
       dmp_normal_p 1 g = true ∧
       (∀ monom c,
          dmp_term 1 g monom c ↔
          ∃ m, dmp_term 1 [[1]; [2; 0]]%Z m c ∧ length monom = 2 ∧
               ∀ k p, [1; 0]%Z !! k = Some p → monom !! Z.to_nat p = m !! k) ∧
       ([1; 0]%Z = Z.of_nat <$> seq 0 2 → dmp_normal_p 1 [[1]; [2; 0]]%Z = true →
          g = [[1]; [2; 0]]%Z).
Proof.
  assert ([1; 0]%Z ≡ₚ Z.of_nat <$> seq 0 2) as HP by apply perm_swap.
  split; [exact HP|]. exact (dmp_permute_spec 1 [[1]; [2; 0]]%Z [1; 0]%Z HP).
Defined.

(** X22 over the integers, on the example of the docstring. *)
Lemma dmp_inflate_spec_witness :
  length [2; 3]%Z = 2 ∧
  dmp_normal_p 1 [[1; 2]; [3; 4]]%Z = true ∧
  Forall (λ m, 1 ≤ m)%Z [2; 3]%Z ∧
  ∃ h, dmp_inflate 1 [[1; 2]; [3; 4]]%Z [2; 3]%Z = Ok h ∧
       dmp_normal_p 1 h = true ∧
       ∀ monom c, dmp_term 1 h monom c ↔
                  ∃ m', dmp_term 1 [[1; 2]; [3; 4]]%Z m' c ∧
                        monom = zip_with Z.mul m' [2; 3]%Z.
Proof.
  assert (Forall (λ m, 1 ≤ m)%Z [2; 3]%Z) as Hpos.
  { repeat constructor; lia. }
  split; [reflexivity|]. split; [reflexivity|]. split; [exact Hpos|].
  exact (proj1 (dmp_inflate_spec 1 [[1; 2]; [3; 4]]%Z [2; 3]%Z
                  eq_refl eq_refl) Hpos).
Defined.

(** X23 over the integers, on the example of the docstring. *)
Lemma dmp_deflate_spec_witness :
  dmp_normal_p 1 [[1; 0; 0; 2]; []; [3; 0; 0; 4]]%Z = true ∧
  ∃ B g,
    dmp_deflate 1 [[1; 0; 0; 2]; []; [3; 0; 0; 4]]%Z = Ok (B, g) ∧
    length B = 2 ∧
    Forall (λ b, 1 ≤ b)%Z B ∧
    (∀ monom c i e b, dmp_term 1 [[1; 0; 0; 2]; []; [3; 0; 0; 4]]%Z monom c →
                      monom !! i = Some e → B !! i = Some b → (b | e)%Z) ∧
    (∀ i b d, B !! i = Some b →
              (∃ monom c e, dmp_term 1 [[1; 0; 0; 2]; []; [3; 0; 0; 4]]%Z monom c ∧
                            monom !! i = Some e ∧ e ≠ 0%Z) →
              (∀ monom c e, dmp_term 1 [[1; 0; 0; 2]; []; [3; 0; 0; 4]]%Z monom c →
                            monom !! i = Some e → (d | e)%Z) →
              (d | b)%Z) ∧
    dmp_normal_p 1 g = true ∧
    (∀ monom c, dmp_term 1 g monom c ↔
                ∃ m', dmp_term 1 [[1; 0; 0; 2]; []; [3; 0; 0; 4]]%Z m' c ∧
                      monom = zip_with Z.div m' B) ∧
    dmp_inflate 1 g B = Ok [[1; 0; 0; 2]; []; [3; 0; 0; 4]]%Z.
Proof.
  assert (dmp_normal_p 1 [[1; 0; 0; 2]; []; [3; 0; 0; 4]]%Z = true) as Hn
    by reflexivity.
  split; [exact Hn|].
  exact (dmp_deflate_spec 1 [[1; 0; 0; 2]; []; [3; 0; 0; 4]]%Z Hn).
Defined.

(** X24 over the integers, on the dictionary of [5*x^2]. *)
Lemma raw_dict_round_trip_witness :
  (∀ k c, ({[ 2%Z := 5%Z ]} : gmap Z Z) !! k = Some c →
          (0 ≤ k)%Z ∧ K_truth c = true) ∧
  ∃ g, dup_from_raw_dict ({[ 2%Z := 5%Z ]} : gmap Z Z) = Ok g ∧
       dup_stripped g = true ∧
       dup_to_raw_dict g false = Ok {[ 2%Z := 5%Z ]}.
Proof.
  assert (∀ k c, ({[ 2%Z := 5%Z ]} : gmap Z Z) !! k = Some c →
                 (0 ≤ k)%Z ∧ K_truth c = true) as Hwf.
  { intros k c [<- <-]%lookup_singleton_Some. split; [lia|done]. }
  split; [exact Hwf|]. exact (proj2 raw_dict_round_trip _ Hwf).
Defined.

(** X25 over the integers, on the example of the docstring. *)
Lemma dmp_multi_deflate_spec_witness :
  Forall (λ p, dmp_normal_p 1 p = true)
         [[[1; 0; 0; 2]; []; [3; 0; 0; 4]]; [[1; 0; 2]; []; [3; 0; 4]]]%Z ∧
  ∃ B H,
    dmp_multi_deflate 1
      [[[1; 0; 0; 2]; []; [3; 0; 0; 4]]; [[1; 0; 2]; []; [3; 0; 4]]]%Z
      = Ok (B, H) ∧
    length B = 2 ∧
    Forall (λ b, 1 ≤ b)%Z B ∧
    (∀ p monom c i e b,
       p ∈ [[[1; 0; 0; 2]; []; [3; 0; 0; 4]]; [[1; 0; 2]; []; [3; 0; 4]]]%Z →
       dmp_term 1 p monom c → monom !! i = Some e → B !! i = Some b →
       (b | e)%Z) ∧
    (∀ i b d, B !! i = Some b →
       (∃ p monom c e,
          p ∈ [[[1; 0; 0; 2]; []; [3; 0; 0; 4]]; [[1; 0; 2]; []; [3; 0; 4]]]%Z ∧
          dmp_term 1 p monom c ∧ monom !! i = Some e ∧ e ≠ 0%Z) →
       (∀ p monom c e,
          p ∈ [[[1; 0; 0; 2]; []; [3; 0; 0; 4]]; [[1; 0; 2]; []; [3; 0; 4]]]%Z →
          dmp_term 1 p monom c → monom !! i = Some e → (d | e)%Z) →
       (d | b)%Z) ∧
    Forall2 (λ p h, dmp_normal_p 1 h = true ∧ dmp_inflate 1 h B = Ok p)
      [[[1; 0; 0; 2]; []; [3; 0; 0; 4]]; [[1; 0; 2]; []; [3; 0; 4]]]%Z H.
Proof.
  assert (Forall (λ p, dmp_normal_p 1 p = true)
            [[[1; 0; 0; 2]; []; [3; 0; 0; 4]]; [[1; 0; 2]; []; [3; 0; 4]]]%Z)
    as Hn.
  { repeat constructor. }
  split; [exact Hn|].
  exact (dmp_multi_deflate_spec 0 _ Hn).
Defined.

(** X27 over the integers, on the example of the docstring of
    [dmp_swap]. *)
Lemma dmp_swap_permute_witness :
  (0 ≤ 0 < 1)%Z ∧ (1 ≤ Z.of_nat 2)%Z ∧
  dmp_swap 2 [[[2]; [1; 0]]; [[]]]%Z 0 1 =
  dmp_permute 2 [[[2]; [1; 0]]; [[]]]%Z
    (exchange (Z.to_nat 0) (Z.to_nat 1) (Z.of_nat <$> seq 0 3)).
Proof.
  assert (0 ≤ 0 < 1)%Z as H1 by lia.
  assert (1 ≤ Z.of_nat 2)%Z as H2 by lia.
  split; [exact H1|]. split; [exact H2|].
  exact (dmp_swap_permute 2 [[[2]; [1; 0]]; [[]]]%Z 0 1 H1 H2).
Defined.
